(** * Visa Guide AIA: the local record store, embedded in Rocq

    The repository keeps all of its state in the browser's localStorage,
    as JSON text under a handful of keys.  Two storage modules exist:

    - [Storage] (src/storage.js): users, current session and the visa
      applications, with the per-user embedded summary;
    - [GuideStorage] (the second [Storage] object of the unnamed source
      part): users with a hashed password, the session and the per-user
      blobs, among them the bounded chat history.

    Modelling decisions, all stated here once:

    - localStorage is a finite map from keys to JSON trees: every value
      is written with [JSON.stringify] and read back with [JSON.parse],
      so a key holds the tree rather than its text.  A property whose
      value is [undefined] is dropped by [JSON.stringify]; it is modelled
      as an absent key.  Writes are assumed to succeed (no quota error).
    - a JavaScript string is a [string] whose characters are the code
      units 0..255; [toLowerCase] and [trim] are the JavaScript functions
      on that range.  Numbers are integers.
    - a JavaScript exception ([TypeError]: a method of [null], a missing
      method) is the outcome [Throw]; the store keeps what was written
      before it.
    - the clock and the random source are inputs: every operation that
      reads them takes the readings as arguments. *)

From stdpp Require Import gmap strings list fin_maps pretty.
From Stdlib Require Import ZArith Ascii String HexadecimalString.

Local Open Scope string_scope.
Local Open Scope Z_scope.
Local Open Scope list_scope.

Set Warnings "-register-all".

(** ** JSON trees *)

Inductive value : Type :=
| VNull
| VBool (b : bool)
| VNum (z : Z)
| VStr (s : string)
| VArr (l : list value)
| VObj (o : gmap string value).

Abbreviation obj := (gmap string value).
Abbreviation store := (gmap string value).

(** ** Outcomes of an evaluation that may throw *)

Inductive res (A : Type) : Type :=
| Ok (a : A)
| Throw.
Arguments Ok {A} a.
Arguments Throw {A}.

#[global] Instance res_ret : MRet res := fun A a => Ok a.
#[global] Instance res_bind : MBind res := fun A B f m =>
  match m with
  | Ok a => f a
  | Throw => Throw
  end.
#[global] Instance res_fmap : FMap res := fun A B f m =>
  match m with
  | Ok a => Ok (f a)
  | Throw => Throw
  end.

(** ** The JavaScript primitives the storage modules use *)

Module JS.

(** Truthiness of a value; [None] is [undefined]. *)
Definition truthy (v : value) : bool :=
  match v with
  | VNull => false
  | VBool b => b
  | VNum z => negb (z =? 0)
  | VStr s => negb (String.eqb s "")
  | VArr _ => true
  | VObj _ => true
  end.

Definition truthy_opt (v : option value) : bool :=
  match v with
  | Some w => truthy w
  | None => false
  end.

(** [v.k] for one of the field names the code reads; only [null] throws,
    and only an object has such a property. *)
Definition prop (v : value) (k : string) : res (option value) :=
  match v with
  | VNull => Throw
  | VObj o => Ok (o !! k)
  | _ => Ok None
  end.

(** [v === s] for a string [s]: trees that come out of [JSON.parse] are
    equal to a string only when they are that string. *)
Definition is_str (v : option value) (s : string) : bool :=
  match v with
  | Some (VStr t) => String.eqb t s
  | _ => false
  end.

(** [a || b] *)
Definition or_else (a : option value) (b : value) : value :=
  match a with
  | Some w => if truthy w then w else b
  | None => b
  end.

(** [String.prototype.toLowerCase] on the code units 0..255. *)
Definition lower_code (n : N) : N :=
  if ((65 <=? n) && (n <=? 90) ||
      (192 <=? n) && (n <=? 222) && negb (n =? 215))%N
  then (n + 32)%N else n.

Definition lower_char (c : ascii) : ascii := ascii_of_N (lower_code (N_of_ascii c)).

Fixpoint toLowerCase (s : string) : string :=
  match s with
  | EmptyString => EmptyString
  | String c s' => String (lower_char c) (toLowerCase s')
  end.

(** White space and line terminators below 256. *)
Definition is_space (c : ascii) : bool :=
  let n := N_of_ascii c in
  ((9 <=? n) && (n <=? 13) || (n =? 32) || (n =? 160))%N.

Fixpoint trimStart (s : string) : string :=
  match s with
  | EmptyString => EmptyString
  | String c s' => if is_space c then trimStart s' else s
  end.

Fixpoint trimEnd (s : string) : string :=
  match s with
  | EmptyString => EmptyString
  | String c s' =>
      let t := trimEnd s' in
      if is_space c && String.eqb t "" then EmptyString else String c t
  end.

Definition trim (s : string) : string := trimEnd (trimStart s).

(** A string method called on an arbitrary value: it exists on strings
    only. *)
Definition str_method (f : string → string) (v : option value) : res string :=
  match v with
  | Some (VStr s) => Ok (f s)
  | _ => Throw
  end.

(** An array method called on an arbitrary value. *)
Definition as_array (v : value) : res (list value) :=
  match v with
  | VArr l => Ok l
  | _ => Throw
  end.

(** [Array.prototype.find], [findIndex] and [filter] with a callback that
    may throw. [None] is [undefined], respectively [-1]. *)
Fixpoint arr_find (cb : value → res bool) (l : list value) : res (option value) :=
  match l with
  | [] => Ok None
  | x :: l' => b ← cb x; if b : bool then Ok (Some x) else arr_find cb l'
  end.

Fixpoint arr_findIndex (cb : value → res bool) (l : list value) : res (option nat) :=
  match l with
  | [] => Ok None
  | x :: l' => b ← cb x;
               if b : bool then Ok (Some O) else i ← arr_findIndex cb l'; Ok (option_map S i)
  end.

Fixpoint arr_filter (cb : value → res bool) (l : list value) : res (list value) :=
  match l with
  | [] => Ok []
  | x :: l' => b ← cb x; r ← arr_filter cb l';
               Ok (if b : bool then x :: r else r)
  end.

(** Object spread [{ ...v }]: the own enumerable properties of [v]. *)
Definition indexed (l : list value) : obj :=
  list_to_map (imap (fun i x => (pretty i, x)) l).

Definition chars (s : string) : list value :=
  (fun c => VStr (String c EmptyString)) <$> list_ascii_of_string s.

Definition spread (v : option value) : obj :=
  match v with
  | Some (VObj o) => o
  | Some (VArr l) => indexed l
  | Some (VStr s) => indexed (chars s)
  | _ => ∅
  end.

(** [{ ...o, k: v }] where [v] may be [undefined]: the property is then
    present with no value, and is gone after [JSON.stringify]. *)
Definition with_prop (k : string) (v : option value) (o : obj) : obj :=
  match v with
  | Some w => <[k := w]> o
  | None => delete k o
  end.

(** ToInt32 and the 32-bit operators. *)
Definition to_int32 (z : Z) : Z := (z + 2 ^ 31) mod 2 ^ 32 - 2 ^ 31.
Definition shl32 (a : Z) (n : Z) : Z := to_int32 (Z.shiftl (to_int32 a) n).
Definition and32 (a b : Z) : Z := to_int32 (Z.land (to_int32 a) (to_int32 b)).

Definition charCode (c : ascii) : Z := Z.of_N (N_of_ascii c).

(** [n.toString(16)] for a non-negative integer. *)
Definition toString16 (z : Z) : string :=
  NilZero.string_of_uint (N.to_hex_uint (Z.to_N z)).


(** [a === b] for two trees parsed from storage: primitives compare by
    value, two objects or arrays are never the same reference, and
    [undefined] equals itself only. *)
Definition strict_eq (a b : option value) : bool :=
  match a, b with
  | None, None => true
  | Some VNull, Some VNull => true
  | Some (VBool x), Some (VBool y) => Bool.eqb x y
  | Some (VNum x), Some (VNum y) => x =? y
  | Some (VStr x), Some (VStr y) => String.eqb x y
  | _, _ => false
  end.

(** [x.k = v] in sloppy mode: an own property on an object, nothing that
    [JSON.stringify] sees on an array or a primitive. *)
Definition assign (k : string) (v : value) (x : value) : value :=
  match x with
  | VObj o => VObj (<[k := v]> o)
  | _ => x
  end.

End JS.

(** ** The state and exception monad of an operation *)

Definition M (A : Type) : Type := store → res A * store.

#[global] Instance M_ret : MRet M := fun A a st => (Ok a, st).
#[global] Instance M_bind : MBind M := fun A B f m st =>
  match m st with
  | (Ok a, st') => f a st'
  | (Throw, st') => (Throw, st')
  end.

Definition lift {A} (r : res A) : M A := fun st => (r, st).

(** [localStorage.getItem], [setItem] and [removeItem] on trees. *)
Definition getItem (k : string) : M (option value) := fun st => (Ok (st !! k), st).
Definition setItem (k : string) (v : value) : M unit := fun st => (Ok tt, <[k := v]> st).
Definition removeItem (k : string) : M unit := fun st => (Ok tt, delete k st).

(** The result object an operation of [Storage] returns. *)
Inductive result : Type :=
| Failure (message : string)         (* { success: false, message } *)
| SuccessUser (user : obj)           (* { success: true, user } *)
| SuccessApplication (application : obj) (* { success: true, application } *)
| SuccessMessage (message : string). (* { success: true, message } *)

(** The [success] flag of what an operation returned. *)
Definition succeeded (r : res result) : bool :=
  match r with
  | Ok (Failure _) => false
  | Ok _ => true
  | Throw => false
  end.

Definition eval {A} (m : M A) (st : store) : res A := fst (m st).
Definition exec {A} (m : M A) (st : store) : store := snd (m st).

(** ** src/storage.js *)

Module Storage.
Import JS.

Definition USERS_KEY : string := "visa_users".
Definition CURRENT_USER_KEY : string := "visa_current_user".
Definition APPLICATIONS_KEY : string := "visa_applications".

(** [get]: the parsed item, [null] when the key is absent. *)
Definition get (key : string) : M value :=
  data ← getItem key; mret (default VNull data).

Definition set (key : string) (v : value) : M bool :=
  _ ← setItem key v; mret true.

Definition remove (key : string) : M unit := removeItem key.

Definition getCurrentUser : M value := get CURRENT_USER_KEY.
Definition setCurrentUser (user : value) : M unit :=
  _ ← set CURRENT_USER_KEY user; mret tt.
Definition clearCurrentUser : M unit := remove CURRENT_USER_KEY.

(** [this.get(this.USERS_KEY) || []] *)
Definition getUsers : M value :=
  v ← get USERS_KEY; mret (or_else (Some v) (VArr [])).

Definition saveUsers (users : value) : M unit :=
  _ ← set USERS_KEY users; mret tt.

(** [user => user.email.toLowerCase() === email.toLowerCase()] *)
Definition email_is (email : option value) (user : value) : res bool :=
  e ← prop user "email";
  a ← str_method toLowerCase e;
  b ← str_method toLowerCase email;
  mret (String.eqb a b).

(** [u => u.id === userId] *)
Definition id_is (id : string) (u : value) : res bool :=
  i ← prop u "id"; mret (is_str i id).

(** [users.find(...) || null]; [None] is [null]. *)
Definition findUserByEmail (email : option value) : M (option value) :=
  users ← getUsers;
  l ← lift (as_array users);
  u ← lift (arr_find (email_is email) l);
  mret (if truthy_opt u then u else None).

Definition findUserById (userId : string) : M (option value) :=
  users ← getUsers;
  l ← lift (as_array users);
  u ← lift (arr_find (id_is userId) l);
  mret (if truthy_opt u then u else None).

(** [generateId(prefix)]: the prefix followed by the base-36 clock reading
    and six base-36 random digits, here the one string [entropy]. *)
Definition generateId (prefix entropy : string) : string := prefix +:+ entropy.

(** [users[userIndex]] for the index [findIndex] returned, as the object
    whose properties are then assigned. *)
Definition obj_at (l : list value) (i : nat) : res obj :=
  match l !! i with
  | Some (VObj o) => Ok o
  | _ => Throw
  end.

(** [{ ...user }; delete sessionUser.password] *)
Definition sessionUser (user : obj) : obj := delete "password" user.

(** The object literal of [registerUser], for the trimmed name and the
    trimmed, lower-cased email. *)
Definition newUser (entropy now name email : string) (userData : obj) : obj :=
  with_prop "password" (userData !! "password")
    {[ "id" := VStr (generateId "usr_" entropy);
       "name" := VStr name;
       "email" := VStr email;
       "createdAt" := VStr now;
       "profile" :=
         VObj {[ "fullName" := VStr name;
                 "email" := VStr email;
                 "phone" := or_else (userData !! "phone") (VStr "");
                 "nationality" := or_else (userData !! "nationality") (VStr "");
                 "currentLocation" :=
                   or_else (userData !! "currentLocation") (VStr "") ]};
       "applications" := VArr [] ]}.

Definition registerUser (entropy now : string) (userData : obj) : M result :=
  if negb (truthy_opt (userData !! "email"))
     || negb (truthy_opt (userData !! "password"))
     || negb (truthy_opt (userData !! "name"))
  then mret (Failure "Please fill in all required fields")
  else
    existingUser ← findUserByEmail (userData !! "email");
    if truthy_opt existingUser
    then mret (Failure "This email is already registered")
    else
      name ← lift (str_method trim (userData !! "name"));
      email ← lift (t ← str_method trim (userData !! "email"); mret (toLowerCase t));
      let user := newUser entropy now name email userData in
      users ← getUsers;
      l ← lift (as_array users);
      _ ← saveUsers (VArr (l ++ [VObj user]));
      _ ← setCurrentUser (VObj user);
      mret (SuccessUser user).

Definition loginUser (email password : string) : M result :=
  if String.eqb email "" || String.eqb password ""
  then mret (Failure "Please enter both email and password")
  else
    user ← findUserByEmail (Some (VStr email));
    match user with
    | None => mret (Failure "No account found with this email address")
    | Some u =>
        pw ← lift (prop u "password");
        if negb (is_str pw password)
        then mret (Failure "Incorrect password. Please try again.")
        else
          let s := sessionUser (spread (Some u)) in
          _ ← setCurrentUser (VObj s);
          mret (SuccessUser s)
    end.

Definition logoutUser : M result :=
  _ ← clearCurrentUser; mret (SuccessMessage "Logged out successfully").

(** The assignments [updateUserProfile] makes on [users[userIndex]]:
    the merged profile with the email of the record, and the name when a
    full name is supplied. *)
Definition withProfile (profileData u : obj) : obj :=
  let profile : obj :=
    with_prop "email" (u !! "email") (profileData ∪ spread (u !! "profile")) in
  let u1 : obj := <["profile" := VObj profile]> u in
  if truthy_opt (profileData !! "fullName")
  then with_prop "name" (profileData !! "fullName") u1
  else u1.

Definition updateUserProfile (userId : string) (profileData : obj) : M result :=
  users ← getUsers;
  l ← lift (as_array users);
  userIndex ← lift (arr_findIndex (id_is userId) l);
  match userIndex with
  | None => mret (Failure "User not found")
  | Some i =>
      u ← lift (obj_at l i);
      let u' := withProfile profileData u in
      _ ← saveUsers (VArr (<[i := VObj u']> l));
      let s := sessionUser u' in
      _ ← setCurrentUser (VObj s);
      mret (SuccessUser s)
  end.

Definition getApplications : M value :=
  v ← get APPLICATIONS_KEY; mret (or_else (Some v) (VArr [])).

(** [app => app.userId === userId] *)
Definition owner_is (userId : string) (app : value) : res bool :=
  o ← prop app "userId"; mret (is_str o userId).

Definition getUserApplications (userId : string) : M (list value) :=
  applications ← getApplications;
  l ← lift (as_array applications);
  lift (arr_filter (owner_is userId) l).

Definition getApplicationById (applicationId : string) : M (option value) :=
  applications ← getApplications;
  l ← lift (as_array applications);
  a ← lift (arr_find (id_is applicationId) l);
  mret (if truthy_opt a then a else None).

(** The lightweight record pushed on the owner's embedded list. *)
Definition summaryOf (newApplication : obj) : obj :=
  with_prop "id" (newApplication !! "id")
    (with_prop "destination" (newApplication !! "destination")
       (with_prop "visaType" (newApplication !! "visaType")
          (with_prop "status" (newApplication !! "status")
             (with_prop "createdAt" (newApplication !! "createdAt") ∅)))).

(** The object literal of [addApplication]: the generated id, the owner,
    the default status and the two time stamps, then the caller's fields
    spread over them. *)
Definition newApplication (entropy now1 now2 : string)
    (userId : string) (applicationData : obj) : obj :=
  applicationData ∪
    {[ "id" := VStr (generateId "app_" entropy);
       "userId" := VStr userId;
       "status" := VStr "pending";
       "createdAt" := VStr now1;
       "updatedAt" := VStr now2 ]}.

Definition addApplication (entropy now1 now2 : string)
    (userId : string) (applicationData : obj) : M result :=
  user ← findUserById userId;
  if negb (truthy_opt user)
  then mret (Failure "User not found")
  else
    let app := newApplication entropy now1 now2 userId applicationData in
    applications ← getApplications;
    la ← lift (as_array applications);
    _ ← set APPLICATIONS_KEY (VArr (la ++ [VObj app]));
    users ← getUsers;
    lu ← lift (as_array users);
    userIndex ← lift (arr_findIndex (id_is userId) lu);
    _ ← match userIndex with
        | Some i =>
            u ← lift (obj_at lu i);
            ls ← lift (as_array (or_else (u !! "applications") (VArr [])));
            let u' : obj :=
              <["applications" := VArr (ls ++ [VObj (summaryOf app)])]> u in
            _ ← saveUsers (VArr (<[i := VObj u']> lu));
            setCurrentUser (VObj (sessionUser u'))
        | None => mret tt
        end;
    mret (SuccessApplication app).

(** [app => !(app.id === applicationId && app.userId === userId)] *)
Definition not_this (userId applicationId : string) (app : value) : res bool :=
  i ← prop app "id";
  if is_str i applicationId
  then o ← prop app "userId"; mret (negb (is_str o userId))
  else mret true.

(** [app => app.id !== applicationId] *)
Definition id_is_not (applicationId : string) (app : value) : res bool :=
  i ← prop app "id"; mret (negb (is_str i applicationId)).

Definition deleteApplication (userId applicationId : string) : M result :=
  applications ← getApplications;
  la ← lift (as_array applications);
  la' ← lift (arr_filter (not_this userId applicationId) la);
  if Nat.eqb (List.length la') (List.length la)
  then mret (Failure "Application not found")
  else
    _ ← set APPLICATIONS_KEY (VArr la');
    users ← getUsers;
    lu ← lift (as_array users);
    userIndex ← lift (arr_findIndex (id_is userId) lu);
    _ ← match userIndex with
        | Some i =>
            u ← lift (obj_at lu i);
            ls ← lift (match u !! "applications" with
                       | Some v => as_array v
                       | None => Throw
                       end);
            ls' ← lift (arr_filter (id_is_not applicationId) ls);
            let u' : obj := <["applications" := VArr ls']> u in
            _ ← saveUsers (VArr (<[i := VObj u']> lu));
            setCurrentUser (VObj (sessionUser u'))
        | None => mret tt
        end;
    mret (SuccessMessage "Application deleted successfully").

Definition updateApplicationStatus (now1 now2 : string)
    (applicationId status adminNotes : string) : M result :=
  applications ← getApplications;
  la ← lift (as_array applications);
  appIndex ← lift (arr_findIndex (id_is applicationId) la);
  match appIndex with
  | None => mret (Failure "Application not found")
  | Some i =>
      a ← lift (obj_at la i);
      let a1 : obj :=
        <["updatedAt" := VStr now1]>
          (<["adminNotes" := VStr adminNotes]> (<["status" := VStr status]> a)) in
      let a2 : obj :=
        if String.eqb status "approved"
        then <["approvedAt" := VStr now2]> a1 else a1 in
      _ ← set APPLICATIONS_KEY (VArr (<[i := VObj a2]> la));
      mret (SuccessApplication a2)
  end.

(** One property of the stored session snapshot. *)
Definition sessionField (k : string) (st : store) : option value :=
  match st !! CURRENT_USER_KEY with
  | Some (VObj o) => o !! k
  | _ => None
  end.

(** One property of every stored user, in order. *)
Definition userFields (k : string) (st : store) : list (option value) :=
  match st !! USERS_KEY with
  | Some (VArr l) =>
      (fun u => match u with VObj o => o !! k | _ => None end) <$> l
  | _ => []
  end.

(** The embedded summary of a user record as the dashboard reads it:
    [currentUser.applications || []], an array or nothing. *)
Definition embeddedApplications (user : value) : list value :=
  match prop user "applications" with
  | Ok (Some (VArr l)) => l
  | _ => []
  end.


(** *** The remaining operations of storage.js *)

Definition updateUserPassword (userId newPassword : string) : M result :=
  users ← getUsers;
  l ← lift (as_array users);
  userIndex ← lift (arr_findIndex (id_is userId) l);
  match userIndex with
  | None => mret (Failure "User not found")
  | Some i =>
      u ← lift (obj_at l i);
      _ ← saveUsers (VArr (<[i := VObj (<["password" := VStr newPassword]> u)]> l));
      mret (SuccessMessage "Password updated successfully")
  end.

(** [app => app.id === applicationId && app.userId === userId] *)
Definition is_this (userId applicationId : string) (app : value) : res bool :=
  i ← prop app "id";
  if is_str i applicationId
  then o ← prop app "userId"; mret (is_str o userId)
  else mret false.

Definition updateApplication (now : string)
    (userId applicationId : string) (applicationData : obj) : M result :=
  applications ← getApplications;
  la ← lift (as_array applications);
  appIndex ← lift (arr_findIndex (is_this userId applicationId) la);
  match appIndex with
  | None => mret (Failure "Application not found")
  | Some i =>
      a ← lift (obj_at la i);
      let a' : obj := <["updatedAt" := VStr now]> (applicationData ∪ a) in
      _ ← set APPLICATIONS_KEY (VArr (<[i := VObj a']> la));
      mret (SuccessApplication a')
  end.

(** [a => a.status === status] *)
Definition status_is (status : string) (a : value) : res bool :=
  s ← prop a "status"; mret (is_str s status).

Record stats : Type := Stats {
  total : nat;
  pending : nat;
  approved : nat;
  rejected : nat;
  draft : nat
}.

Definition getUserApplicationStats (userId : string) : M stats :=
  applications ← getUserApplications userId;
  p ← lift (arr_filter (status_is "pending") applications);
  a ← lift (arr_filter (status_is "approved") applications);
  r ← lift (arr_filter (status_is "rejected") applications);
  d ← lift (arr_filter (status_is "draft") applications);
  mret (Stats (List.length applications) (List.length p) (List.length a)
              (List.length r) (List.length d)).

(** [exportUserData]: [None] is [null]. The user is looked up and the
    applications are filtered before the user is tested. *)
Definition exportUserData (now : string) (userId : string) : M (option obj) :=
  user ← findUserById userId;
  applications ← getUserApplications userId;
  match user with
  | None => mret None
  | Some u =>
      i ← lift (prop u "id");
      n ← lift (prop u "name");
      e ← lift (prop u "email");
      c ← lift (prop u "createdAt");
      p ← lift (prop u "profile");
      let exported : obj :=
        with_prop "id" i (with_prop "name" n (with_prop "email" e
          (with_prop "createdAt" c (with_prop "profile" p ∅)))) in
      mret (Some {[ "exportDate" := VStr now;
                    "user" := VObj exported;
                    "applications" := VArr applications ]})
  end.

(** [data.applications && Array.isArray(data.applications)] *)
Definition arrayOf (v : option value) : option (list value) :=
  match v with
  | Some (VArr l) => Some l
  | _ => None
  end.

Definition importUserData (data : obj) : M result :=
  match data !! "user" with
  | None => mret (Failure "Invalid data format")
  | Some user =>
      if negb (truthy user)
      then mret (Failure "Invalid data format")
      else
        email ← lift (prop user "email");
        if negb (truthy_opt email)
        then mret (Failure "Invalid data format")
        else
          existingUser ← findUserByEmail email;
          if truthy_opt existingUser
          then mret (Failure "User already exists. Please login to import data.")
          else
            users ← getUsers;
            l ← lift (as_array users);
            _ ← saveUsers (VArr (l ++ [user]));
            _ ← match arrayOf (data !! "applications") with
                | Some imported =>
                    applications ← getApplications;
                    la ← lift (as_array applications);
                    _ ← set APPLICATIONS_KEY (VArr (la ++ imported));
                    mret tt
                | None => mret tt
                end;
            mret (SuccessMessage "Data imported successfully")
  end.

(** The calls of the module that answer with a result object. *)
Inductive call : Type :=
| CallRegister (entropy now : string) (userData : obj)
| CallLogin (email password : string)
| CallLogout
| CallUpdateProfile (userId : string) (profileData : obj)
| CallUpdatePassword (userId newPassword : string)
| CallAdd (entropy now1 now2 userId : string) (applicationData : obj)
| CallUpdate (now userId applicationId : string) (applicationData : obj)
| CallDelete (userId applicationId : string)
| CallSetStatus (now1 now2 applicationId status adminNotes : string)
| CallImport (data : obj).

Definition run (c : call) : M result :=
  match c with
  | CallRegister entropy now userData => registerUser entropy now userData
  | CallLogin email password => loginUser email password
  | CallLogout => logoutUser
  | CallUpdateProfile userId profileData => updateUserProfile userId profileData
  | CallUpdatePassword userId newPassword => updateUserPassword userId newPassword
  | CallAdd entropy now1 now2 userId applicationData =>
      addApplication entropy now1 now2 userId applicationData
  | CallUpdate now userId applicationId applicationData =>
      updateApplication now userId applicationId applicationData
  | CallDelete userId applicationId => deleteApplication userId applicationId
  | CallSetStatus now1 now2 applicationId status adminNotes =>
      updateApplicationStatus now1 now2 applicationId status adminNotes
  | CallImport data => importUserData data
  end.

End Storage.

(** ** The second storage module (unnamed source part, [const Storage]
    with the [visa_guide_] keys) *)

Module GuideStorage.
Import JS.

Definition KEY_USERS : string := "visa_guide_users".
Definition KEY_CURRENT_USER : string := "visa_guide_current_user".
Definition KEY_USER_DATA : string := "visa_guide_user_data_".
Definition KEY_DOCUMENTS : string := "visa_guide_documents_".
Definition KEY_FORMS : string := "visa_guide_forms_".
Definition KEY_CHAT_HISTORY : string := "visa_guide_chat_history_".
Definition KEY_CIVICS_PROGRESS : string := "visa_guide_civics_progress_".

(** [item ? JSON.parse(item) : dflt] *)
Definition parsed_or (dflt : value) (item : option value) : value :=
  match item with
  | Some v => v
  | None => dflt
  end.

Definition getUsers : M value :=
  users ← getItem KEY_USERS; mret (parsed_or (VArr []) users).

Definition saveUsers (users : value) : M unit := setItem KEY_USERS users.

(** [u => u.email.toLowerCase() === email.toLowerCase()] *)
Definition email_is (email : string) (u : value) : res bool :=
  e ← prop u "email";
  a ← str_method toLowerCase e;
  mret (String.eqb a (toLowerCase email)).

(** [users.find(...)]; [None] is [undefined]. *)
Definition findUserByEmail (email : string) : M (option value) :=
  users ← getUsers;
  l ← lift (as_array users);
  lift (arr_find (email_is email) l).

(** The loop of [hashPassword]: [hash = ((hash << 5) - hash) + char;
    hash = hash & hash]. *)
Fixpoint hash_loop (hash : Z) (password : string) : Z :=
  match password with
  | EmptyString => hash
  | String c rest =>
      let h := shl32 hash 5 - hash + charCode c in
      hash_loop (and32 h h) rest
  end.

Definition hashPassword (password : string) : string :=
  "hash_" +:+ toString16 (Z.abs (hash_loop 0 password)).

(** [this.hashPassword(password) === hash] *)
Definition verifyPassword (password : string) (hash : option value) : bool :=
  is_str hash (hashPassword password).

Definition setCurrentUser (user : value) : M unit := setItem KEY_CURRENT_USER user.

Definition getCurrentUser : M value :=
  user ← getItem KEY_CURRENT_USER; mret (parsed_or VNull user).

Definition logoutUser : M unit := removeItem KEY_CURRENT_USER.

Definition initializeUserData (now1 now2 : string) (userId : string) : M unit :=
  _ ← setItem (KEY_USER_DATA +:+ userId)
        (VObj {[ "profile" := VObj ∅;
                 "settings" := VObj {[ "theme" := VStr "light";
                                       "language" := VStr "en";
                                       "notifications" := VBool true;
                                       "speechEnabled" := VBool true ]};
                 "progress" := VObj {[ "overallPercentage" := VNum 0;
                                       "currentStep" := VNum 0;
                                       "completedSteps" := VArr [] ]};
                 "createdAt" := VStr now1;
                 "lastUpdated" := VStr now2 ]});
  _ ← setItem (KEY_DOCUMENTS +:+ userId) (VArr []);
  _ ← setItem (KEY_FORMS +:+ userId) (VObj ∅);
  _ ← setItem (KEY_CHAT_HISTORY +:+ userId) (VArr []);
  setItem (KEY_CIVICS_PROGRESS +:+ userId)
    (VObj {[ "questionsAnswered" := VNum 0;
             "correctAnswers" := VNum 0;
             "missedQuestions" := VArr [];
             "completedFlashcards" := VArr [];
             "practiceSessions" := VNum 0 ]}).

(** [{ id: user.id, email: user.email, fullName: user.fullName }] *)
Definition publicUser (id email fullName : option value) : obj :=
  with_prop "id" id (with_prop "email" email (with_prop "fullName" fullName ∅)).

(** [generateId()] is the base-36 clock reading followed by random
    base-36 digits: the one string [entropy]. *)
Definition registerUser (entropy now now1 now2 : string)
    (email password fullName : string) : M result :=
  existing ← findUserByEmail email;
  if truthy_opt existing
  then mret (Failure "An account with this email already exists")
  else
    let newUser : obj :=
      {[ "id" := VStr entropy;
         "email" := VStr (trim (toLowerCase email));
         "password" := VStr (hashPassword password);
         "fullName" := VStr (trim fullName);
         "createdAt" := VStr now ]} in
    users ← getUsers;
    l ← lift (as_array users);
    _ ← saveUsers (VArr (l ++ [VObj newUser]));
    _ ← initializeUserData now1 now2 entropy;
    mret (SuccessUser (publicUser (newUser !! "id") (newUser !! "email")
                                  (newUser !! "fullName"))).

Definition loginUser (email password : string) : M result :=
  user ← findUserByEmail email;
  match user with
  | None => mret (Failure "No account found with this email")
  | Some u =>
      if negb (truthy u)
      then mret (Failure "No account found with this email")
      else
        pw ← lift (prop u "password");
        if negb (verifyPassword password pw)
        then mret (Failure "Incorrect password")
        else
          i ← lift (prop u "id");
          e ← lift (prop u "email");
          n ← lift (prop u "fullName");
          _ ← setCurrentUser (VObj (publicUser i e n));
          mret (SuccessUser (publicUser i e n))
  end.

Definition getChatHistory (userId : string) : M value :=
  history ← getItem (KEY_CHAT_HISTORY +:+ userId);
  mret (parsed_or (VArr []) history).

(** The entry [addChatMessage] pushes. *)
Definition chatEntry (now : string) (message : obj) : obj :=
  with_prop "role" (message !! "role")
    (with_prop "content" (message !! "content") {[ "timestamp" := VStr now ]}).

(** [history.splice(0, history.length - 100)] when the length exceeds 100 *)
Definition keepLast100 (history : list value) : list value :=
  if Nat.ltb 100 (List.length history)
  then drop (List.length history - 100)%nat history
  else history.

Definition addChatMessage (now : string) (userId : string) (message : obj) : M unit :=
  history ← getChatHistory userId;
  l ← lift (as_array history);
  setItem (KEY_CHAT_HISTORY +:+ userId) (VArr (keepLast100 (l ++ [VObj (chatEntry now message)]))).

Definition clearChatHistory (userId : string) : M unit :=
  setItem (KEY_CHAT_HISTORY +:+ userId) (VArr []).


(** *** The remaining per-user stores of the second module *)

(** [u => u.id === userId] *)
Definition id_is (userId : string) (u : value) : res bool :=
  i ← prop u "id"; mret (is_str i userId).

(** [users.find(u => u.id === userId)]; [None] is [undefined]. *)
Definition findUserById (userId : string) : M (option value) :=
  users ← getUsers;
  l ← lift (as_array users);
  lift (arr_find (id_is userId) l).

(** [this.getCurrentUser() !== null] *)
Definition isLoggedIn : M bool :=
  user ← getCurrentUser;
  mret (match user with VNull => false | _ => true end).

Definition getUserData (userId : string) : M value :=
  data ← getItem (KEY_USER_DATA +:+ userId); mret (parsed_or VNull data).

Definition updateUserData (now : string) (userId : string) (updates : obj) : M obj :=
  stored ← getUserData userId;
  let currentData : value := or_else (Some stored) (VObj ∅) in
  let updatedData : obj :=
    <["lastUpdated" := VStr now]> (updates ∪ spread (Some currentData)) in
  _ ← setItem (KEY_USER_DATA +:+ userId) (VObj updatedData);
  mret updatedData.

Definition getDocuments (userId : string) : M value :=
  documents ← getItem (KEY_DOCUMENTS +:+ userId);
  mret (parsed_or (VArr []) documents).

(** The object literal of [addDocument]. *)
Definition newDocument (entropy now : string) (document : obj) : obj :=
  with_prop "name" (document !! "name")
    (with_prop "type" (document !! "type")
       (with_prop "size" (document !! "size")
          {[ "id" := VStr entropy;
             "uploadDate" := VStr now;
             "category" := or_else (document !! "category") (VStr "other") ]})).

Definition addDocument (entropy now : string) (userId : string) (document : obj) : M obj :=
  documents ← getDocuments userId;
  l ← lift (as_array documents);
  let d := newDocument entropy now document in
  _ ← setItem (KEY_DOCUMENTS +:+ userId) (VArr (l ++ [VObj d]));
  mret d.

(** [d => d.id !== documentId] *)
Definition id_is_not (documentId : string) (d : value) : res bool :=
  i ← prop d "id"; mret (negb (is_str i documentId)).

Definition deleteDocument (userId documentId : string) : M unit :=
  documents ← getDocuments userId;
  l ← lift (as_array documents);
  l' ← lift (arr_filter (id_is_not documentId) l);
  setItem (KEY_DOCUMENTS +:+ userId) (VArr l').

(** The default [getCivicsProgress] answers when nothing is stored. *)
Definition defaultCivicsProgress : value :=
  VObj {[ "questionsAnswered" := VNum 0;
          "correctAnswers" := VNum 0;
          "missedQuestions" := VArr [];
          "completedFlashcards" := VArr [];
          "practiceSessions" := VNum 0 ]}.

Definition getCivicsProgress (userId : string) : M value :=
  progress ← getItem (KEY_CIVICS_PROGRESS +:+ userId);
  mret (parsed_or defaultCivicsProgress progress).

Definition updateCivicsProgress (userId : string) (updates : obj) : M obj :=
  progress ← getCivicsProgress userId;
  let updatedProgress : obj := updates ∪ spread (Some progress) in
  _ ← setItem (KEY_CIVICS_PROGRESS +:+ userId) (VObj updatedProgress);
  mret updatedProgress.

(** [Object.keys(localStorage)] followed by [removeItem] on every key
    that starts with the prefix. *)
Definition removeKeysWithPrefix (prefix : string) (st : store) : store :=
  foldr (fun key acc => if String.prefix prefix key then delete key acc else acc)
        st (map_to_list st).*1.

Definition clearAllData : M unit :=
  user ← getCurrentUser;
  if truthy user
  then removeItem KEY_CURRENT_USER
  else fun st => (Ok tt, removeKeysWithPrefix "visa_guide_" st).

(** [findUserByEmail] called with a value read from the session rather
    than a string: the same callback, whose [email.toLowerCase()] throws
    for anything but a string. *)
Definition findUserByEmailOf (email : option value) : M (option value) :=
  users ← getUsers;
  l ← lift (as_array users);
  lift (arr_find (fun u =>
                    e ← prop u "email";
                    a ← str_method toLowerCase e;
                    b ← str_method toLowerCase email;
                    mret (String.eqb a b)) l).

(** The writers of the per-user stores. *)
Inductive write : Type :=
| WriteChat (now userId : string) (message : obj)
| WriteClearChat (userId : string)
| WriteDocument (entropy now userId : string) (document : obj)
| WriteDeleteDocument (userId documentId : string)
| WriteUserData (now userId : string) (updates : obj)
| WriteCivics (userId : string) (updates : obj)
| WriteInitialize (now1 now2 userId : string).

Definition owner (w : write) : string :=
  match w with
  | WriteChat _ userId _ => userId
  | WriteClearChat userId => userId
  | WriteDocument _ _ userId _ => userId
  | WriteDeleteDocument userId _ => userId
  | WriteUserData _ userId _ => userId
  | WriteCivics userId _ => userId
  | WriteInitialize _ _ userId => userId
  end.

Definition perform (w : write) : M unit :=
  match w with
  | WriteChat now userId message => addChatMessage now userId message
  | WriteClearChat userId => clearChatHistory userId
  | WriteDocument entropy now userId document =>
      _ ← addDocument entropy now userId document; mret tt
  | WriteDeleteDocument userId documentId => deleteDocument userId documentId
  | WriteUserData now userId updates =>
      _ ← updateUserData now userId updates; mret tt
  | WriteCivics userId updates =>
      _ ← updateCivicsProgress userId updates; mret tt
  | WriteInitialize now1 now2 userId => initializeUserData now1 now2 userId
  end.

(** The key prefixes of the per-user stores. *)
Definition perUserPrefixes : list string :=
  [KEY_USER_DATA; KEY_DOCUMENTS; KEY_FORMS; KEY_CHAT_HISTORY; KEY_CIVICS_PROGRESS].

End GuideStorage.

(** ** Concrete runs used in the examples below *)

Module Scenario.
Import JS Storage.

Definition ann : obj :=
  {[ "email" := VStr "a@x.com"; "password" := VStr "secret1"; "name" := VStr "Ann" ]}.

Definition bob : obj :=
  {[ "email" := VStr "b@x.com"; "password" := VStr "hunter22"; "name" := VStr "Bob" ]}.

(** Ann registers with a leading blank in the email field. *)
Definition padded : obj :=
  {[ "email" := VStr " a@x.com"; "password" := VStr "secret1"; "name" := VStr "Ann" ]}.

(** Ann (usr_1) is registered. *)
Definition one_user : store := exec (registerUser "1" "t0" ann) ∅.

Definition ann_record : obj := newUser "1" "t0" "Ann" "a@x.com" ann.

(** Ann and then Bob (usr_2) are registered, and Bob has logged in. *)
Definition two_users : store :=
  exec (loginUser "b@x.com" "hunter22") (exec (registerUser "2" "t1" bob) one_user).

(** Both users hold one application each, added with fields that carry
    the same id. *)
Definition shared_id : store :=
  exec (addApplication "8" "t4" "t5" "usr_2" {[ "id" := VStr "shared" ]})
    (exec (addApplication "7" "t2" "t3" "usr_1" {[ "id" := VStr "shared" ]}) two_users).

Definition bobs_application : obj :=
  newApplication "8" "t4" "t5" "usr_2" {[ "id" := VStr "shared" ]}.

(** One application of Ann, pending. *)
Definition one_application : store :=
  exec (addApplication "7" "t2" "t3" "usr_1" {[ "destination" := VStr "France" ]}) one_user.

Definition anns_application : obj :=
  newApplication "7" "t2" "t3" "usr_1" {[ "destination" := VStr "France" ]}.

(** Profile data that tries to change the email. *)
Definition new_profile : obj :=
  {[ "email" := VStr "other@x.com"; "fullName" := VStr "Ann B"; "phone" := VStr "555" ]}.

(** A user of the second module and a chat history of two messages. *)
Definition guide_user : store :=
  exec (GuideStorage.registerUser "k1" "t0" "t0" "t0" "a@x.com" "secret1" "Ann") ∅.

Definition guide_record : obj :=
  {[ "id" := VStr "k1";
     "email" := VStr "a@x.com";
     "password" := VStr (GuideStorage.hashPassword "secret1");
     "fullName" := VStr "Ann";
     "createdAt" := VStr "t0" ]}.

Definition guide_public : obj :=
  GuideStorage.publicUser (Some (VStr "k1")) (Some (VStr "a@x.com")) (Some (VStr "Ann")).

Definition hello : obj := {[ "role" := VStr "user"; "content" := VStr "hello" ]}.

Definition two_messages : store :=
  exec (GuideStorage.addChatMessage "t2" "k1" hello)
    (exec (GuideStorage.addChatMessage "t1" "k1" hello) guide_user).

End Scenario.


(** ** The regular expression of the email check *)

Module RegExp.
Import JS.

(** Regular expressions over code units, with character classes given
    by their membership test. *)
Inductive regex : Type :=
| Void
| Eps
| Class (p : ascii → bool)
| Seq (r1 r2 : regex)
| Alt (r1 r2 : regex)
| Star (r : regex).

Definition Plus (r : regex) : regex := Seq r (Star r).

Fixpoint nullable (r : regex) : bool :=
  match r with
  | Void => false
  | Eps => true
  | Class _ => false
  | Seq r1 r2 => nullable r1 && nullable r2
  | Alt r1 r2 => nullable r1 || nullable r2
  | Star _ => true
  end.

(** The derivative of [r] by the code unit [c]. *)
Fixpoint deriv (c : ascii) (r : regex) : regex :=
  match r with
  | Void => Void
  | Eps => Void
  | Class p => if p c then Eps else Void
  | Seq r1 r2 =>
      if nullable r1
      then Alt (Seq (deriv c r1) r2) (deriv c r2)
      else Seq (deriv c r1) r2
  | Alt r1 r2 => Alt (deriv c r1) (deriv c r2)
  | Star r1 => Seq (deriv c r1) (Star r1)
  end.

(** [/^r$/.test(s)]: the whole string is in the language of [r]. *)
Fixpoint test (r : regex) (s : string) : bool :=
  match s with
  | EmptyString => nullable r
  | String c s' => test (deriv c r) s'
  end.

(** [[^\s@]] *)
Definition notSpaceNorAt (c : ascii) : bool :=
  negb (is_space c) && negb (Ascii.eqb c "@").

(** [/^[^\s@]+@[^\s@]+\.[^\s@]+$/] *)
Definition emailRegex : regex :=
  Seq (Plus (Class notSpaceNorAt))
    (Seq (Class (Ascii.eqb "@"))
       (Seq (Plus (Class notSpaceNorAt))
          (Seq (Class (Ascii.eqb "."))
             (Plus (Class notSpaceNorAt))))).

(** The expressions with an empty language, by their shape. *)
Fixpoint dead (r : regex) : bool :=
  match r with
  | Void => true
  | Eps => false
  | Class _ => false
  | Seq r1 r2 => dead r1 || dead r2
  | Alt r1 r2 => dead r1 && dead r2
  | Star _ => false
  end.

(** Every class of [r] lies within the set [q]. *)
Fixpoint within (q : ascii → bool) (r : regex) : Prop :=
  match r with
  | Void => True
  | Eps => True
  | Class p => ∀ c, p c = true → q c = true
  | Seq r1 r2 => within q r1 ∧ within q r2
  | Alt r1 r2 => within q r1 ∧ within q r2
  | Star r1 => within q r1
  end.

End RegExp.

(** ** src/js/auth.js

    The functions are [async]: what is modelled is the value the returned
    promise resolves to, and [Throw] is its rejection. The page
    navigation of [logout] is outside the store. *)

Module Auth.
Import JS RegExp.

Definition isLoggedIn : M bool := GuideStorage.isLoggedIn.

Definition getCurrentUser : M value := GuideStorage.getCurrentUser.

Definition login (email password : string) : M result :=
  if String.eqb email "" || String.eqb password ""
  then mret (Failure "Please enter both email and password")
  else if negb (test emailRegex email)
  then mret (Failure "Please enter a valid email address")
  else GuideStorage.loginUser email password.

(** [result.success] *)
Definition success (r : result) : bool :=
  match r with
  | Failure _ => false
  | _ => true
  end.

Definition register (entropy now now1 now2 : string)
    (email password confirmPassword fullName : string) : M result :=
  if String.eqb email "" || String.eqb password ""
     || String.eqb confirmPassword "" || String.eqb fullName ""
  then mret (Failure "Please fill in all required fields")
  else if negb (test emailRegex email)
  then mret (Failure "Please enter a valid email address")
  else if Nat.ltb (String.length password) 6
  then mret (Failure "Password must be at least 6 characters")
  else if negb (String.eqb password confirmPassword)
  then mret (Failure "Passwords do not match")
  else
    result ← GuideStorage.registerUser entropy now now1 now2 email password fullName;
    if success result then login email password else mret result.

Definition logout : M unit := GuideStorage.logoutUser.

(** [u => u.id === user.id], both sides parsed from storage. *)
Definition same_id (id : option value) (u : value) : res bool :=
  i ← prop u "id"; mret (strict_eq i id).

(** [u => u.id !== user.id] *)
Definition other_id (id : option value) (u : value) : res bool :=
  i ← prop u "id"; mret (negb (strict_eq i id)).

Definition changePassword (currentPassword newPassword confirmPassword : string)
    : M result :=
  user ← getCurrentUser;
  if negb (truthy user)
  then mret (Failure "Not logged in")
  else if negb (String.eqb newPassword confirmPassword)
  then mret (Failure "New passwords do not match")
  else if Nat.ltb (String.length newPassword) 6
  then mret (Failure "Password must be at least 6 characters")
  else
    email ← lift (prop user "email");
    userData ← GuideStorage.findUserByEmailOf email;
    stored ← lift (match userData with
                   | Some u => prop u "password"
                   | None => Throw
                   end);
    if negb (GuideStorage.verifyPassword currentPassword stored)
    then mret (Failure "Current password is incorrect")
    else
      users ← GuideStorage.getUsers;
      l ← lift (as_array users);
      id ← lift (prop user "id");
      userIndex ← lift (arr_findIndex (same_id id) l);
      match userIndex with
      | Some i =>
          _ ← GuideStorage.saveUsers
                (VArr (alter (assign "password"
                                (VStr (GuideStorage.hashPassword newPassword))) i l));
          mret (SuccessMessage "Password updated successfully")
      | None => mret (Failure "User not found")
      end.

Definition deleteAccount (password : string) : M result :=
  user ← getCurrentUser;
  if negb (truthy user)
  then mret (Failure "Not logged in")
  else
    email ← lift (prop user "email");
    userData ← GuideStorage.findUserByEmailOf email;
    stored ← lift (match userData with
                   | Some u => prop u "password"
                   | None => Throw
                   end);
    if negb (GuideStorage.verifyPassword password stored)
    then mret (Failure "Password is incorrect")
    else
      users ← GuideStorage.getUsers;
      l ← lift (as_array users);
      id ← lift (prop user "id");
      filteredUsers ← lift (arr_filter (other_id id) l);
      _ ← GuideStorage.saveUsers (VArr filteredUsers);
      _ ← GuideStorage.clearAllData;
      mret (SuccessMessage "Account deleted successfully").

(** No two records of a user list carry the same email, letter case
    aside: what the lookup by email relies on. *)
Definition emails_distinct (l : list value) : Prop :=
  ∀ (i j : nat) (u v : obj) (a b : string),
    (i < j)%nat →
    l !! i = Some (VObj u) → l !! j = Some (VObj v) →
    u !! "email" = Some (VStr a) → v !! "email" = Some (VStr b) →
    toLowerCase a ≠ toLowerCase b.

End Auth.

(** ** Further concrete runs *)

Module Runs.
Import JS.

(** Ann's stored record once she holds one application. *)
Definition ann_with_application : obj :=
  match eval (Storage.findUserById "usr_1") Scenario.one_application with
  | Ok (Some (VObj u)) => u
  | _ => ∅
  end.

Definition spain : obj := {[ "destination" := VStr "Spain" ]}.

(** What [updateApplication] answers when Ann changes the destination. *)
Definition updated_application : obj :=
  match eval (Storage.updateApplication "t9" "usr_1" "app_7" spain)
          Scenario.one_application with
  | Ok (SuccessApplication a) => a
  | _ => ∅
  end.

(** Ann's export. *)
Definition ann_export : obj :=
  match eval (Storage.exportUserData "t8" "usr_1") Scenario.one_application with
  | Ok (Some data) => data
  | _ => ∅
  end.

(** An export file of a user the store does not know. *)
Definition cy : obj :=
  {[ "id" := VStr "usr_9"; "email" := VStr "c@x.com"; "name" := VStr "Cy" ]}.

Definition cy_export : obj :=
  {[ "user" := VObj cy; "applications" := VArr [] ]}.

(** The second module: Ann is registered and logged in. *)
Definition guide_session : store :=
  exec (GuideStorage.loginUser "a@x.com" "secret1") Scenario.guide_user.

Definition passport : obj :=
  {[ "name" := VStr "passport.pdf"; "type" := VStr "application/pdf";
     "size" := VNum 1024 ]}.

Definition one_document : store :=
  exec (GuideStorage.addDocument "d1" "t1" "k1" passport) Scenario.guide_user.


Definition bob_public : obj :=
  GuideStorage.publicUser (Some (VStr "k2")) (Some (VStr "b@x.com"))
    (Some (VStr "Bob")).

End Runs.

(** ** Proof automation *)

(** Running an operation: unfold the monad and the accessors, nothing
    else. *)
Ltac run_M :=
  cbv beta iota zeta delta
    [eval exec fst snd mbind mret M_bind M_ret res_bind res_ret lift
     getItem setItem removeItem
     Storage.get Storage.set Storage.remove Storage.getCurrentUser
     Storage.setCurrentUser Storage.clearCurrentUser Storage.getUsers
     Storage.saveUsers Storage.getApplications Storage.findUserByEmail
     Storage.findUserById Storage.getApplicationById
     Storage.getUserApplications].

Ltac run_M_in H :=
  cbv beta iota zeta delta
    [eval exec fst snd mbind mret M_bind M_ret res_bind res_ret lift
     getItem setItem removeItem
     Storage.get Storage.set Storage.remove Storage.getCurrentUser
     Storage.setCurrentUser Storage.clearCurrentUser Storage.getUsers
     Storage.saveUsers Storage.getApplications Storage.findUserByEmail
     Storage.findUserById Storage.getApplicationById
     Storage.getUserApplications] in H.

(** The same with [logoutUser] unfolded too. *)
Ltac run_S :=
  cbv beta iota zeta delta
    [eval exec fst snd mbind mret M_bind M_ret res_bind res_ret lift
     getItem setItem removeItem
     Storage.get Storage.set Storage.remove Storage.getCurrentUser
     Storage.setCurrentUser Storage.clearCurrentUser Storage.getUsers
     Storage.saveUsers Storage.getApplications Storage.findUserByEmail
     Storage.findUserById Storage.getApplicationById
     Storage.getUserApplications Storage.logoutUser].

(** Case analysis on the next scrutinee of the running operation. *)
Ltac case_step :=
  match goal with
  | |- context [match ?x with _ => _ end] =>
      lazymatch x with
      | context [match _ with _ => _ end] => fail
      | _ => destruct x eqn:?; cbn -[JS.or_else]
      end
  end.

Ltac failure_leaf :=
  match goal with
  | |- (_, ?s) = (Ok (Failure _), ?s') → _ =>
      let H := fresh in intros H; first [discriminate H | by injection H as _ <-]
  end.

(** * The primitives on small inputs *)

Section Examples.
Import JS.

Example trim_blanks : trim "  a b  " = "a b".
Proof. reflexivity. Qed.

Example toLowerCase_email : toLowerCase "Ann@X.Com" = "ann@x.com".
Proof. reflexivity. Qed.

Example to_int32_wraps : to_int32 (2 ^ 31) = - 2 ^ 31.
Proof. reflexivity. Qed.

Example toString16_255 : toString16 255 = "ff".
Proof. reflexivity. Qed.

Example spread_string : spread (Some (VStr "ab")) !! "1" = Some (VStr "b").
Proof. vm_compute; reflexivity. Qed.

Example hashPassword_a : GuideStorage.hashPassword "a" = "hash_61".
Proof. reflexivity. Qed.

Example hashPassword_secret1 : GuideStorage.hashPassword "secret1" = "hash_756e8781".
Proof. vm_compute; reflexivity. Qed.

Example keepLast100_short : GuideStorage.keepLast100 [VNull; VNull] = [VNull; VNull].
Proof. reflexivity. Qed.

Example register_then_login :
  succeeded (eval (Storage.loginUser "A@X.com" "secret1") Scenario.one_user) = true.
Proof. vm_compute; reflexivity. Qed.

End Examples.

(** * Facts about the primitives *)

Section ArrayFacts.
Import JS.
Variable cb : value → res bool.

Lemma arr_find_findIndex (l : list value) (x : value) :
  arr_find cb l = Ok (Some x) →
  ∃ i, arr_findIndex cb l = Ok (Some i) ∧ l !! i = Some x ∧ cb x = Ok true.
Proof.
  induction l as [|y l IH]; simpl; [discriminate|].
  destruct (cb y) as [[|]|] eqn:E; simpl; try discriminate.
  - intros [= ->]. exists O. auto.
  - intros H. destruct (IH H) as (i & Hi & Hl & Hx).
    exists (S i). rewrite Hi. auto.
Qed.

Lemma arr_find_none_findIndex (l : list value) :
  arr_find cb l = Ok None → arr_findIndex cb l = Ok None.
Proof.
  induction l as [|y l IH]; simpl; [done|].
  destruct (cb y) as [[|]|]; simpl; try discriminate.
  intros H. by rewrite (IH H).
Qed.

Lemma arr_findIndex_find (l : list value) (i : nat) :
  arr_findIndex cb l = Ok (Some i) →
  ∃ x, l !! i = Some x ∧ cb x = Ok true ∧ arr_find cb l = Ok (Some x).
Proof.
  revert i. induction l as [|y l IH]; simpl; intros i; [discriminate|].
  destruct (cb y) as [[|]|] eqn:E; simpl; try discriminate.
  - intros [= <-]. exists y. auto.
  - destruct (arr_findIndex cb l) as [[j|]|]; simpl; try discriminate.
    intros [= <-]. destruct (IH j eq_refl) as (x & ? & ? & ?).
    exists x. auto.
Qed.

Lemma arr_findIndex_none_find (l : list value) :
  arr_findIndex cb l = Ok None → arr_find cb l = Ok None.
Proof.
  induction l as [|y l IH]; simpl; [done|].
  destruct (cb y) as [[|]|]; simpl; try discriminate.
  destruct (arr_findIndex cb l) as [[j|]|]; simpl; try discriminate.
  intros _. by apply IH.
Qed.


(** Overwriting the found element with one that passes too keeps it the
    one [find] returns. *)
Lemma arr_find_insert (l : list value) (i : nat) (y : value) :
  arr_findIndex cb l = Ok (Some i) → cb y = Ok true →
  arr_find cb (<[i := y]> l) = Ok (Some y).
Proof.
  revert i. induction l as [|z l IH]; simpl; intros i; [discriminate|].
  destruct (cb z) as [[|]|] eqn:E; simpl; try discriminate.
  - intros [= <-] Hy. simpl. by rewrite Hy.
  - destruct (arr_findIndex cb l) as [[k|]|] eqn:F; simpl; try discriminate.
    intros [= <-] Hy. simpl. rewrite E. simpl. by apply IH.
Qed.

Lemma arr_filter_app (l : list value) (x : value) (r : list value) (b : bool) :
  arr_filter cb l = Ok r → cb x = Ok b →
  arr_filter cb (l ++ [x]) = Ok (r ++ if b then [x] else []).
Proof.
  revert r. induction l as [|z l IH]; simpl; intros r.
  - intros [= <-] ->. simpl. by destruct b.
  - destruct (cb z) as [c|]; simpl; [|discriminate].
    destruct (arr_filter cb l) as [r'|]; simpl; [|discriminate].
    intros [= <-] Hx. rewrite (IH r' eq_refl Hx). simpl. by destruct c.
Qed.

Lemma arr_filter_elem (l r : list value) (x : value) :
  arr_filter cb l = Ok r → x ∈ r → x ∈ l ∧ cb x = Ok true.
Proof.
  revert r. induction l as [|z l IH]; simpl; intros r.
  - intros [= <-] H. by apply not_elem_of_nil in H.
  - destruct (cb z) as [c|] eqn:E; simpl; [|discriminate].
    destruct (arr_filter cb l) as [r'|]; simpl; [|discriminate].
    intros [= <-] Hx. destruct c.
    + apply elem_of_cons in Hx as [->|Hx].
      * split; [left|done].
      * destruct (IH r' eq_refl Hx). split; [by right|done].
    + destruct (IH r' eq_refl Hx). split; [by right|done].
Qed.

Lemma arr_filter_length (l r : list value) :
  arr_filter cb l = Ok r → (List.length r ≤ List.length l)%nat.
Proof.
  revert r. induction l as [|z l IH]; simpl; intros r.
  - by intros [= <-].
  - destruct (cb z) as [c|]; simpl; [|discriminate].
    destruct (arr_filter cb l) as [r'|]; simpl; [|discriminate].
    intros [= <-]. specialize (IH r' eq_refl). destruct c; simpl; lia.
Qed.

End ArrayFacts.

Section ObjectFacts.
Import JS Storage.

Lemma id_is_true (id : string) (x : value) :
  id_is id x = Ok true → ∃ o, x = VObj o ∧ o !! "id" = Some (VStr id).
Proof.
  destruct x; simpl; try discriminate.
  unfold id_is. simpl. destruct (o !! "id") as [[]|] eqn:E; simpl; try discriminate.
  intros [= H]. apply String.eqb_eq in H. subst. eauto.
Qed.

Lemma id_is_obj (id : string) (o : obj) :
  o !! "id" = Some (VStr id) → id_is id (VObj o) = Ok true.
Proof. intros H. unfold id_is. simpl. rewrite H. simpl. by rewrite String.eqb_refl. Qed.

Lemma truthy_opt_obj (o : obj) : truthy_opt (Some (VObj o)) = true.
Proof. done. Qed.

Lemma sessionUser_no_password (u : obj) : sessionUser u !! "password" = None.
Proof. apply lookup_delete_eq. Qed.

End ObjectFacts.

(** * Reading the store *)

Section Reads.
Import JS Storage.

Lemma getUsers_run (st : store) :
  getUsers st = (Ok (or_else (Some (default VNull (st !! USERS_KEY))) (VArr [])), st).
Proof. done. Qed.

Lemma getApplications_run (st : store) :
  getApplications st
  = (Ok (or_else (Some (default VNull (st !! APPLICATIONS_KEY))) (VArr [])), st).
Proof. done. Qed.

Lemma getApplications_eval (st : store) (la : list value) :
  eval getApplications st = Ok (VArr la) →
  or_else (Some (default VNull (st !! APPLICATIONS_KEY))) (VArr []) = VArr la.
Proof. intros H. injection H as H. exact H. Qed.

Lemma getUsers_eval (st : store) (lu : list value) :
  eval getUsers st = Ok (VArr lu) →
  or_else (Some (default VNull (st !! USERS_KEY))) (VArr []) = VArr lu.
Proof. intros H. injection H as H. exact H. Qed.

(** What is read back after the collection was written. *)
Lemma or_else_arr (l : list value) : or_else (Some (VArr l)) (VArr []) = VArr l.
Proof. done. Qed.

Lemma keys_distinct :
  USERS_KEY ≠ CURRENT_USER_KEY ∧ USERS_KEY ≠ APPLICATIONS_KEY
  ∧ CURRENT_USER_KEY ≠ APPLICATIONS_KEY.
Proof. repeat split; discriminate. Qed.

End Reads.

(** A call that returned did so in the state [exec] gives. *)
Lemma run_eq {A : Type} (m : M A) (st : store) (r : A) :
  eval m st = Ok r → m st = (Ok r, exec m st).
Proof. unfold eval, exec. destruct (m st) as [x st']. simpl. by intros ->. Qed.

(** * Administrative status update *)

Section SetStatus.
Import JS Storage.

(** C7. For every state that holds an application with the given id,
    [updateApplicationStatus] succeeds on the first such application: it
    sets its status, adminNotes and updatedAt, stamps approvedAt exactly
    when the new status is 'approved' (otherwise approvedAt keeps its former
    value), leaves every other property of it alone, and changes neither
    the users collection, with its embedded summaries, nor the current
    session. *)
Theorem updateApplicationStatus_sets_status
    (now1 now2 applicationId status adminNotes : string) (st : store) (a : value) :
  eval (getApplicationById applicationId) st = Ok (Some a) →
  ∃ (la : list value) (i : nat) (ao ao' : obj),
    eval getApplications st = Ok (VArr la)
    ∧ la !! i = Some (VObj ao) ∧ a = VObj ao
    ∧ updateApplicationStatus now1 now2 applicationId status adminNotes st
      = (Ok (SuccessApplication ao'),
         <[APPLICATIONS_KEY := VArr (<[i := VObj ao']> la)]> st)
    ∧ ao' !! "status" = Some (VStr status)
    ∧ ao' !! "adminNotes" = Some (VStr adminNotes)
    ∧ ao' !! "updatedAt" = Some (VStr now1)
    ∧ ao' !! "approvedAt"
      = (if String.eqb status "approved" then Some (VStr now2) else ao !! "approvedAt")
    ∧ (∀ k, k ∉ ["status"; "adminNotes"; "updatedAt"; "approvedAt"] →
            ao' !! k = ao !! k)
    ∧ exec (updateApplicationStatus now1 now2 applicationId status adminNotes) st
        !! USERS_KEY = st !! USERS_KEY
    ∧ exec (updateApplicationStatus now1 now2 applicationId status adminNotes) st
        !! CURRENT_USER_KEY = st !! CURRENT_USER_KEY.
Proof.
  unfold getApplicationById, updateApplicationStatus.
  run_M.
  destruct (or_else _ _) as [| | | |la|]; simpl; try discriminate.
  destruct (arr_find (id_is applicationId) la) as [[x|]|] eqn:Hf; simpl;
    try discriminate.
  destruct (arr_find_findIndex _ _ _ Hf) as (i & Hi & Hl & Hx).
  destruct (id_is_true _ _ Hx) as (ao & -> & Hid).
  simpl. intros [= <-]. rewrite Hi. simpl. unfold obj_at. rewrite Hl. simpl.
  eexists la, i, ao, _. split; [done|]. split; [done|]. split; [done|].
  split; [reflexivity|].
  assert (Hk : ∀ k1 k2 : string, String.eqb k1 k2 = false → k1 ≠ k2).
  { intros k1 k2 E ->. by rewrite String.eqb_refl in E. }
  destruct (String.eqb status "approved") eqn:Es.
  - repeat split.
    + by rewrite !lookup_insert_ne, lookup_insert_eq by (by apply Hk).
    + by rewrite !lookup_insert_ne, lookup_insert_eq by (by apply Hk).
    + by rewrite !lookup_insert_ne, lookup_insert_eq by (by apply Hk).
    + by rewrite lookup_insert_eq.
    + intros k Hn. rewrite !lookup_insert_ne; [done|..];
        intros <-; apply Hn; set_solver.
    + by rewrite lookup_insert_ne by discriminate.
    + by rewrite lookup_insert_ne by discriminate.
  - repeat split.
    + by rewrite !lookup_insert_ne, lookup_insert_eq by (by apply Hk).
    + by rewrite !lookup_insert_ne, lookup_insert_eq by (by apply Hk).
    + by rewrite lookup_insert_eq.
    + by rewrite !lookup_insert_ne by (by apply Hk).
    + intros k Hn. rewrite !lookup_insert_ne; [done|..];
        intros <-; apply Hn; set_solver.
    + by rewrite lookup_insert_ne by discriminate.
    + by rewrite lookup_insert_ne by discriminate.
Qed.

End SetStatus.

(** * Profile updates *)

Section Profile.
Import JS Storage.

Lemma updateUserProfile_inv (userId : string) (profileData : obj)
    (st st' : store) (r : result) :
  updateUserProfile userId profileData st = (Ok r, st') →
  ∃ l : list value,
    eval getUsers st = Ok (VArr l)
    ∧ ((arr_findIndex (id_is userId) l = Ok None
        ∧ r = Failure "User not found" ∧ st' = st)
       ∨ (∃ (i : nat) (u : obj),
            arr_findIndex (id_is userId) l = Ok (Some i)
            ∧ l !! i = Some (VObj u)
            ∧ u !! "id" = Some (VStr userId)
            ∧ r = SuccessUser (sessionUser (withProfile profileData u))
            ∧ st' = <[CURRENT_USER_KEY := VObj (sessionUser (withProfile profileData u))]>
                      (<[USERS_KEY := VArr (<[i := VObj (withProfile profileData u)]> l)]> st))).
Proof.
  unfold updateUserProfile. run_M.
  destruct (or_else _ _) as [| | | |l|]; simpl; try discriminate.
  destruct (arr_findIndex (id_is userId) l) as [[i|]|] eqn:Hi; try discriminate.
  - destruct (arr_findIndex_find _ _ _ Hi) as (x & Hl & Hx & _).
    destruct (id_is_true _ _ Hx) as (u & -> & Hid).
    unfold obj_at. rewrite Hl. intros [= <- <-].
    exists l. split; [done|]. right. exists i, u. done.
  - intros [= <- <-]. exists l. split; [done|]. by left.
Qed.

Lemma withProfile_id (profileData u : obj) :
  withProfile profileData u !! "id" = u !! "id".
Proof.
  unfold withProfile.
  destruct (truthy_opt (profileData !! "fullName")) eqn:E.
  - destruct (profileData !! "fullName"); [|done]. simpl.
    by rewrite !lookup_insert_ne by discriminate.
  - by rewrite lookup_insert_ne by discriminate.
Qed.

Lemma withProfile_email (profileData u : obj) :
  withProfile profileData u !! "email" = u !! "email".
Proof.
  unfold withProfile.
  destruct (truthy_opt (profileData !! "fullName")) eqn:E.
  - destruct (profileData !! "fullName"); [|done]. simpl.
    by rewrite !lookup_insert_ne by discriminate.
  - by rewrite lookup_insert_ne by discriminate.
Qed.

Lemma withProfile_profile_email (profileData u : obj) :
  ∃ p : obj, withProfile profileData u !! "profile" = Some (VObj p)
             ∧ p !! "email" = u !! "email".
Proof.
  eexists. split.
  - unfold withProfile.
    destruct (truthy_opt (profileData !! "fullName")) eqn:E.
    + destruct (profileData !! "fullName"); [|done]. simpl.
      rewrite lookup_insert_ne by discriminate. by rewrite lookup_insert_eq.
    + by rewrite lookup_insert_eq.
  - unfold with_prop. destruct (u !! "email").
    + by rewrite lookup_insert_eq.
    + by rewrite lookup_delete_eq.
Qed.

(** C9. For every existing user and every profile data, with or without
    an email key, [updateUserProfile] succeeds and the user found under
    that id afterwards has the email it had before; the email inside its
    profile is that same email. *)
Theorem updateUserProfile_keeps_email
    (userId : string) (profileData : obj) (st : store) (u : value) :
  eval (findUserById userId) st = Ok (Some u) →
  ∃ (s u' p : obj),
    eval (updateUserProfile userId profileData) st = Ok (SuccessUser s)
    ∧ eval (findUserById userId) (exec (updateUserProfile userId profileData) st)
      = Ok (Some (VObj u'))
    ∧ prop u "email" = Ok (u' !! "email")
    ∧ u' !! "profile" = Some (VObj p)
    ∧ p !! "email" = u' !! "email".
Proof.
  intros Hf.
  assert (∃ (l : list value) (i : nat) (uo : obj),
            eval getUsers st = Ok (VArr l) ∧ u = VObj uo
            ∧ arr_findIndex (id_is userId) l = Ok (Some i)
            ∧ l !! i = Some (VObj uo) ∧ uo !! "id" = Some (VStr userId))
    as (l & i & uo & Hl & -> & Hi & Hli & Hid).
  { revert Hf. run_M.
    destruct (or_else _ _) as [| | | |l|]; simpl; try discriminate.
    destruct (arr_find (id_is userId) l) as [[x|]|] eqn:Hx; simpl; try discriminate.
    destruct (arr_find_findIndex _ _ _ Hx) as (i & Hi & Hli & Hc).
    destruct (id_is_true _ _ Hc) as (uo & -> & Hid). simpl.
    intros [= <-]. by exists l, i, uo. }
  destruct (withProfile_profile_email profileData uo) as (p & Hp & Hpe).
  exists (sessionUser (withProfile profileData uo)), (withProfile profileData uo), p.
  assert (Hrun : updateUserProfile userId profileData st
                 = (Ok (SuccessUser (sessionUser (withProfile profileData uo))),
                    <[CURRENT_USER_KEY := VObj (sessionUser (withProfile profileData uo))]>
                      (<[USERS_KEY := VArr (<[i := VObj (withProfile profileData uo)]> l)]> st))).
  { apply getUsers_eval in Hl. unfold updateUserProfile. run_M. rewrite Hl. simpl.
    rewrite Hi. unfold obj_at. by rewrite Hli. }
  unfold eval at 1, exec. rewrite Hrun. simpl.
  split; [done|]. split.
  - run_M. rewrite lookup_insert_ne by discriminate. rewrite lookup_insert_eq. simpl.
    rewrite (arr_find_insert _ _ _ _ Hi); [done|].
    apply id_is_obj. by rewrite withProfile_id.
  - split; [by rewrite withProfile_email|]. split; [done|].
    by rewrite withProfile_email.
Qed.

(** C6, as the code has it. Every successful [updateUserProfile] stores
    the updated user, without its password, as the current session,
    whatever the session was before the call: absent, this user or
    another one. *)
Theorem updateUserProfile_sets_session
    (userId : string) (profileData : obj) (st : store) (s : obj) :
  eval (updateUserProfile userId profileData) st = Ok (SuccessUser s) →
  exec (updateUserProfile userId profileData) st !! CURRENT_USER_KEY = Some (VObj s)
  ∧ s !! "password" = None
  ∧ s !! "id" = Some (VStr userId)
  ∧ ∃ u' : obj,
      eval (findUserById userId) (exec (updateUserProfile userId profileData) st)
      = Ok (Some (VObj u'))
      ∧ s = sessionUser u'.
Proof.
  intros H. apply run_eq in H.
  set (st' := exec _ st) in *. clearbody st'.
  destruct (updateUserProfile_inv _ _ _ _ _ H) as (l & Hl & [(_ & ? & _)|Hs]);
    [discriminate|].
  destruct Hs as (i & u & Hi & Hli & Hid & [= ->] & ->).
  split; [by rewrite lookup_insert_eq|].
  split; [apply sessionUser_no_password|].
  split.
  { unfold sessionUser. rewrite lookup_delete_ne by discriminate.
    by rewrite withProfile_id. }
  exists (withProfile profileData u). split; [|done].
  run_M. rewrite lookup_insert_ne by discriminate. rewrite lookup_insert_eq. simpl.
  rewrite (arr_find_insert _ _ _ _ Hi); [done|].
  apply id_is_obj. by rewrite withProfile_id.
Qed.

End Profile.

(** * Applications and the embedded summary *)

Section Applications.
Import JS Storage.

Lemma addApplication_inv (entropy now1 now2 userId : string)
    (applicationData : obj) (st st' : store) (app : obj) :
  addApplication entropy now1 now2 userId applicationData st
    = (Ok (SuccessApplication app), st') →
  ∃ (la lu : list value) (i : nat) (u : obj) (ls : list value),
    app = newApplication entropy now1 now2 userId applicationData
    ∧ eval getApplications st = Ok (VArr la)
    ∧ eval getUsers st = Ok (VArr lu)
    ∧ arr_findIndex (id_is userId) lu = Ok (Some i)
    ∧ lu !! i = Some (VObj u)
    ∧ u !! "id" = Some (VStr userId)
    ∧ as_array (or_else (u !! "applications") (VArr [])) = Ok ls
    ∧ st' = <[CURRENT_USER_KEY :=
               VObj (sessionUser
                  (<["applications" := VArr (ls ++ [VObj (summaryOf app)])]> u))]>
              (<[USERS_KEY :=
                  VArr (<[i := VObj (<["applications" :=
                                        VArr (ls ++ [VObj (summaryOf app)])]> u)]> lu)]>
                 (<[APPLICATIONS_KEY := VArr (la ++ [VObj app])]> st)).
Proof.
  unfold addApplication. run_M.
  destruct (or_else (Some (default VNull (st !! USERS_KEY))) (VArr []))
    as [| | | |lu|] eqn:Hu; cbn -[or_else]; try discriminate.
  destruct (arr_find (id_is userId) lu) as [[x|]|] eqn:Hx; cbn -[or_else]; try discriminate.
  destruct (arr_find_findIndex _ _ _ Hx) as (i & Hi & Hli & Hc).
  destruct (id_is_true _ _ Hc) as (u & -> & Hid). cbn -[or_else].
  destruct (or_else (Some (default VNull (st !! APPLICATIONS_KEY))) (VArr []))
    as [| | | |la|] eqn:Ha; cbn -[or_else]; try discriminate.
  rewrite lookup_insert_ne by discriminate. rewrite Hu. cbn -[or_else].
  rewrite Hi. unfold obj_at. rewrite Hli.
  destruct (as_array (or_else (u !! "applications") (VArr []))) as [ls|] eqn:Hs;
    try discriminate.
  intros [= <- <-]. by exists la, lu, i, u, ls.
Qed.

Lemma newApplication_userId (entropy now1 now2 userId : string) (applicationData : obj) :
  newApplication entropy now1 now2 userId applicationData !! "userId"
  = match applicationData !! "userId" with
    | Some v => Some v
    | None => Some (VStr userId)
    end.
Proof.
  unfold newApplication.
  destruct (applicationData !! "userId") as [v|] eqn:E.
  - by apply lookup_union_Some_l.
  - rewrite lookup_union_r by done.
    rewrite lookup_insert_ne by discriminate. by rewrite lookup_insert_eq.
Qed.

Lemma newApplication_owner (entropy now1 now2 userId : string) (applicationData : obj) :
  applicationData !! "userId" = None
  ∨ applicationData !! "userId" = Some (VStr userId) →
  owner_is userId (VObj (newApplication entropy now1 now2 userId applicationData))
  = Ok true.
Proof.
  intros H. unfold owner_is. cbn [prop]. rewrite newApplication_userId.
  destruct H as [-> | ->]; simpl; by rewrite String.eqb_refl.
Qed.

Lemma summaryOf_id (app : obj) : summaryOf app !! "id" = app !! "id".
Proof.
  unfold summaryOf, with_prop. destruct (app !! "id").
  - by rewrite lookup_insert_eq.
  - by rewrite lookup_delete_eq.
Qed.

Lemma embeddedApplications_or_else (u : obj) (ls : list value) :
  as_array (or_else (u !! "applications") (VArr [])) = Ok ls →
  embeddedApplications (VObj u) = ls.
Proof.
  unfold embeddedApplications. simpl.
  destruct (u !! "applications") as [[]|]; simpl; try discriminate;
    try (by intros [= <-]).
  - destruct b; simpl; intros E; try discriminate E. by injection E as <-.
  - destruct (negb (z =? 0)); simpl; intros E; try discriminate E.
    by injection E as <-.
  - destruct (negb (s =? "")%string); simpl; intros E; try discriminate E.
    by injection E as <-.
Qed.

(** C2, as the code has it. When the caller's fields carry no userId
    other than the owner's, a successful [addApplication] appends the new
    application to the owner's filtered view of the canonical collection,
    which so holds exactly one more entry, and appends one summary to the
    owner's embedded list, whose id is the id of the new application. *)
Theorem addApplication_grows_both_copies
    (entropy now1 now2 userId : string) (applicationData : obj)
    (st : store) (app : obj) :
  applicationData !! "userId" = None
  ∨ applicationData !! "userId" = Some (VStr userId) →
  eval (addApplication entropy now1 now2 userId applicationData) st
    = Ok (SuccessApplication app) →
  (∀ before : list value,
     eval (getUserApplications userId) st = Ok before →
     eval (getUserApplications userId)
       (exec (addApplication entropy now1 now2 userId applicationData) st)
     = Ok (before ++ [VObj app])
     ∧ List.length (before ++ [VObj app]) = S (List.length before))
  ∧ ∃ (u u' : value) (s : obj),
      eval (findUserById userId) st = Ok (Some u)
      ∧ eval (findUserById userId)
          (exec (addApplication entropy now1 now2 userId applicationData) st)
        = Ok (Some u')
      ∧ embeddedApplications u' = embeddedApplications u ++ [VObj s]
      ∧ List.length (embeddedApplications u') = S (List.length (embeddedApplications u))
      ∧ s !! "id" = app !! "id".
Proof.
  intros Hown H. apply run_eq in H.
  set (st' := exec _ st) in *. clearbody st'.
  destruct (addApplication_inv _ _ _ _ _ _ _ _ H)
    as (la & lu & i & u & ls & -> & Hla & Hlu & Hi & Hli & Hid & Hls & ->).
  split.
  - intros before. apply getApplications_eval in Hla. run_M. rewrite Hla.
    rewrite !lookup_insert_ne by discriminate. rewrite lookup_insert_eq. simpl.
    destruct (arr_filter (owner_is userId) la) as [r|] eqn:Hr; try discriminate.
    intros [= <-].
    rewrite (arr_filter_app _ _ _ _ true Hr) by (by apply newApplication_owner).
    split; [done|]. rewrite length_app. simpl. lia.
  - exists (VObj u), (VObj (<["applications" :=
       VArr (ls ++ [VObj (summaryOf (newApplication entropy now1 now2 userId
                                                    applicationData))])]> u)),
      (summaryOf (newApplication entropy now1 now2 userId applicationData)).
    destruct (arr_findIndex_find _ _ _ Hi) as (x & Hx & _ & Hfind).
    rewrite Hli in Hx. injection Hx as <-.
    assert (Hemb : embeddedApplications (VObj (<["applications" :=
       VArr (ls ++ [VObj (summaryOf (newApplication entropy now1 now2 userId
                                                    applicationData))])]> u))
       = embeddedApplications (VObj u)
         ++ [VObj (summaryOf (newApplication entropy now1 now2 userId applicationData))]).
    { rewrite (embeddedApplications_or_else _ _ Hls).
      unfold embeddedApplications. simpl. by rewrite lookup_insert_eq. }
    repeat split.
    + apply getUsers_eval in Hlu. run_M. rewrite Hlu. simpl. by rewrite Hfind.
    + run_M. rewrite lookup_insert_ne by discriminate. rewrite lookup_insert_eq.
      simpl. rewrite (arr_find_insert _ _ _ _ Hi); [done|].
      apply id_is_obj. by rewrite lookup_insert_ne by discriminate.
    + done.
    + rewrite Hemb, length_app. simpl. lia.
    + apply summaryOf_id.
Qed.

Lemma deleteApplication_inv (userId applicationId : string)
    (st st' : store) (m : string) :
  deleteApplication userId applicationId st = (Ok (SuccessMessage m), st') →
  ∃ (la la' lu : list value),
    eval getApplications st = Ok (VArr la)
    ∧ arr_filter (not_this userId applicationId) la = Ok la'
    ∧ List.length la' ≠ List.length la
    ∧ eval getUsers st = Ok (VArr lu)
    ∧ ((arr_findIndex (id_is userId) lu = Ok None
        ∧ st' = <[APPLICATIONS_KEY := VArr la']> st)
       ∨ (∃ (i : nat) (u : obj) (ls ls' : list value),
            arr_findIndex (id_is userId) lu = Ok (Some i)
            ∧ lu !! i = Some (VObj u)
            ∧ u !! "id" = Some (VStr userId)
            ∧ u !! "applications" = Some (VArr ls)
            ∧ arr_filter (id_is_not applicationId) ls = Ok ls'
            ∧ st' = <[CURRENT_USER_KEY :=
                       VObj (sessionUser (<["applications" := VArr ls']> u))]>
                      (<[USERS_KEY :=
                          VArr (<[i := VObj (<["applications" := VArr ls']> u)]> lu)]>
                         (<[APPLICATIONS_KEY := VArr la']> st)))).
Proof.
  unfold deleteApplication. run_M.
  destruct (or_else (Some (default VNull (st !! APPLICATIONS_KEY))) (VArr []))
    as [| | | |la|] eqn:Ha; cbn -[or_else]; try discriminate.
  destruct (arr_filter (not_this userId applicationId) la) as [la'|] eqn:Hf;
    try discriminate.
  destruct (Nat.eqb (List.length la') (List.length la)) eqn:Hn; try discriminate.
  apply Nat.eqb_neq in Hn.
  rewrite lookup_insert_ne by discriminate.
  destruct (or_else (Some (default VNull (st !! USERS_KEY))) (VArr []))
    as [| | | |lu|] eqn:Hu; cbn -[or_else]; try discriminate.
  destruct (arr_findIndex (id_is userId) lu) as [[i|]|] eqn:Hi; try discriminate.
  - destruct (arr_findIndex_find _ _ _ Hi) as (x & Hli & Hc & _).
    destruct (id_is_true _ _ Hc) as (u & -> & Hid).
    unfold obj_at. rewrite Hli.
    destruct (u !! "applications") as [[| | | |ls|]|] eqn:Hs; cbn -[or_else]; try discriminate.
    destruct (arr_filter (id_is_not applicationId) ls) as [ls'|] eqn:Hs';
      try discriminate.
    intros [= <- <-]. exists la, la', lu. repeat split; try done.
    right. by exists i, u, ls, ls'.
  - intros [= <- <-]. exists la, la', lu. repeat split; try done. by left.
Qed.

Lemma not_this_true (userId applicationId : string) (a : value) :
  not_this userId applicationId a = Ok true →
  ¬ (id_is applicationId a = Ok true ∧ owner_is userId a = Ok true).
Proof.
  unfold not_this, id_is, owner_is. intros H [Hi Ho].
  destruct (prop a "id") as [i|]; simpl in *; [|discriminate].
  injection Hi as Hi. rewrite Hi in H.
  destruct (prop a "userId") as [o|]; simpl in *; [|discriminate].
  injection Ho as Ho. rewrite Ho in H. discriminate.
Qed.

Lemma id_is_not_true (applicationId : string) (a : value) :
  id_is_not applicationId a = Ok true → id_is applicationId a = Ok false.
Proof.
  unfold id_is_not, id_is. destruct (prop a "id") as [i|]; simpl; [|discriminate].
  intros [= H]. by apply negb_true_iff in H as ->.
Qed.

(** C3, as the code has it. After a successful [deleteApplication] the
    canonical collection holds no application with that id owned by that
    user (so none with that id at all whenever every application with
    that id belonged to the user), and the embedded summary of the user
    holds no entry with that id. *)
Theorem deleteApplication_removes_owned
    (userId applicationId : string) (st : store) (m : string) :
  eval (deleteApplication userId applicationId) st = Ok (SuccessMessage m) →
  ∃ la la' : list value,
    eval getApplications st = Ok (VArr la)
    ∧ eval getApplications (exec (deleteApplication userId applicationId) st)
      = Ok (VArr la')
    ∧ (∀ a, a ∈ la' →
         ¬ (id_is applicationId a = Ok true ∧ owner_is userId a = Ok true))
    ∧ ((∀ a, a ∈ la → id_is applicationId a = Ok true → owner_is userId a = Ok true) →
       ∀ a, a ∈ la' → id_is applicationId a ≠ Ok true)
    ∧ (∀ u', eval (findUserById userId) (exec (deleteApplication userId applicationId) st)
             = Ok (Some u') →
         ∀ s, s ∈ embeddedApplications u' → id_is applicationId s = Ok false).
Proof.
  intros H. apply run_eq in H.
  set (st' := exec _ st) in *. clearbody st'.
  destruct (deleteApplication_inv _ _ _ _ _ H)
    as (la & la' & lu & Hla & Hf & Hn & Hlu & Hcase).
  exists la, la'. split; [done|].
  assert (Hla' : eval getApplications st' = Ok (VArr la')).
  { destruct Hcase as [(_ & ->)|(i & u & ls & ls' & _ & _ & _ & _ & _ & ->)]; run_M.
    - by rewrite lookup_insert_eq.
    - rewrite !lookup_insert_ne by discriminate. by rewrite lookup_insert_eq. }
  split; [done|]. split; [|split].
  - intros a Ha. destruct (arr_filter_elem _ _ _ _ Hf Ha) as [_ Hc].
    by apply not_this_true in Hc.
  - intros Hall a Ha Hid. destruct (arr_filter_elem _ _ _ _ Hf Ha) as [Hin Hc].
    apply not_this_true in Hc. apply Hc. split; [done|]. by apply Hall.
  - intros u'. destruct Hcase as [(Hi & ->)|(i & u & ls & ls' & Hi & Hli & Hid & Hs & Hs' & ->)].
    + run_M. rewrite lookup_insert_ne by discriminate.
      apply getUsers_eval in Hlu. rewrite Hlu. simpl.
      by rewrite (arr_findIndex_none_find _ _ Hi).
    + run_M. rewrite lookup_insert_ne by discriminate. rewrite lookup_insert_eq.
      simpl. rewrite (arr_find_insert _ _ _ _ Hi);
        [|apply id_is_obj; by rewrite lookup_insert_ne by discriminate].
      simpl. intros [= <-] s. unfold embeddedApplications. simpl.
      rewrite lookup_insert_eq. intros Hin.
      destruct (arr_filter_elem _ _ _ _ Hs' Hin) as [_ Hc].
      by apply id_is_not_true.
Qed.

End Applications.

(** * Registration and login *)

Section Accounts.
Import JS Storage.

Lemma email_is_true (email : option value) (x : value) :
  email_is email x = Ok true → ∃ o : obj, x = VObj o.
Proof. destruct x; simpl; try discriminate. eauto. Qed.

Lemma arr_find_email_obj (email : option value) (l : list value) (x : value) :
  arr_find (email_is email) l = Ok (Some x) → ∃ o : obj, x = VObj o.
Proof.
  intros H. destruct (arr_find_findIndex _ _ _ H) as (_ & _ & _ & Hc).
  by apply email_is_true in Hc.
Qed.

Lemma registerUser_inv (entropy now : string) (userData : obj)
    (st st' : store) (u : obj) :
  registerUser entropy now userData st = (Ok (SuccessUser u), st') →
  ∃ (l : list value) (name email : string),
    eval getUsers st = Ok (VArr l)
    ∧ arr_find (email_is (userData !! "email")) l = Ok None
    ∧ userData !! "name" = Some (VStr name)
    ∧ userData !! "email" = Some (VStr email)
    ∧ truthy_opt (userData !! "password") = true
    ∧ u = newUser entropy now (trim name) (toLowerCase (trim email)) userData
    ∧ st' = <[CURRENT_USER_KEY := VObj u]> (<[USERS_KEY := VArr (l ++ [VObj u])]> st).
Proof.
  unfold registerUser.
  destruct (truthy_opt (userData !! "email")) eqn:He; [|discriminate].
  destruct (truthy_opt (userData !! "password")) eqn:Hp; [|discriminate].
  destruct (truthy_opt (userData !! "name")) eqn:Hn; [|discriminate].
  cbn [negb orb]. run_M.
  destruct (or_else (Some (default VNull (st !! USERS_KEY))) (VArr []))
    as [| | | |l|] eqn:Hu; cbn -[or_else]; try discriminate.
  destruct (arr_find (email_is (userData !! "email")) l) as [[x|]|] eqn:Hx;
    cbn -[or_else]; try discriminate.
  { destruct (arr_find_email_obj _ _ _ Hx) as (o & ->). discriminate. }
  destruct (userData !! "name") as [[| | |name| |]|]; cbn -[or_else]; try discriminate.
  destruct (userData !! "email") as [[| | |email| |]|] eqn:Hemail; cbn -[or_else];
    try discriminate.
  rewrite Hu. cbn -[or_else]. intros [= <- <-].
  by exists l, name, email.
Qed.

Lemma newUser_password (entropy now name email : string) (userData : obj) :
  newUser entropy now name email userData !! "password" = userData !! "password".
Proof.
  unfold newUser, with_prop. destruct (userData !! "password").
  - by rewrite lookup_insert_eq.
  - by rewrite lookup_delete_eq.
Qed.

Lemma newUser_email (entropy now name email : string) (userData : obj) :
  newUser entropy now name email userData !! "email" = Some (VStr email).
Proof.
  unfold newUser, with_prop. destruct (userData !! "password").
  - rewrite !lookup_insert_ne by discriminate. by rewrite lookup_insert_eq.
  - rewrite lookup_delete_ne by discriminate.
    rewrite !lookup_insert_ne by discriminate. by rewrite lookup_insert_eq.
Qed.

(** Every successful registration stores the whole new record, password
    included, as the current session. *)
Lemma registerUser_session (entropy now : string) (userData : obj)
    (st st' : store) (u : obj) :
  registerUser entropy now userData st = (Ok (SuccessUser u), st') →
  st' !! CURRENT_USER_KEY = Some (VObj u)
  ∧ u !! "password" = userData !! "password"
  ∧ is_Some (u !! "password").
Proof.
  intros H. destruct (registerUser_inv _ _ _ _ _ _ H)
    as (l & name & email & _ & _ & _ & _ & Hp & -> & ->).
  split; [by rewrite lookup_insert_eq|].
  rewrite newUser_password. split; [done|].
  destruct (userData !! "password"); [eauto|discriminate].
Qed.

(** C1, at the point where the code departs from it: Ann registers on an
    empty store, the call succeeds, and the stored session snapshot
    carries her password. *)
Theorem registerUser_session_has_password :
  succeeded (eval (registerUser "1" "t0" Scenario.ann) ∅) = true
  ∧ sessionField "password" (exec (registerUser "1" "t0" Scenario.ann) ∅)
    = Some (VStr "secret1").
Proof. split; vm_compute; reflexivity. Qed.

(** The other paths that write the session strip the password. *)
Lemma loginUser_session (email password : string) (st st' : store) (s : obj) :
  loginUser email password st = (Ok (SuccessUser s), st') →
  st' !! CURRENT_USER_KEY = Some (VObj s) ∧ s !! "password" = None.
Proof.
  unfold loginUser.
  destruct ((email =? "")%string || (password =? "")%string); [discriminate|].
  run_M.
  destruct (or_else _ _) as [| | | |l|]; cbn -[or_else]; try discriminate.
  destruct (arr_find _ l) as [[x|]|] eqn:Hx; cbn -[or_else]; try discriminate.
  destruct (arr_find_email_obj _ _ _ Hx) as (o & ->). cbn -[or_else].
  destruct (negb (is_str (o !! "password") password)); [discriminate|].
  intros [= <- <-]. split; [by rewrite lookup_insert_eq|].
  apply sessionUser_no_password.
Qed.

Lemma addApplication_session (entropy now1 now2 userId : string)
    (applicationData : obj) (st st' : store) (app : obj) :
  addApplication entropy now1 now2 userId applicationData st
    = (Ok (SuccessApplication app), st') →
  ∃ s : obj, st' !! CURRENT_USER_KEY = Some (VObj s) ∧ s !! "password" = None.
Proof.
  intros H. destruct (addApplication_inv _ _ _ _ _ _ _ _ H)
    as (la & lu & i & u & ls & _ & _ & _ & _ & _ & _ & _ & ->).
  eexists. split; [by rewrite lookup_insert_eq|]. apply sessionUser_no_password.
Qed.

(** C4, at the point where the code departs from it: the same padded
    email registers twice. Both calls succeed and the collection then
    holds two users with the same stored email. *)
Theorem registerUser_padded_email_twice :
  succeeded (eval (registerUser "1" "t0" Scenario.padded) ∅) = true
  ∧ succeeded (eval (registerUser "2" "t1" Scenario.padded)
                 (exec (registerUser "1" "t0" Scenario.padded) ∅)) = true
  ∧ userFields "email"
      (exec (registerUser "2" "t1" Scenario.padded)
         (exec (registerUser "1" "t0" Scenario.padded) ∅))
    = [Some (VStr "a@x.com"); Some (VStr "a@x.com")].
Proof. repeat split; vm_compute; reflexivity. Qed.

(** C5, as the code has it. When a user with the given email exists and
    the password differs from the stored one, [loginUser] of storage.js
    answers 'Incorrect password. Please try again.' provided email and
    password are not empty, and [loginUser] of the second module answers
    'Incorrect password' when [verifyPassword] fails; in both the store,
    and with it the current session, is what it was before the call. *)
Theorem loginUser_wrong_password_keeps_session :
  (∀ (email password : string) (st : store) (u : value) (pw : option value),
     email ≠ "" → password ≠ "" →
     eval (Storage.findUserByEmail (Some (VStr email))) st = Ok (Some u) →
     prop u "password" = Ok pw → is_str pw password = false →
     Storage.loginUser email password st
     = (Ok (Failure "Incorrect password. Please try again."), st))
  ∧ (∀ (email password : string) (st : store) (u : value) (pw : option value),
       eval (GuideStorage.findUserByEmail email) st = Ok (Some u) →
       prop u "password" = Ok pw → GuideStorage.verifyPassword password pw = false →
       GuideStorage.loginUser email password st
       = (Ok (Failure "Incorrect password"), st)).
Proof.
  split.
  - intros email password st u pw He Hp Hf Hpw Hne.
    unfold Storage.loginUser.
    apply String.eqb_neq in He, Hp. rewrite He, Hp. cbn [orb].
    revert Hf. run_M.
    destruct (or_else _ _) as [| | | |l|]; cbn -[or_else]; try discriminate.
    destruct (arr_find _ l) as [[x|]|] eqn:Hx; cbn -[or_else]; try discriminate.
    destruct (arr_find_email_obj _ _ _ Hx) as (o & ->). cbn -[or_else].
    intros [= <-]. simpl in Hpw. injection Hpw as <-. by rewrite Hne.
  - intros email password st u pw Hf Hpw Hne.
    unfold GuideStorage.loginUser. revert Hf.
    unfold GuideStorage.findUserByEmail, GuideStorage.getUsers. run_M.
    destruct (GuideStorage.parsed_or _ _) as [| | | |l|]; simpl; try discriminate.
    destruct (arr_find _ l) as [[x|]|] eqn:Hx; simpl; try discriminate.
    intros [= ->]. destruct (arr_find_findIndex _ _ _ Hx) as (_ & _ & _ & Hc).
    destruct u; simpl in Hc; try discriminate. simpl.
    simpl in Hpw. injection Hpw as <-. by rewrite Hne.
Qed.

(** C5 as stated fails on storage.js: Ann exists, the empty password is
    not her password, and the answer is the missing-input failure, not
    the incorrect-password one. *)
Lemma loginUser_empty_password_is_not_checked :
  eval (Storage.findUserByEmail (Some (VStr "a@x.com"))) Scenario.one_user
  = Ok (Some (VObj Scenario.ann_record))
  ∧ is_str (Scenario.ann_record !! "password") "" = false
  ∧ eval (Storage.loginUser "a@x.com" "") Scenario.one_user
    = Ok (Failure "Please enter both email and password")
  ∧ eval (Storage.loginUser "a@x.com" "") Scenario.one_user
    ≠ Ok (Failure "Incorrect password. Please try again.").
Proof.
  split; [vm_compute; reflexivity|]. split; [vm_compute; reflexivity|].
  split; [vm_compute; reflexivity|]. vm_compute. discriminate.
Qed.

End Accounts.

(** * Duplicate emails *)

Section Duplicates.
Import JS Storage.

Lemma lower_char_idem (c : ascii) : lower_char (lower_char c) = lower_char c.
Proof. destruct c as [[] [] [] [] [] [] [] []]; reflexivity. Qed.

Lemma toLowerCase_idem (s : string) : toLowerCase (toLowerCase s) = toLowerCase s.
Proof. induction s as [|c s IH]; simpl; [done|]. by rewrite lower_char_idem, IH. Qed.

Lemma toLowerCase_empty (s : string) : toLowerCase s = "" → s = "".
Proof. by destruct s. Qed.

Lemma arr_find_app_none (cb : value → res bool) (l l' : list value) :
  arr_find cb l = Ok None → arr_find cb (l ++ l') = arr_find cb l'.
Proof.
  induction l as [|x l IH]; simpl; [done|].
  destruct (cb x) as [[|]|]; simpl; try discriminate. apply IH.
Qed.

Lemma arr_find_ext (cb cb' : value → res bool) (l : list value) :
  (∀ x, cb x = cb' x) → arr_find cb l = arr_find cb' l.
Proof.
  intros H. induction l as [|x l IH]; simpl; [done|].
  rewrite H. destruct (cb' x) as [[|]|]; simpl; try done.
Qed.

Lemma email_is_lower (e1 e2 : string) (x : value) :
  toLowerCase e2 = toLowerCase e1 →
  email_is (Some (VStr e2)) x = email_is (Some (VStr e1)) x.
Proof. intros H. unfold email_is. simpl. by rewrite H. Qed.

(** Where the duplicate check does work: once a registration with an
    email that has no surrounding white space succeeded, a second
    registration whose email differs from it in case only, with a
    password and a name, is refused and writes nothing. *)
Lemma registerUser_rejects_duplicate
    (entropy now entropy' now' : string) (userData userData' : obj)
    (st : store) (u : obj) (e1 e2 : string) :
  eval (registerUser entropy now userData) st = Ok (SuccessUser u) →
  userData !! "email" = Some (VStr e1) → trim e1 = e1 →
  userData' !! "email" = Some (VStr e2) → toLowerCase e2 = toLowerCase e1 →
  truthy_opt (userData' !! "password") = true →
  truthy_opt (userData' !! "name") = true →
  registerUser entropy' now' userData' (exec (registerUser entropy now userData) st)
  = (Ok (Failure "This email is already registered"),
     exec (registerUser entropy now userData) st).
Proof.
  intros H He1 Ht He2 Hl Hp Hn. apply run_eq in H.
  set (st' := exec _ st) in *. clearbody st'.
  destruct (registerUser_inv _ _ _ _ _ _ H)
    as (l & name & email & Hu & Hnone & _ & Hemail & _ & -> & ->).
  rewrite He1 in Hemail, Hnone. injection Hemail as <-.
  assert (Htr : truthy_opt (userData !! "email") = true).
  { revert H. unfold registerUser. by destruct (truthy_opt (userData !! "email")). }
  rewrite He1 in Htr. simpl in Htr.
  unfold registerUser. rewrite Hp, Hn, He2. simpl.
  destruct (String.eqb e2 "") eqn:E2.
  { apply String.eqb_eq in E2. subst e2. simpl in Hl. symmetry in Hl.
    apply toLowerCase_empty in Hl. subst e1. discriminate. }
  cbn [negb orb]. run_M.
  rewrite lookup_insert_ne by discriminate. rewrite lookup_insert_eq. simpl.
  rewrite (arr_find_ext _ (email_is (Some (VStr e1)))) by (intros; by apply email_is_lower).
  rewrite (arr_find_app_none _ _ _ Hnone). simpl.
  unfold email_is at 1. cbn [prop]. rewrite newUser_email. simpl.
  rewrite Ht, toLowerCase_idem, String.eqb_refl. done.
Qed.

End Duplicates.

(** * The second module: chat history and password hashing *)

Section Guide.
Import JS GuideStorage.

Lemma keepLast100_push (h : list value) (e : value) :
  (List.length h ≤ 100)%nat →
  keepLast100 (h ++ [e]) = (if Nat.eqb (List.length h) 100 then drop 1 h else h) ++ [e].
Proof.
  intros Hle. unfold keepLast100. rewrite length_app. simpl.
  destruct (Nat.eqb (List.length h) 100) eqn:E.
  - apply Nat.eqb_eq in E. rewrite E.
    replace (Nat.ltb 100 (100 + 1)) with true by done.
    replace (100 + 1 - 100)%nat with 1%nat by lia.
    rewrite drop_app_le by lia. done.
  - apply Nat.eqb_neq in E.
    replace (Nat.ltb 100 (List.length h + 1)) with false; [done|].
    symmetry. apply Nat.ltb_ge. lia.
Qed.

Lemma chatEntry_fields (now : string) (message : obj) :
  chatEntry now message !! "role" = message !! "role"
  ∧ chatEntry now message !! "content" = message !! "content"
  ∧ chatEntry now message !! "timestamp" = Some (VStr now).
Proof.
  unfold chatEntry, with_prop.
  destruct (message !! "role") as [r|], (message !! "content") as [c|];
    repeat split;
    rewrite ?lookup_insert_eq, ?lookup_delete_eq; try done;
    rewrite ?lookup_insert_ne, ?lookup_delete_ne by discriminate;
    rewrite ?lookup_insert_eq, ?lookup_delete_eq; try done;
    rewrite ?lookup_insert_ne, ?lookup_delete_ne by discriminate;
    by rewrite ?lookup_insert_eq, ?lookup_singleton_eq.
Qed.

(** C8. For every user id and every stored chat history of at most 100
    entries, [addChatMessage] stores a history of at most 100 entries
    whose last entry is the new message (its role and content, stamped
    with the time of the call); it is the old history followed by the
    new entry, without its first (oldest) entry when the old history
    already held 100. *)
Theorem addChatMessage_keeps_last_100
    (now userId : string) (message : obj) (st : store) (h : list value) :
  eval (getChatHistory userId) st = Ok (VArr h) →
  (List.length h ≤ 100)%nat →
  ∃ h' : list value,
    addChatMessage now userId message st
    = (Ok (), <[KEY_CHAT_HISTORY +:+ userId := VArr h']> st)
    ∧ eval (getChatHistory userId) (exec (addChatMessage now userId message) st)
      = Ok (VArr h')
    ∧ (List.length h' ≤ 100)%nat
    ∧ last h' = Some (VObj (chatEntry now message))
    ∧ chatEntry now message !! "role" = message !! "role"
    ∧ chatEntry now message !! "content" = message !! "content"
    ∧ chatEntry now message !! "timestamp" = Some (VStr now)
    ∧ h' = (if Nat.eqb (List.length h) 100 then drop 1 h else h)
           ++ [VObj (chatEntry now message)].
Proof.
  intros Hh Hle.
  assert (Hp : parsed_or (VArr []) (st !! (KEY_CHAT_HISTORY +:+ userId)) = VArr h).
  { injection Hh as Hh. exact Hh. }
  exists ((if Nat.eqb (List.length h) 100 then drop 1 h else h)
          ++ [VObj (chatEntry now message)]).
  assert (Hrun : addChatMessage now userId message st
                 = (Ok (), <[KEY_CHAT_HISTORY +:+ userId :=
                      VArr ((if Nat.eqb (List.length h) 100 then drop 1 h else h)
                            ++ [VObj (chatEntry now message)])]> st)).
  { unfold addChatMessage, getChatHistory. run_M. rewrite Hp. cbn [as_array].
    by rewrite keepLast100_push. }
  destruct (chatEntry_fields now message) as (Hr & Hc & Ht).
  split; [done|]. split; [|split; [|split]].
  - unfold exec. rewrite Hrun. unfold getChatHistory. run_M.
    by rewrite lookup_insert_eq.
  - rewrite length_app. simpl.
    destruct (Nat.eqb (List.length h) 100) eqn:E.
    + apply Nat.eqb_eq in E. rewrite length_drop. lia.
    + apply Nat.eqb_neq in E. lia.
  - apply last_snoc.
  - done.
Qed.

Lemma registerUser_guide_inv (entropy now now1 now2 email password fullName : string)
    (st st' : store) (r : obj) :
  registerUser entropy now now1 now2 email password fullName st
    = (Ok (SuccessUser r), st') →
  ∃ (l : list value) (o : obj),
    eval getUsers st = Ok (VArr l)
    ∧ o !! "email" = Some (VStr (trim (toLowerCase email)))
    ∧ o !! "password" = Some (VStr (hashPassword password))
    ∧ st' !! KEY_USERS = Some (VArr (l ++ [VObj o])).
Proof.
  unfold registerUser, findUserByEmail, getUsers, saveUsers, initializeUserData.
  run_M.
  destruct (parsed_or (VArr []) (st !! KEY_USERS)) as [| | | |l|] eqn:Hu;
    cbn [as_array]; try discriminate.
  destruct (arr_find (email_is email) l) as [x|]; try discriminate.
  destruct (truthy_opt x); try discriminate.
  rewrite Hu. cbn [as_array]. intros [= <- <-].
  eexists l, _. split; [done|]. split; [|split].
  3: { rewrite !lookup_insert_ne by (cbn; discriminate).
       rewrite lookup_insert_eq. reflexivity. }
  - rewrite lookup_insert_ne by discriminate. by rewrite lookup_insert_eq.
  - rewrite !lookup_insert_ne by discriminate. by rewrite lookup_insert_eq.
Qed.

(** C10. [verifyPassword] accepts the hash [hashPassword] computes for
    the same password; hence the record a successful registration stores
    passes the credential check of [loginUser] with the password that was
    registered. *)
Theorem verifyPassword_hashPassword :
  (∀ password : string,
     verifyPassword password (Some (VStr (hashPassword password))) = true)
  ∧ (∀ (entropy now now1 now2 email password fullName : string)
       (st : store) (r : obj),
       eval (registerUser entropy now now1 now2 email password fullName) st
         = Ok (SuccessUser r) →
       ∃ (l : list value) (o : obj),
         exec (registerUser entropy now now1 now2 email password fullName) st
           !! KEY_USERS = Some (VArr (l ++ [VObj o]))
         ∧ verifyPassword password (o !! "password") = true).
Proof.
  split.
  - intros password. unfold verifyPassword. simpl. apply String.eqb_refl.
  - intros entropy now now1 now2 email password fullName st r H.
    apply run_eq in H.
    destruct (registerUser_guide_inv _ _ _ _ _ _ _ _ _ _ H) as (l & o & _ & _ & Hp & Hs).
    exists l, o. split; [done|]. rewrite Hp. unfold verifyPassword. simpl.
    apply String.eqb_refl.
Qed.

End Guide.

(** * The claims that fail as stated, at concrete runs *)

Section Counterexamples.
Import JS Storage.

(** C2 as stated fails: Ann exists and [addApplication] succeeds for her
    with fields that name another owner, yet her filtered view of the
    canonical collection holds no entry before and none after. *)
Lemma addApplication_foreign_owner :
  eval (findUserById "usr_1") Scenario.one_user = Ok (Some (VObj Scenario.ann_record))
  ∧ succeeded (eval (addApplication "7" "t2" "t3" "usr_1" {[ "userId" := VStr "usr_2" ]})
                 Scenario.one_user) = true
  ∧ List.length <$> eval (getUserApplications "usr_1") Scenario.one_user = Ok 0%nat
  ∧ List.length <$>
      eval (getUserApplications "usr_1")
        (exec (addApplication "7" "t2" "t3" "usr_1" {[ "userId" := VStr "usr_2" ]})
           Scenario.one_user) = Ok 0%nat.
Proof. repeat split; vm_compute; reflexivity. Qed.

(** C3 as stated fails: Ann and Bob each own an application with the id
    'shared'; Ann's delete succeeds and an application with that id,
    Bob's, is still in the canonical collection. *)
Lemma deleteApplication_leaves_other_owner :
  succeeded (eval (deleteApplication "usr_1" "shared") Scenario.shared_id) = true
  ∧ eval (getApplicationById "shared")
      (exec (deleteApplication "usr_1" "shared") Scenario.shared_id)
    = Ok (Some (VObj Scenario.bobs_application)).
Proof. split; vm_compute; reflexivity. Qed.

(** C6 as stated fails: the session is Bob's, Ann's profile is updated
    with success, and the session is Ann's afterwards instead of being
    left as it was. *)
Lemma updateUserProfile_takes_over_session :
  sessionField "id" Scenario.two_users = Some (VStr "usr_2")
  ∧ succeeded (eval (updateUserProfile "usr_1" Scenario.new_profile) Scenario.two_users)
    = true
  ∧ sessionField "id" (exec (updateUserProfile "usr_1" Scenario.new_profile)
                         Scenario.two_users) = Some (VStr "usr_1")
  ∧ exec (updateUserProfile "usr_1" Scenario.new_profile) Scenario.two_users
      !! CURRENT_USER_KEY ≠ Scenario.two_users !! CURRENT_USER_KEY.
Proof.
  assert (E : sessionField "id" (exec (updateUserProfile "usr_1" Scenario.new_profile)
                                   Scenario.two_users) = Some (VStr "usr_1"))
    by (vm_compute; reflexivity).
  assert (F : sessionField "id" Scenario.two_users = Some (VStr "usr_2"))
    by (vm_compute; reflexivity).
  split; [exact F|]. split; [vm_compute; reflexivity|]. split; [exact E|].
  intros H. unfold sessionField in E, F. rewrite H in E. rewrite E in F.
  discriminate F.
Qed.

End Counterexamples.

(** * The theorems at concrete runs *)

Section Witnesses.
Import JS Storage.

Lemma updateApplicationStatus_sets_status_witness :
  eval (getApplicationById "app_7") Scenario.one_application
  = Ok (Some (VObj Scenario.anns_application))
  ∧ exec (updateApplicationStatus "t6" "t7" "app_7" "approved" "fine")
      Scenario.one_application !! USERS_KEY
    = Scenario.one_application !! USERS_KEY.
Proof.
  assert (H : eval (getApplicationById "app_7") Scenario.one_application
              = Ok (Some (VObj Scenario.anns_application)))
    by (vm_compute; reflexivity).
  split; [exact H|].
  destruct (updateApplicationStatus_sets_status "t6" "t7" "app_7" "approved" "fine"
              Scenario.one_application (VObj Scenario.anns_application) H)
    as (la & i & ao & ao' & _ & _ & _ & _ & _ & _ & _ & _ & _ & Hu & _).
  exact Hu.
Defined.

Lemma updateUserProfile_keeps_email_witness :
  eval (findUserById "usr_1") Scenario.one_user = Ok (Some (VObj Scenario.ann_record))
  ∧ ∃ u' : obj,
      eval (findUserById "usr_1")
        (exec (updateUserProfile "usr_1" Scenario.new_profile) Scenario.one_user)
      = Ok (Some (VObj u'))
      ∧ Ok (Scenario.ann_record !! "email") = Ok (u' !! "email").
Proof.
  assert (H : eval (findUserById "usr_1") Scenario.one_user
              = Ok (Some (VObj Scenario.ann_record)))
    by (vm_compute; reflexivity).
  split; [exact H|].
  destruct (updateUserProfile_keeps_email "usr_1" Scenario.new_profile
              Scenario.one_user (VObj Scenario.ann_record) H)
    as (s & u' & p & _ & Hf & He & _).
  exists u'. split; [exact Hf|exact He].
Defined.

Lemma updateUserProfile_sets_session_witness :
  exec (updateUserProfile "usr_1" Scenario.new_profile) Scenario.two_users
    !! CURRENT_USER_KEY
  = Some (VObj (sessionUser (withProfile Scenario.new_profile Scenario.ann_record))).
Proof.
  apply (updateUserProfile_sets_session "usr_1" Scenario.new_profile Scenario.two_users
           (sessionUser (withProfile Scenario.new_profile Scenario.ann_record))).
  vm_compute; reflexivity.
Defined.

Lemma addApplication_grows_both_copies_witness :
  eval (getUserApplications "usr_1") Scenario.one_user = Ok []
  ∧ eval (getUserApplications "usr_1")
      (exec (addApplication "7" "t2" "t3" "usr_1" {[ "destination" := VStr "France" ]})
         Scenario.one_user)
    = Ok ([] ++ [VObj Scenario.anns_application]).
Proof.
  assert (H : eval (getUserApplications "usr_1") Scenario.one_user = Ok [])
    by (vm_compute; reflexivity).
  split; [exact H|].
  destruct (addApplication_grows_both_copies "7" "t2" "t3" "usr_1"
              {[ "destination" := VStr "France" ]} Scenario.one_user
              Scenario.anns_application) as [Hgrow _].
  - left. vm_compute; reflexivity.
  - vm_compute; reflexivity.
  - exact (proj1 (Hgrow [] H)).
Defined.

Lemma deleteApplication_removes_owned_witness :
  eval (deleteApplication "usr_1" "app_7") Scenario.one_application
  = Ok (SuccessMessage "Application deleted successfully")
  ∧ ∃ la la' : list value,
      eval getApplications Scenario.one_application = Ok (VArr la)
      ∧ eval getApplications
          (exec (deleteApplication "usr_1" "app_7") Scenario.one_application)
        = Ok (VArr la').
Proof.
  assert (H : eval (deleteApplication "usr_1" "app_7") Scenario.one_application
              = Ok (SuccessMessage "Application deleted successfully"))
    by (vm_compute; reflexivity).
  split; [exact H|].
  destruct (deleteApplication_removes_owned "usr_1" "app_7" Scenario.one_application
              "Application deleted successfully" H)
    as (la & la' & H1 & H2 & _).
  exists la, la'. split; [exact H1|exact H2].
Defined.

Lemma loginUser_wrong_password_keeps_session_witness :
  Storage.loginUser "a@x.com" "wrong" Scenario.one_user
  = (Ok (Failure "Incorrect password. Please try again."), Scenario.one_user)
  ∧ GuideStorage.loginUser "a@x.com" "wrong" Scenario.guide_user
    = (Ok (Failure "Incorrect password"), Scenario.guide_user).
Proof.
  split.
  - apply (proj1 loginUser_wrong_password_keeps_session "a@x.com" "wrong"
             Scenario.one_user (VObj Scenario.ann_record) (Some (VStr "secret1"))).
    + discriminate.
    + discriminate.
    + vm_compute; reflexivity.
    + vm_compute; reflexivity.
    + vm_compute; reflexivity.
  - apply (proj2 loginUser_wrong_password_keeps_session "a@x.com" "wrong"
             Scenario.guide_user (VObj Scenario.guide_record)
             (Some (VStr (GuideStorage.hashPassword "secret1")))).
    + vm_compute; reflexivity.
    + vm_compute; reflexivity.
    + vm_compute; reflexivity.
Defined.

Lemma addChatMessage_keeps_last_100_witness :
  ∃ h' : list value,
    GuideStorage.addChatMessage "t3" "k1" Scenario.hello Scenario.two_messages
    = (Ok (), <[GuideStorage.KEY_CHAT_HISTORY +:+ "k1" := VArr h']> Scenario.two_messages)
    ∧ eval (GuideStorage.getChatHistory "k1")
        (exec (GuideStorage.addChatMessage "t3" "k1" Scenario.hello) Scenario.two_messages)
      = Ok (VArr h')
    ∧ (List.length h' ≤ 100)%nat
    ∧ last h' = Some (VObj (GuideStorage.chatEntry "t3" Scenario.hello))
    ∧ GuideStorage.chatEntry "t3" Scenario.hello !! "role" = Scenario.hello !! "role"
    ∧ GuideStorage.chatEntry "t3" Scenario.hello !! "content"
      = Scenario.hello !! "content"
    ∧ GuideStorage.chatEntry "t3" Scenario.hello !! "timestamp" = Some (VStr "t3")
    ∧ h' = (if Nat.eqb (List.length [VObj (GuideStorage.chatEntry "t1" Scenario.hello);
                                     VObj (GuideStorage.chatEntry "t2" Scenario.hello)]) 100
            then drop 1 [VObj (GuideStorage.chatEntry "t1" Scenario.hello);
                         VObj (GuideStorage.chatEntry "t2" Scenario.hello)]
            else [VObj (GuideStorage.chatEntry "t1" Scenario.hello);
                  VObj (GuideStorage.chatEntry "t2" Scenario.hello)])
           ++ [VObj (GuideStorage.chatEntry "t3" Scenario.hello)].
Proof.
  apply (addChatMessage_keeps_last_100 "t3" "k1" Scenario.hello Scenario.two_messages
           [VObj (GuideStorage.chatEntry "t1" Scenario.hello);
            VObj (GuideStorage.chatEntry "t2" Scenario.hello)]).
  - vm_compute; reflexivity.
  - simpl. lia.
Defined.

Lemma verifyPassword_hashPassword_witness :
  GuideStorage.verifyPassword "secret1" (Some (VStr (GuideStorage.hashPassword "secret1")))
  = true
  ∧ ∃ (l : list value) (o : obj),
      exec (GuideStorage.registerUser "k1" "t0" "t0" "t0" "a@x.com" "secret1" "Ann") ∅
        !! GuideStorage.KEY_USERS = Some (VArr (l ++ [VObj o]))
      ∧ GuideStorage.verifyPassword "secret1" (o !! "password") = true.
Proof.
  split.
  - apply (proj1 verifyPassword_hashPassword "secret1").
  - apply (proj2 verifyPassword_hashPassword "k1" "t0" "t0" "t0" "a@x.com" "secret1" "Ann"
             ∅ Scenario.guide_public).
    vm_compute; reflexivity.
Defined.

End Witnesses.

(** * Further properties of storage.js *)

Section Failures.
Import JS Storage.

(** X1. A call that answers [success: false] has written nothing. *)
Theorem failure_changes_nothing (c : call) (st : store) (message : string) :
  eval (run c) st = Ok (Failure message) → exec (run c) st = st.
Proof.
  intros H. apply run_eq in H. revert H.
  generalize (exec (run c) st). intros st'.
  destruct c; cbn [run].
  - unfold registerUser. run_S. repeat (first [failure_leaf | case_step]).
  - unfold loginUser. run_S. repeat (first [failure_leaf | case_step]).
  - run_S. discriminate.
  - unfold updateUserProfile. run_S. repeat (first [failure_leaf | case_step]).
  - unfold updateUserPassword. run_S. repeat (first [failure_leaf | case_step]).
  - unfold addApplication. run_S. repeat (first [failure_leaf | case_step]).
  - unfold updateApplication. run_S. repeat (first [failure_leaf | case_step]).
  - unfold deleteApplication. run_S. repeat (first [failure_leaf | case_step]).
  - unfold updateApplicationStatus. run_S. repeat (first [failure_leaf | case_step]).
  - unfold importUserData. run_S. repeat (first [failure_leaf | case_step]).
Qed.

End Failures.

Section Logins.
Import JS Storage.


Lemma findUserById_eval (userId : string) (st : store) (u : value) :
  eval (findUserById userId) st = Ok (Some u) →
  ∃ (l : list value) (o : obj) (i : nat),
    eval getUsers st = Ok (VArr l) ∧ u = VObj o
    ∧ arr_findIndex (id_is userId) l = Ok (Some i)
    ∧ l !! i = Some (VObj o)
    ∧ o !! "id" = Some (VStr userId).
Proof.
  run_M.
  destruct (or_else _ _) as [| | | |l|]; cbn -[or_else]; try discriminate.
  destruct (arr_find (id_is userId) l) as [[x|]|] eqn:Hx; cbn -[or_else];
    try discriminate.
  destruct (arr_find_findIndex _ _ _ Hx) as (i & Hi & Hl & Hc).
  destruct (id_is_true _ _ Hc) as (o & -> & Hid). cbn -[or_else].
  intros [= <-]. by exists l, o, i.
Qed.



(** X2. With a non-empty email and password, [loginUser] succeeds exactly
    when the first user whose email matches, letter case aside, stores
    that very password; the session is then that record without its
    password and nothing else is written. *)
Theorem loginUser_succeeds_iff (email password : string) (st : store) (s : obj) :
  email ≠ "" → password ≠ "" →
  (eval (loginUser email password) st = Ok (SuccessUser s)
   ↔ ∃ u : obj,
       eval (findUserByEmail (Some (VStr email))) st = Ok (Some (VObj u))
       ∧ u !! "password" = Some (VStr password)
       ∧ s = sessionUser u)
  ∧ (eval (loginUser email password) st = Ok (SuccessUser s) →
     exec (loginUser email password) st = <[CURRENT_USER_KEY := VObj s]> st).
Proof.
  intros He Hp. apply String.eqb_neq in He, Hp.
  unfold loginUser. rewrite He, Hp. cbn [orb]. run_M.
  destruct (or_else _ _) as [| | | |l|]; cbn -[or_else];
    try (split; [split; [discriminate|intros (u & ? & _); discriminate]|discriminate]).
  destruct (arr_find (email_is (Some (VStr email))) l) as [[x|]|] eqn:Hx;
    cbn -[or_else];
    try (split; [split; [discriminate|intros (u & ? & _); discriminate]|discriminate]).
  destruct (arr_find_email_obj _ _ _ Hx) as (o & ->). cbn -[or_else].
  destruct (o !! "password") as [[| | |pw| |]|] eqn:Hpw; cbn -[or_else];
    try (split; [split; [discriminate|intros (u & [= <-] & ? & _); congruence]
                |discriminate]).
  destruct (String.eqb pw password) eqn:E; cbn -[or_else].
  - apply String.eqb_eq in E. subst pw. split; [split|].
    + intros [= <-]. by exists o.
    + intros (u & [= <-] & _ & ->). done.
    + by intros [= <-].
  - apply String.eqb_neq in E.
    split; [split; [discriminate|intros (u & [= <-] & ? & _); congruence]|discriminate].
Qed.


(** X4. A user who registered with an email free of surrounding white space
    and a string password logs in with that password under any spelling
    of the email that differs in letter case only; the session is the
    new record without its password. *)
Theorem registerUser_then_login
    (entropy now : string) (userData : obj) (st : store) (u : obj)
    (e p e' : string) :
  eval (registerUser entropy now userData) st = Ok (SuccessUser u) →
  userData !! "email" = Some (VStr e) → trim e = e →
  userData !! "password" = Some (VStr p) →
  toLowerCase e' = toLowerCase e →
  eval (loginUser e' p) (exec (registerUser entropy now userData) st)
  = Ok (SuccessUser (sessionUser u)).
Proof.
  intros H He1 Ht Hp Hl. apply run_eq in H.
  set (st' := exec _ st) in *. clearbody st'.
  destruct (registerUser_inv _ _ _ _ _ _ H)
    as (l & name & email & Hu & Hnone & _ & Hemail & Htp & -> & ->).
  rewrite He1 in Hemail, Hnone. injection Hemail as <-.
  assert (Htr : truthy_opt (userData !! "email") = true).
  { revert H. unfold registerUser. by destruct (truthy_opt (userData !! "email")). }
  rewrite He1 in Htr. rewrite Hp in Htp. simpl in Htr, Htp.
  unfold loginUser.
  destruct (String.eqb e' "") eqn:E2.
  { apply String.eqb_eq in E2. subst e'. simpl in Hl. symmetry in Hl.
    apply toLowerCase_empty in Hl. subst e. discriminate. }
  apply negb_true_iff in Htp. rewrite Htp. cbn [orb]. run_M.
  rewrite lookup_insert_ne by discriminate. rewrite lookup_insert_eq. simpl.
  rewrite (arr_find_ext _ (email_is (Some (VStr e)))) by (intros; by apply email_is_lower).
  rewrite (arr_find_app_none _ _ _ Hnone). simpl.
  unfold email_is at 1. cbn [prop]. rewrite newUser_email. simpl.
  rewrite Ht, toLowerCase_idem, String.eqb_refl. simpl.
  rewrite newUser_password, Hp. simpl. by rewrite String.eqb_refl.
Qed.

End Logins.

Section Ownership.
Import JS Storage.

Lemma is_this_true (userId applicationId : string) (x : value) :
  is_this userId applicationId x = Ok true →
  ∃ a : obj, x = VObj a ∧ a !! "id" = Some (VStr applicationId)
             ∧ a !! "userId" = Some (VStr userId).
Proof.
  destruct x; simpl; try discriminate.
  unfold is_this. simpl.
  destruct (o !! "id") as [[| | |i| |]|] eqn:Ei; simpl; try discriminate.
  destruct (String.eqb i applicationId) eqn:E; simpl; try discriminate.
  apply String.eqb_eq in E. subst i.
  destruct (o !! "userId") as [[| | |w| |]|] eqn:Eo; simpl; try discriminate.
  intros [= H]. apply String.eqb_eq in H. subst w. by exists o.
Qed.

Lemma owner_is_obj (userId : string) (a : obj) :
  a !! "userId" = Some (VStr userId) → owner_is userId (VObj a) = Ok true.
Proof. intros H. unfold owner_is. simpl. rewrite H. simpl. by rewrite String.eqb_refl. Qed.

(** X5. A successful [updateApplication] rewrites one application, which
    has the given id and belongs to the given user: the caller's fields
    win over the stored ones, updatedAt is the time of the call whatever
    the fields say, every application of another owner stays as it is,
    and neither the users, with their embedded summaries, nor the
    session are written. *)
Theorem updateApplication_touches_own_only
    (now userId applicationId : string) (applicationData : obj)
    (st : store) (a' : obj) :
  eval (updateApplication now userId applicationId applicationData) st
  = Ok (SuccessApplication a') →
  ∃ (la : list value) (i : nat) (a : obj),
    eval getApplications st = Ok (VArr la)
    ∧ la !! i = Some (VObj a)
    ∧ a !! "id" = Some (VStr applicationId)
    ∧ a !! "userId" = Some (VStr userId)
    ∧ eval getApplications
        (exec (updateApplication now userId applicationId applicationData) st)
      = Ok (VArr (<[i := VObj a']> la))
    ∧ a' !! "updatedAt" = Some (VStr now)
    ∧ (∀ k : string, k ≠ "updatedAt" →
         a' !! k = match applicationData !! k with
                   | Some v => Some v
                   | None => a !! k
                   end)
    ∧ (∀ (j : nat) (x : value),
         la !! j = Some x → owner_is userId x ≠ Ok true →
         <[i := VObj a']> la !! j = Some x)
    ∧ exec (updateApplication now userId applicationId applicationData) st
        !! USERS_KEY = st !! USERS_KEY
    ∧ exec (updateApplication now userId applicationId applicationData) st
        !! CURRENT_USER_KEY = st !! CURRENT_USER_KEY.
Proof.
  intros H. apply run_eq in H. revert H.
  generalize (exec (updateApplication now userId applicationId applicationData) st).
  intros st'. unfold updateApplication. run_M.
  destruct (or_else (Some (default VNull (st !! APPLICATIONS_KEY))) (VArr []))
    as [| | | |la|] eqn:Ha; cbn -[or_else]; try discriminate.
  destruct (arr_findIndex (is_this userId applicationId) la) as [[i|]|] eqn:Hi;
    try discriminate.
  destruct (arr_findIndex_find _ _ _ Hi) as (x & Hli & Hc & _).
  destruct (is_this_true _ _ _ Hc) as (a & -> & Hid & Hown).
  unfold obj_at. rewrite Hli. intros [= <- <-].
  exists la, i, a. repeat split; try done.
  - run_M. rewrite lookup_insert_eq. done.
  - by rewrite lookup_insert_eq.
  - intros k Hk. rewrite lookup_insert_ne by done.
    rewrite lookup_union. by destruct (applicationData !! k), (a !! k).
  - intros j x Hj Hx. destruct (decide (i = j)) as [<-|Hne].
    + rewrite Hli in Hj. injection Hj as <-. exfalso. apply Hx.
      by apply owner_is_obj.
    + by rewrite list_lookup_insert_ne.
  - by rewrite lookup_insert_ne by discriminate.
  - by rewrite lookup_insert_ne by discriminate.
Qed.

Lemma arr_filter_keeps (cb : value → res bool) (l r : list value) (x : value) :
  arr_filter cb l = Ok r → x ∈ l → cb x = Ok true → x ∈ r.
Proof.
  revert r. induction l as [|z l IH]; simpl; intros r.
  - intros _ H. by apply not_elem_of_nil in H.
  - destruct (cb z) as [c|] eqn:E; simpl; [|discriminate].
    destruct (arr_filter cb l) as [r'|]; simpl; [|discriminate].
    intros [= <-] Hx Hc. apply elem_of_cons in Hx as [->|Hx].
    + rewrite Hc in E. injection E as <-. by left.
    + specialize (IH r' eq_refl Hx Hc). destruct c; [by right|done].
Qed.

Lemma arr_filter_total (cb : value → res bool) (l r : list value) (x : value) :
  arr_filter cb l = Ok r → x ∈ l → ∃ b : bool, cb x = Ok b.
Proof.
  revert r. induction l as [|z l IH]; simpl; intros r.
  - intros _ H. by apply not_elem_of_nil in H.
  - destruct (cb z) as [c|] eqn:E; simpl; [|discriminate].
    destruct (arr_filter cb l) as [r'|]; simpl; [|discriminate].
    intros _ Hx. apply elem_of_cons in Hx as [->|Hx]; [eauto|].
    by apply (IH r').
Qed.

Lemma arr_filter_sublist (cb : value → res bool) (l r : list value) :
  arr_filter cb l = Ok r → sublist r l.
Proof.
  revert r. induction l as [|z l IH]; simpl; intros r.
  - intros [= <-]. constructor.
  - destruct (cb z) as [c|]; simpl; [|discriminate].
    destruct (arr_filter cb l) as [r'|]; simpl; [|discriminate].
    intros [= <-]. specialize (IH r' eq_refl).
    destruct c; [by apply sublist_skip|by apply sublist_cons].
Qed.

Lemma not_this_false (userId applicationId : string) (x : value) :
  not_this userId applicationId x = Ok false →
  id_is applicationId x = Ok true ∧ owner_is userId x = Ok true.
Proof.
  unfold not_this, id_is, owner_is.
  destruct (prop x "id") as [i|]; simpl; [|discriminate].
  destruct (is_str i applicationId); simpl; [|discriminate].
  destruct (prop x "userId") as [o|]; simpl; [|discriminate].
  intros [= H]. apply negb_false_iff in H. by rewrite H.
Qed.

(** X6. A successful [deleteApplication] removes at least one application
    and only applications that have the given id and the given owner:
    every other application is still there, in the same order. *)
Theorem deleteApplication_keeps_others
    (userId applicationId : string) (st : store) (m : string) :
  eval (deleteApplication userId applicationId) st = Ok (SuccessMessage m) →
  ∃ la la' : list value,
    eval getApplications st = Ok (VArr la)
    ∧ eval getApplications (exec (deleteApplication userId applicationId) st)
      = Ok (VArr la')
    ∧ (List.length la' < List.length la)%nat
    ∧ sublist la' la
    ∧ (∀ x : value, x ∈ la →
         ¬ (id_is applicationId x = Ok true ∧ owner_is userId x = Ok true) →
         x ∈ la').
Proof.
  intros H. apply run_eq in H.
  set (st' := exec _ st) in *. clearbody st'.
  destruct (deleteApplication_inv _ _ _ _ _ H)
    as (la & la' & lu & Hla & Hf & Hn & Hlu & Hcase).
  exists la, la'. split; [done|]. split; [|split; [|split]].
  - destruct Hcase as [(_ & ->)|(i & u & ls & ls' & _ & _ & _ & _ & _ & ->)]; run_M.
    + by rewrite lookup_insert_eq.
    + rewrite !lookup_insert_ne by discriminate. by rewrite lookup_insert_eq.
  - pose proof (arr_filter_length _ _ _ Hf). lia.
  - by apply (arr_filter_sublist _ _ _ Hf).
  - intros x Hx Hnot. apply (arr_filter_keeps _ _ _ _ Hf Hx).
    destruct (arr_filter_total _ _ _ _ Hf Hx) as ([|] & Hb); [done|].
    exfalso. apply Hnot. by apply not_this_false.
Qed.

End Ownership.

Section Statistics.
Import JS Storage.

Lemma is_str_same (v : option value) (s1 s2 : string) :
  is_str v s1 = true → is_str v s2 = true → s1 = s2.
Proof.
  destruct v as [[| | |t| |]|]; simpl; try discriminate.
  intros H1 H2. apply String.eqb_eq in H1, H2. congruence.
Qed.

Lemma status_is_eq (s : string) (x : value) :
  status_is s x = (v ← prop x "status"; Ok (is_str v s)).
Proof. done. Qed.

Lemma status_counts (l p a r d : list value) :
  arr_filter (status_is "pending") l = Ok p →
  arr_filter (status_is "approved") l = Ok a →
  arr_filter (status_is "rejected") l = Ok r →
  arr_filter (status_is "draft") l = Ok d →
  (List.length p + List.length a + List.length r + List.length d ≤ List.length l)%nat.
Proof.
  revert p a r d. induction l as [|x l IH]; intros p a r d.
  - intros [= <-] [= <-] [= <-] [= <-]. simpl. lia.
  - cbn [arr_filter]. rewrite !status_is_eq.
    destruct (prop x "status") as [v|]; simpl; [|discriminate].
    destruct (arr_filter (status_is "pending") l) as [p'|]; simpl; [|discriminate].
    destruct (arr_filter (status_is "approved") l) as [a'|]; simpl; [|discriminate].
    destruct (arr_filter (status_is "rejected") l) as [r'|]; simpl; [|discriminate].
    destruct (arr_filter (status_is "draft") l) as [d'|]; simpl; [|discriminate].
    specialize (IH p' a' r' d' eq_refl eq_refl eq_refl eq_refl).
    intros [= <-] [= <-] [= <-] [= <-].
    destruct (is_str v "pending") eqn:E1, (is_str v "approved") eqn:E2,
             (is_str v "rejected") eqn:E3, (is_str v "draft") eqn:E4;
      simpl;
      try lia;
      repeat match goal with
             | H1 : is_str v ?s1 = true, H2 : is_str v ?s2 = true |- _ =>
                 pose proof (is_str_same _ _ _ H1 H2); discriminate
             end.
Qed.

(** X7. The statistics of a user never count an application twice: the
    total is the number of the user's applications in the canonical
    collection, and the four status counts add up to at most that
    total. *)
Theorem getUserApplicationStats_bounds (userId : string) (st : store) (s : stats) :
  eval (getUserApplicationStats userId) st = Ok s →
  ∃ applications : list value,
    eval (getUserApplications userId) st = Ok applications
    ∧ total s = List.length applications
    ∧ (pending s + approved s + rejected s + draft s ≤ total s)%nat.
Proof.
  unfold getUserApplicationStats, eval at 1.
  cbv beta iota zeta delta [mbind mret M_bind M_ret lift fst].
  destruct (getUserApplications userId st) as [[apps|] st1] eqn:Hg; [|discriminate].
  destruct (arr_filter (status_is "pending") apps) as [p|] eqn:Hp; [|discriminate].
  destruct (arr_filter (status_is "approved") apps) as [a|] eqn:Ha; [|discriminate].
  destruct (arr_filter (status_is "rejected") apps) as [r|] eqn:Hr; [|discriminate].
  destruct (arr_filter (status_is "draft") apps) as [d|] eqn:Hd; [|discriminate].
  intros [= <-]. exists apps. split; [|split].
  - unfold eval. by rewrite Hg.
  - done.
  - simpl. by apply (status_counts apps).
Qed.

Lemma getUserApplications_state (userId : string) (st : store) :
  snd (getUserApplications userId st) = st.
Proof.
  run_M. by destruct (as_array _).
Qed.

Lemma newApplication_status (entropy now1 now2 userId : string) (applicationData : obj) :
  applicationData !! "status" = None →
  newApplication entropy now1 now2 userId applicationData !! "status"
  = Some (VStr "pending").
Proof.
  intros H. unfold newApplication. rewrite lookup_union_r by done.
  rewrite !lookup_insert_ne by discriminate. by rewrite lookup_insert_eq.
Qed.


(** What [getUserApplications] reads after [addApplication]. *)
Lemma addApplication_user_applications
    (entropy now1 now2 userId : string) (applicationData : obj)
    (st : store) (app : obj) (before : list value) :
  applicationData !! "userId" = None
  ∨ applicationData !! "userId" = Some (VStr userId) →
  eval (addApplication entropy now1 now2 userId applicationData) st
    = Ok (SuccessApplication app) →
  eval (getUserApplications userId) st = Ok before →
  eval (getUserApplications userId)
    (exec (addApplication entropy now1 now2 userId applicationData) st)
  = Ok (before ++ [VObj app]).
Proof.
  intros Hown H. apply run_eq in H.
  set (st' := exec _ st) in *. clearbody st'.
  destruct (addApplication_inv _ _ _ _ _ _ _ _ H)
    as (la & lu & i & u & ls & -> & Hla & Hlu & Hi & Hli & Hid & Hls & ->).
  apply getApplications_eval in Hla. run_M. rewrite Hla.
  rewrite !lookup_insert_ne by discriminate. rewrite lookup_insert_eq. simpl.
  destruct (arr_filter (owner_is userId) la) as [r|] eqn:Hr; try discriminate.
  intros [= <-].
  by rewrite (arr_filter_app _ _ _ _ true Hr) by (by apply newApplication_owner).
Qed.

(** X8. An application added without a status and without an owner of its
    own is counted once, as pending: total and pending go up by one and
    the other counts stay. *)
Theorem addApplication_counts_as_pending
    (entropy now1 now2 userId : string) (applicationData : obj)
    (st : store) (app : obj) (s : stats) :
  applicationData !! "userId" = None →
  applicationData !! "status" = None →
  eval (addApplication entropy now1 now2 userId applicationData) st
    = Ok (SuccessApplication app) →
  eval (getUserApplicationStats userId) st = Ok s →
  eval (getUserApplicationStats userId)
    (exec (addApplication entropy now1 now2 userId applicationData) st)
  = Ok (Stats (S (total s)) (S (pending s)) (approved s) (rejected s) (draft s)).
Proof.
  intros Hu Hs Hadd Hstats.
  assert (Happ : app = newApplication entropy now1 now2 userId applicationData).
  { pose proof (run_eq _ _ _ Hadd) as H.
    by destruct (addApplication_inv _ _ _ _ _ _ _ _ H) as (? & ? & ? & ? & ? & -> & _). }
  revert Hstats. unfold getUserApplicationStats, eval.
  cbv beta iota zeta delta [mbind mret M_bind M_ret lift fst].
  destruct (getUserApplications userId st) as [[apps|] st1] eqn:Hg; [|discriminate].
  assert (Hb : eval (getUserApplications userId) st = Ok apps)
    by (unfold eval; by rewrite Hg).
  pose proof (addApplication_user_applications _ _ _ _ _ _ _ _ (or_introl Hu) Hadd Hb) as Ha.
  unfold eval in Ha.
  destruct (getUserApplications userId
              (exec (addApplication entropy now1 now2 userId applicationData) st))
    as [r2 st2] eqn:Hg2.
  simpl in Ha. subst r2.
  destruct (arr_filter (status_is "pending") apps) as [p|] eqn:Hp; [|discriminate].
  destruct (arr_filter (status_is "approved") apps) as [a|] eqn:Hap; [|discriminate].
  destruct (arr_filter (status_is "rejected") apps) as [r|] eqn:Hr; [|discriminate].
  destruct (arr_filter (status_is "draft") apps) as [d|] eqn:Hd; [|discriminate].
  intros [= <-].
  assert (Hst : ∀ s0 : string,
            status_is s0 (VObj app) = Ok (String.eqb "pending" s0)).
  { intros s0. unfold status_is. simpl. subst app.
    by rewrite newApplication_status. }
  rewrite (arr_filter_app _ _ _ _ _ Hp (Hst "pending")).
  rewrite (arr_filter_app _ _ _ _ _ Hap (Hst "approved")).
  rewrite (arr_filter_app _ _ _ _ _ Hr (Hst "rejected")).
  rewrite (arr_filter_app _ _ _ _ _ Hd (Hst "draft")).
  simpl. rewrite !app_nil_r, !length_app. simpl.
  by rewrite !Nat.add_1_r.
Qed.

End Statistics.

Section RoundTrip.
Import JS Storage.


Lemma arr_find_none_all (cb : value → res bool) (l : list value) (x : value) :
  arr_find cb l = Ok None → x ∈ l → cb x = Ok false.
Proof.
  induction l as [|z l IH]; simpl.
  - intros _ H. by apply not_elem_of_nil in H.
  - destruct (cb z) as [[|]|] eqn:E; simpl; try discriminate.
    intros H Hx. apply elem_of_cons in Hx as [->|Hx]; [done|by apply IH].
Qed.

Lemma arr_filter_all (cb : value → res bool) (l : list value) :
  (∀ x, x ∈ l → cb x = Ok true) → arr_filter cb l = Ok l.
Proof.
  induction l as [|z l IH]; simpl; intros H; [done|].
  rewrite (H z) by (by left). simpl.
  rewrite IH; [done|]. intros x Hx. apply H. by right.
Qed.





(** X10. After a successful [addApplication] the session snapshot is the
    stored record of that user without its password: the embedded
    summary in the session is the one in the users collection. *)
Theorem addApplication_session_mirrors_user
    (entropy now1 now2 userId : string) (applicationData : obj)
    (st : store) (app : obj) :
  eval (addApplication entropy now1 now2 userId applicationData) st
    = Ok (SuccessApplication app) →
  ∃ u' : obj,
    eval (findUserById userId)
      (exec (addApplication entropy now1 now2 userId applicationData) st)
    = Ok (Some (VObj u'))
    ∧ exec (addApplication entropy now1 now2 userId applicationData) st
        !! CURRENT_USER_KEY = Some (VObj (sessionUser u')).
Proof.
  intros H.
  apply run_eq in H. set (st' := exec _ st) in *. clearbody st'.
  destruct (addApplication_inv _ _ _ _ _ _ _ _ H)
    as (la & lu & i & u & ls & -> & Hla & Hlu & Hi & Hli & Hid & Hls & ->).
  eexists. split; [|by rewrite lookup_insert_eq].
  run_M. rewrite lookup_insert_ne by discriminate. rewrite lookup_insert_eq.
  simpl. rewrite (arr_find_insert _ _ _ _ Hi); [done|].
  apply id_is_obj. by rewrite lookup_insert_ne by discriminate.
Qed.

(** X11. The same after a successful [deleteApplication] for a user who
    exists: the session is rewritten from the stored record, whoever
    was logged in before. *)
Theorem deleteApplication_session_mirrors_user
    (userId applicationId : string) (st : store) (m : string) (u : value) :
  eval (deleteApplication userId applicationId) st = Ok (SuccessMessage m) →
  eval (findUserById userId) st = Ok (Some u) →
  ∃ u' : obj,
    eval (findUserById userId) (exec (deleteApplication userId applicationId) st)
    = Ok (Some (VObj u'))
    ∧ exec (deleteApplication userId applicationId) st !! CURRENT_USER_KEY
      = Some (VObj (sessionUser u')).
Proof.
  intros H Hu.
  apply run_eq in H. set (st' := exec _ st) in *. clearbody st'.
  destruct (deleteApplication_inv _ _ _ _ _ H)
    as (la & la' & lu & Hla & Hf & Hn & Hlu & Hcase).
  destruct Hcase as [(Hi & ->)|(i & uo & ls & ls' & Hi & Hli & Hid & Hs & Hs' & ->)].
  - exfalso. revert Hu. apply getUsers_eval in Hlu. run_M. rewrite Hlu.
    cbn [as_array]. by rewrite (arr_findIndex_none_find _ _ Hi).
  - eexists. split; [|by rewrite lookup_insert_eq].
    run_M. rewrite lookup_insert_ne by discriminate. rewrite lookup_insert_eq.
    simpl. rewrite (arr_find_insert _ _ _ _ Hi); [done|].
    apply id_is_obj. by rewrite lookup_insert_ne by discriminate.
Qed.

End RoundTrip.

Section Portability.
Import JS Storage.

Lemma arr_filter_append (cb : value → res bool) (l l' r r' : list value) :
  arr_filter cb l = Ok r → arr_filter cb l' = Ok r' →
  arr_filter cb (l ++ l') = Ok (r ++ r').
Proof.
  revert r. induction l as [|z l IH]; simpl; intros r.
  - by intros [= <-] ->.
  - destruct (cb z) as [c|]; simpl; [|discriminate].
    destruct (arr_filter cb l) as [r0|]; simpl; [|discriminate].
    intros [= <-] H'. rewrite (IH r0 eq_refl H'). simpl. by destruct c.
Qed.

Lemma arr_filter_idem (cb : value → res bool) (l r : list value) :
  arr_filter cb l = Ok r → arr_filter cb r = Ok r.
Proof.
  intros H. apply arr_filter_all. intros x Hx.
  by destruct (arr_filter_elem _ _ _ _ H Hx).
Qed.

Lemma importUserData_inv (data : obj) (st st' : store) (m : string) :
  importUserData data st = (Ok (SuccessMessage m), st') →
  ∃ (user : value) (email : value) (l : list value),
    data !! "user" = Some user
    ∧ prop user "email" = Ok (Some email)
    ∧ truthy email = true
    ∧ eval getUsers st = Ok (VArr l)
    ∧ arr_find (email_is (Some email)) l = Ok None
    ∧ ((arrayOf (data !! "applications") = None
        ∧ st' = <[USERS_KEY := VArr (l ++ [user])]> st)
       ∨ (∃ imported la : list value,
            arrayOf (data !! "applications") = Some imported
            ∧ eval getApplications st = Ok (VArr la)
            ∧ st' = <[APPLICATIONS_KEY := VArr (la ++ imported)]>
                      (<[USERS_KEY := VArr (l ++ [user])]> st))).
Proof.
  unfold importUserData.
  destruct (data !! "user") as [user|] eqn:Hu; [|discriminate].
  destruct (truthy user) eqn:Ht; cbn [negb]; [|discriminate].
  run_M.
  destruct (prop user "email") as [[email|]|] eqn:He; cbn -[or_else]; try discriminate.
  destruct (truthy email) eqn:Hte; cbn -[or_else]; [|discriminate].
  destruct (or_else (Some (default VNull (st !! USERS_KEY))) (VArr []))
    as [| | | |l|] eqn:Hl; cbn -[or_else]; try discriminate.
  destruct (arr_find (email_is (Some email)) l) as [[x|]|] eqn:Hx; cbn -[or_else];
    try discriminate.
  { destruct (arr_find_email_obj _ _ _ Hx) as (o & ->). discriminate. }
  rewrite Hl. cbn -[or_else].
  destruct (arrayOf (data !! "applications")) as [imported|] eqn:Ha; cbn -[or_else].
  - rewrite lookup_insert_ne by discriminate.
    destruct (or_else (Some (default VNull (st !! APPLICATIONS_KEY))) (VArr []))
      as [| | | |la|] eqn:Hla; cbn -[or_else]; try discriminate.
    intros [= <- <-]. exists user, email, l. repeat split; try done.
    right. by exists imported, la.
  - intros [= <- <-]. exists user, email, l. repeat split; try done. by left.
Qed.

(** X12. An import that succeeded cannot be repeated: the second import of
    the same data, whose user has a string for an email, is refused
    because the user now exists, and writes nothing. The first import
    leaves the session as it was. *)
Theorem importUserData_only_once (data : obj) (st : store) (m : string)
    (user : obj) (e : string) :
  data !! "user" = Some (VObj user) →
  user !! "email" = Some (VStr e) →
  eval (importUserData data) st = Ok (SuccessMessage m) →
  importUserData data (exec (importUserData data) st)
  = (Ok (Failure "User already exists. Please login to import data."),
     exec (importUserData data) st)
  ∧ exec (importUserData data) st !! CURRENT_USER_KEY = st !! CURRENT_USER_KEY.
Proof.
  intros Hu He H. apply run_eq in H.
  set (st' := exec _ st) in *. clearbody st'.
  destruct (importUserData_inv _ _ _ _ H)
    as (user' & email & l & Hu' & Hpe & Ht & Hl & Hnone & Hcase).
  rewrite Hu in Hu'. injection Hu' as <-. simpl in Hpe. rewrite He in Hpe.
  injection Hpe as <-. simpl in Ht.
  assert (Hfound : arr_find (email_is (Some (VStr e))) (l ++ [VObj user])
                   = Ok (Some (VObj user))).
  { rewrite (arr_find_app_none _ _ _ Hnone). simpl. unfold email_is. simpl.
    rewrite He. simpl. by rewrite String.eqb_refl. }
  assert (Husers : st' !! USERS_KEY = Some (VArr (l ++ [VObj user]))).
  { destruct Hcase as [(_ & ->)|(imported & la & _ & _ & ->)].
    - by rewrite lookup_insert_eq.
    - rewrite lookup_insert_ne by discriminate. by rewrite lookup_insert_eq. }
  split.
  - unfold importUserData. rewrite Hu. simpl. run_M. rewrite He. simpl.
    rewrite Ht. simpl. rewrite Husers. simpl. rewrite Hfound. done.
  - destruct Hcase as [(_ & ->)|(imported & la & _ & _ & ->)];
      by rewrite !lookup_insert_ne by discriminate.
Qed.

Lemma exportUserData_inv (now userId : string) (st : store) (data : obj) :
  eval (exportUserData now userId) st = Ok (Some data) →
  ∃ (u : obj) (applications : list value),
    eval (findUserById userId) st = Ok (Some (VObj u))
    ∧ eval (getUserApplications userId) st = Ok applications
    ∧ data = {[ "exportDate" := VStr now;
                "user" := VObj (with_prop "id" (u !! "id")
                            (with_prop "name" (u !! "name")
                               (with_prop "email" (u !! "email")
                                  (with_prop "createdAt" (u !! "createdAt")
                                     (with_prop "profile" (u !! "profile") ∅)))));
                "applications" := VArr applications ]}.
Proof.
  unfold exportUserData, eval.
  cbv beta iota zeta delta [mbind mret M_bind M_ret lift fst].
  destruct (findUserById userId st) as [[[u|]|] st1] eqn:Hf; try discriminate.
  - assert (Hst1 : st1 = st).
    { revert Hf. run_M. destruct (as_array _); [|by intros [= _ <-]].
      destruct (arr_find _ _); by intros [= _ <-]. }
    subst st1.
    destruct (getUserApplications userId st) as [[apps|] st2] eqn:Hg; try discriminate.
    assert (Hu : eval (findUserById userId) st = Ok (Some u))
      by (unfold eval; by rewrite Hf).
    destruct (findUserById_eval _ _ _ Hu) as (l & o & i & _ & -> & _ & _ & _).
    cbn [prop]. intros [= <-]. exists o, apps. split; [done|]. by split.
  - destruct (getUserApplications userId st1) as [[apps|] st2]; discriminate.
Qed.

Lemma with_prop_lookup_ne (k k' : string) (v : option value) (o : obj) :
  k ≠ k' → with_prop k v o !! k' = o !! k'.
Proof.
  intros H. unfold with_prop. destruct v.
  - by rewrite lookup_insert_ne.
  - by rewrite lookup_delete_ne.
Qed.

Lemma with_prop_lookup (k : string) (v : option value) (o : obj) :
  with_prop k v o !! k = v.
Proof.
  unfold with_prop. destruct v.
  - by rewrite lookup_insert_eq.
  - by rewrite lookup_delete_eq.
Qed.

(** X13. What is exported and imported again: the user's applications are
    appended to the canonical collection of the importing store and all
    of them show up under the user; the imported record has the email
    of the original, but no password and no embedded summary. *)
Theorem export_then_import
    (now userId : string) (st st2 : store) (data : obj) (m : string)
    (before : list value) :
  eval (exportUserData now userId) st = Ok (Some data) →
  eval (importUserData data) st2 = Ok (SuccessMessage m) →
  eval (getUserApplications userId) st2 = Ok before →
  ∃ (u record : obj) (applications l : list value),
    eval (findUserById userId) st = Ok (Some (VObj u))
    ∧ eval (getUserApplications userId) st = Ok applications
    ∧ eval (getUserApplications userId) (exec (importUserData data) st2)
      = Ok (before ++ applications)
    ∧ eval getUsers st2 = Ok (VArr l)
    ∧ eval getUsers (exec (importUserData data) st2) = Ok (VArr (l ++ [VObj record]))
    ∧ record !! "email" = u !! "email"
    ∧ record !! "id" = u !! "id"
    ∧ record !! "password" = None
    ∧ record !! "applications" = None.
Proof.
  intros Hexp Himp Hbefore.
  destruct (exportUserData_inv _ _ _ _ Hexp) as (u & apps & Hu & Happs & ->).
  apply run_eq in Himp. set (st' := exec _ st2) in *. clearbody st'.
  destruct (importUserData_inv _ _ _ _ Himp)
    as (user & email & l & Hduser & _ & _ & Hl & _ & Hcase).
  rewrite lookup_insert_ne in Hduser by discriminate.
  rewrite lookup_insert_eq in Hduser. injection Hduser as <-.
  destruct Hcase as [(Hnone & _)|(imported & la & Hsome & Hla & ->)].
  { rewrite !lookup_insert_ne in Hnone by discriminate.
    rewrite lookup_singleton_eq in Hnone. discriminate. }
  rewrite !lookup_insert_ne in Hsome by discriminate.
  rewrite lookup_singleton_eq in Hsome. injection Hsome as <-.
  eexists u, _, apps, l. split; [done|]. split; [done|]. split; [|split; [done|split]].
  - assert (Hown : arr_filter (owner_is userId) apps = Ok apps).
    { revert Happs. run_M. destruct (as_array _) as [la0|]; [|discriminate].
      intros H. by apply (arr_filter_idem _ la0). }
    revert Hbefore. apply getApplications_eval in Hla. run_M. rewrite Hla.
    rewrite lookup_insert_eq. simpl. intros H.
    by apply arr_filter_append.
  - run_M. rewrite lookup_insert_ne by discriminate. by rewrite lookup_insert_eq.
  - repeat split.
    + rewrite !with_prop_lookup_ne by discriminate. apply with_prop_lookup.
    + apply with_prop_lookup.
    + by rewrite !with_prop_lookup_ne by discriminate.
    + by rewrite !with_prop_lookup_ne by discriminate.
Qed.

(** X14. An account that was exported and imported cannot log in: the export
    carries no password, so for every spelling of its email and every
    password [loginUser] answers that the password is incorrect. *)
Theorem imported_user_cannot_log_in
    (now userId : string) (st st2 : store) (data : obj) (m : string)
    (u : obj) (e e' p : string) :
  eval (exportUserData now userId) st = Ok (Some data) →
  eval (findUserById userId) st = Ok (Some (VObj u)) →
  u !! "email" = Some (VStr e) →
  eval (importUserData data) st2 = Ok (SuccessMessage m) →
  toLowerCase e' = toLowerCase e → e' ≠ "" → p ≠ "" →
  eval (loginUser e' p) (exec (importUserData data) st2)
  = Ok (Failure "Incorrect password. Please try again.").
Proof.
  intros Hexp Hfind He Himp Hlow He' Hp.
  destruct (exportUserData_inv _ _ _ _ Hexp) as (u0 & apps & Hu & Happs & ->).
  rewrite Hfind in Hu. injection Hu as <-.
  apply run_eq in Himp. set (st' := exec _ st2) in *. clearbody st'.
  destruct (importUserData_inv _ _ _ _ Himp)
    as (user & email & l & Hduser & Hpe & _ & Hl & Hnone & Hcase).
  rewrite lookup_insert_ne in Hduser by discriminate.
  rewrite lookup_insert_eq in Hduser. injection Hduser as <-.
  simpl in Hpe. rewrite !with_prop_lookup_ne in Hpe by discriminate.
  rewrite with_prop_lookup, He in Hpe. injection Hpe as <-.
  set (record := with_prop "id" _ _) in *.
  assert (Hre : record !! "email" = Some (VStr e)).
  { unfold record. rewrite !with_prop_lookup_ne by discriminate.
    by rewrite with_prop_lookup. }
  assert (Hrp : record !! "password" = None).
  { unfold record. by rewrite !with_prop_lookup_ne by discriminate. }
  clearbody record.
  assert (Husers : st' !! USERS_KEY = Some (VArr (l ++ [VObj record]))).
  { destruct Hcase as [(_ & ->)|(imported & la & _ & _ & ->)].
    - by rewrite lookup_insert_eq.
    - rewrite lookup_insert_ne by discriminate. by rewrite lookup_insert_eq. }
  unfold loginUser. apply String.eqb_neq in He', Hp. rewrite He', Hp. cbn [orb].
  run_M. rewrite Husers. simpl.
  rewrite (arr_find_ext _ (email_is (Some (VStr e)))) by (intros; by apply email_is_lower).
  rewrite (arr_find_app_none _ _ _ Hnone). simpl.
  unfold email_is at 1. simpl. rewrite Hre. simpl. rewrite String.eqb_refl. simpl.
  by rewrite Hrp.
Qed.

End Portability.

(** * Further properties of the second module *)

Section Isolation.
Import JS GuideStorage.

(** Two per-user keys are the same key only for the same store and the
    same user. *)
Lemma per_user_key_inj (P P' a b : string) :
  P ∈ perUserPrefixes → P' ∈ perUserPrefixes →
  P +:+ a = P' +:+ b → P = P' ∧ a = b.
Proof.
  unfold perUserPrefixes. intros HP HP'.
  repeat (apply elem_of_cons in HP as [->|HP]);
    try (by apply not_elem_of_nil in HP);
    repeat (apply elem_of_cons in HP' as [->|HP']);
    try (by apply not_elem_of_nil in HP');
    cbn; intros H; first [discriminate H | by injection H].
Qed.

Lemma per_user_key_not_global (P a : string) :
  P ∈ perUserPrefixes →
  P +:+ a ≠ KEY_USERS ∧ P +:+ a ≠ KEY_CURRENT_USER.
Proof.
  unfold perUserPrefixes. intros HP.
  repeat (apply elem_of_cons in HP as [->|HP]);
    try (by apply not_elem_of_nil in HP);
    split; cbn; discriminate.
Qed.

(** What a writer writes lies under its owner's keys. *)
Lemma perform_frame (w : write) (st : store) (k : string) :
  (∀ P, P ∈ perUserPrefixes → k ≠ P +:+ owner w) →
  exec (perform w) st !! k = st !! k.
Proof.
  intros Hk.
  assert (Hd : k ≠ KEY_USER_DATA +:+ owner w) by (apply Hk; set_solver).
  assert (Ho : k ≠ KEY_DOCUMENTS +:+ owner w) by (apply Hk; set_solver).
  assert (Hf : k ≠ KEY_FORMS +:+ owner w) by (apply Hk; set_solver).
  assert (Hc : k ≠ KEY_CHAT_HISTORY +:+ owner w) by (apply Hk; set_solver).
  assert (Hp : k ≠ KEY_CIVICS_PROGRESS +:+ owner w) by (apply Hk; set_solver).
  destruct w; cbn [perform owner] in *.
  - unfold addChatMessage, getChatHistory. run_M.
    destruct (as_array _); cbn [snd]; [|done]. by rewrite lookup_insert_ne.
  - unfold clearChatHistory. run_M. by rewrite lookup_insert_ne.
  - unfold addDocument, getDocuments. run_M.
    destruct (as_array _); cbn [snd]; [|done]. by rewrite lookup_insert_ne.
  - unfold deleteDocument, getDocuments. run_M.
    destruct (as_array _); cbn [snd]; [|done].
    destruct (arr_filter _ _); cbn [snd]; [|done]. by rewrite lookup_insert_ne.
  - unfold updateUserData, getUserData. run_M. by rewrite lookup_insert_ne.
  - unfold updateCivicsProgress, getCivicsProgress. run_M. by rewrite lookup_insert_ne.
  - unfold initializeUserData. run_M. by rewrite !lookup_insert_ne.
Qed.

(** X15. Whatever is written for one user (chat, documents, user data,
    civics progress, the initial blobs), the five stores of every other
    user, the users collection and the session stay as they are. *)
Theorem per_user_stores_are_isolated (w : write) (st : store) (other P : string) :
  other ≠ owner w → P ∈ perUserPrefixes →
  exec (perform w) st !! (P +:+ other) = st !! (P +:+ other)
  ∧ exec (perform w) st !! KEY_USERS = st !! KEY_USERS
  ∧ exec (perform w) st !! KEY_CURRENT_USER = st !! KEY_CURRENT_USER.
Proof.
  intros Hne HP. split; [|split]; apply perform_frame; intros P' HP' E.
  - destruct (per_user_key_inj _ _ _ _ HP HP' E) as [_ ?]. done.
  - symmetry in E. by apply (per_user_key_not_global _ _ HP') in E.
  - symmetry in E. by apply (per_user_key_not_global _ _ HP') in E.
Qed.

End Isolation.

Section Documents.
Import JS GuideStorage.

Lemma getDocuments_eval (userId : string) (st : store) (l : list value) :
  eval (getDocuments userId) st = Ok (VArr l) →
  parsed_or (VArr []) (st !! (KEY_DOCUMENTS +:+ userId)) = VArr l.
Proof. intros H. injection H as H. exact H. Qed.

(** X16. [deleteDocument] removes every document with the given id and no
    other: what is left are the documents with another id, in their
    order, and a second delete changes nothing more. *)
Theorem deleteDocument_removes_exactly
    (userId documentId : string) (st : store) (l : list value) :
  eval (getDocuments userId) st = Ok (VArr l) →
  eval (deleteDocument userId documentId) st = Ok () →
  ∃ l' : list value,
    eval (getDocuments userId) (exec (deleteDocument userId documentId) st)
    = Ok (VArr l')
    ∧ sublist l' l
    ∧ (∀ d : value, d ∈ l' ↔ d ∈ l ∧ id_is_not documentId d = Ok true)
    ∧ exec (deleteDocument userId documentId)
        (exec (deleteDocument userId documentId) st)
      = exec (deleteDocument userId documentId) st.
Proof.
  intros Hl. apply getDocuments_eval in Hl.
  unfold deleteDocument, getDocuments. run_M. rewrite Hl. cbn [as_array].
  destruct (arr_filter (id_is_not documentId) l) as [l'|] eqn:Hf; [|discriminate].
  intros _. exists l'. split; [|split; [|split]].
  - by rewrite lookup_insert_eq.
  - by apply (arr_filter_sublist _ _ _ Hf).
  - intros d. split.
    + intros Hd. by apply (arr_filter_elem _ _ _ _ Hf).
    + intros [Hd Hc]. by apply (arr_filter_keeps _ _ _ _ Hf).
  - rewrite lookup_insert_eq. cbn [parsed_or as_array].
    rewrite (arr_filter_idem _ _ _ Hf). cbn [snd]. by rewrite insert_insert_eq.
Qed.

(** X17. A document added under an id no stored document has, and deleted
    again, leaves the stored documents as they were. *)
Theorem addDocument_then_delete
    (entropy now userId : string) (document : obj) (st : store) (l : list value) :
  eval (getDocuments userId) st = Ok (VArr l) →
  (∀ d : value, d ∈ l → id_is_not entropy d = Ok true) →
  eval (getDocuments userId)
    (exec (deleteDocument userId entropy)
       (exec (addDocument entropy now userId document) st))
  = Ok (VArr l)
  ∧ eval (getDocuments userId) (exec (addDocument entropy now userId document) st)
    = Ok (VArr (l ++ [VObj (newDocument entropy now document)])).
Proof.
  intros Hl Hfresh. apply getDocuments_eval in Hl.
  assert (Hid : newDocument entropy now document !! "id" = Some (VStr entropy)).
  { unfold newDocument. rewrite !with_prop_lookup_ne by discriminate.
    by rewrite lookup_insert_eq. }
  assert (Hf : arr_filter (id_is_not entropy) (l ++ [VObj (newDocument entropy now document)])
               = Ok l).
  { rewrite (arr_filter_app _ l _ l false).
    - by rewrite app_nil_r.
    - by apply arr_filter_all.
    - unfold id_is_not. simpl. rewrite Hid. simpl. by rewrite String.eqb_refl. }
  unfold deleteDocument, addDocument, getDocuments. run_M. rewrite Hl.
  cbn [as_array snd]. rewrite lookup_insert_eq. cbn [parsed_or as_array].
  rewrite Hf. cbn [snd]. by rewrite lookup_insert_eq.
Qed.


End Documents.

Section Clearing.
Import JS GuideStorage.

Lemma remove_keys_lookup (prefix : string) (keys : list string) (st : store) (k : string) :
  foldr (fun key acc => if String.prefix prefix key then delete key acc else acc) st keys
    !! k
  = if String.prefix prefix k && bool_decide (k ∈ keys) then None else st !! k.
Proof.
  induction keys as [|key keys IH]; simpl.
  - by rewrite andb_false_r.
  - destruct (String.prefix prefix key) eqn:Hp.
    + destruct (decide (key = k)) as [->|Hne].
      * rewrite lookup_delete_eq, Hp. simpl.
        by rewrite bool_decide_eq_true_2 by (by left).
      * rewrite lookup_delete_ne by done. rewrite IH.
        destruct (String.prefix prefix k); [|done]. simpl.
        destruct (bool_decide (k ∈ keys)) eqn:E.
        -- apply bool_decide_eq_true in E.
           by rewrite bool_decide_eq_true_2 by (by right).
        -- apply bool_decide_eq_false in E.
           rewrite bool_decide_eq_false_2; [done|].
           intros [?|?]%elem_of_cons; [congruence|done].
    + rewrite IH. destruct (String.prefix prefix k) eqn:Hk; [|done]. simpl.
      destruct (bool_decide (k ∈ keys)) eqn:E.
      * apply bool_decide_eq_true in E.
        by rewrite bool_decide_eq_true_2 by (by right).
      * apply bool_decide_eq_false in E.
        rewrite bool_decide_eq_false_2; [done|].
        intros [?|?]%elem_of_cons; [congruence|done].
Qed.

Lemma removeKeysWithPrefix_lookup (prefix : string) (st : store) (k : string) :
  removeKeysWithPrefix prefix st !! k
  = if String.prefix prefix k then None else st !! k.
Proof.
  unfold removeKeysWithPrefix. rewrite remove_keys_lookup.
  destruct (String.prefix prefix k); [|done]. simpl.
  destruct (bool_decide (k ∈ (map_to_list st).*1)) eqn:E; [done|].
  apply bool_decide_eq_false in E.
  destruct (st !! k) as [v|] eqn:Hk; [|done].
  exfalso. apply E. apply list_elem_of_fmap. exists (k, v). split; [done|].
  by apply elem_of_map_to_list.
Qed.

(** X19. [clearAllData] with somebody logged in removes the session and
    nothing else, so every registered user and every blob stays; with
    nobody logged in it removes every key that starts with visa_guide_,
    the users collection among them, and leaves all other keys. *)
Theorem clearAllData_lookup (st : store) (k : string) :
  exec clearAllData st !! k
  = if truthy (parsed_or VNull (st !! KEY_CURRENT_USER))
    then (if String.eqb k KEY_CURRENT_USER then None else st !! k)
    else (if String.prefix "visa_guide_" k then None else st !! k).
Proof.
  unfold clearAllData, getCurrentUser. run_M.
  destruct (truthy (parsed_or VNull (st !! KEY_CURRENT_USER))); cbn [snd].
  - destruct (String.eqb k KEY_CURRENT_USER) eqn:E.
    + apply String.eqb_eq in E. subst k. by rewrite lookup_delete_eq.
    + apply String.eqb_neq in E. by rewrite lookup_delete_ne.
  - apply removeKeysWithPrefix_lookup.
Qed.

End Clearing.

Section Hashing.
Import JS GuideStorage.

Lemma to_int32_spec (z : Z) : ∃ k : Z, to_int32 z = z + k * 4294967296.
Proof.
  unfold to_int32. exists (- ((z + 2 ^ 31) / 2 ^ 32)).
  rewrite Z.mod_eq by lia. lia.
Qed.

Lemma to_int32_congr (a b k : Z) :
  a = b + k * 4294967296 → to_int32 a = to_int32 b.
Proof.
  intros ->. unfold to_int32.
  replace (b + k * 4294967296 + 2 ^ 31) with (b + 2 ^ 31 + k * 2 ^ 32) by lia.
  by rewrite Z_mod_plus_full.
Qed.

Lemma to_int32_idem (z : Z) : to_int32 (to_int32 z) = to_int32 z.
Proof.
  destruct (to_int32_spec z) as [k Hk]. by apply (to_int32_congr _ _ k).
Qed.

(** One round of the loop adds the code unit to 31 times the hash,
    modulo 2^32. *)
Lemma hash_round (h c : Z) :
  and32 (shl32 h 5 - h + c) (shl32 h 5 - h + c) = to_int32 (31 * h + c).
Proof.
  unfold and32. rewrite Z.land_diag, to_int32_idem.
  unfold shl32. rewrite Z.shiftl_mul_pow2 by lia.
  destruct (to_int32_spec h) as [k1 Hk1].
  destruct (to_int32_spec (to_int32 h * 2 ^ 5)) as [k2 Hk2].
  apply (to_int32_congr _ _ (32 * k1 + k2)). lia.
Qed.

Lemma hash_loop_append (h : Z) (s1 s2 : string) :
  hash_loop h (s1 +:+ s2) = hash_loop (hash_loop h s1) s2.
Proof. revert h. induction s1 as [|c s1 IH]; simpl; intros h; [done|]. apply IH. Qed.

Lemma hash_loop_Aa_BB (h : Z) : hash_loop h "Aa" = hash_loop h "BB".
Proof.
  cbn [hash_loop]. rewrite !hash_round.
  destruct (to_int32_spec (31 * h + charCode "A")) as [k1 Hk1].
  destruct (to_int32_spec (31 * h + charCode "B")) as [k2 Hk2].
  apply (to_int32_congr _ _ (31 * k1 - 31 * k2)).
  rewrite Hk1, Hk2. unfold charCode. simpl. lia.
Qed.

Lemma append_differs (x y : string) : x +:+ "Aa" +:+ y ≠ x +:+ "BB" +:+ y.
Proof. induction x as [|c x IH]; simpl; [discriminate|]. intros [= H]. by apply IH. Qed.

(** X20. The hash does not tell passwords apart that differ in 'Aa' against
    'BB' anywhere: they are different strings with the same hash, so
    either one passes the credential check of an account registered
    with the other. *)
Theorem hashPassword_collides (x y : string) :
  x +:+ "Aa" +:+ y ≠ x +:+ "BB" +:+ y
  ∧ hashPassword (x +:+ "Aa" +:+ y) = hashPassword (x +:+ "BB" +:+ y)
  ∧ verifyPassword (x +:+ "BB" +:+ y)
      (Some (VStr (hashPassword (x +:+ "Aa" +:+ y)))) = true.
Proof.
  assert (H : hashPassword (x +:+ "Aa" +:+ y) = hashPassword (x +:+ "BB" +:+ y)).
  { unfold hashPassword. rewrite !hash_loop_append. by rewrite hash_loop_Aa_BB. }
  split; [apply append_differs|]. split; [done|].
  unfold verifyPassword, is_str. rewrite H. apply String.eqb_refl.
Qed.

Lemma publicUser_fields (i e n : option value) (k : string) :
  is_Some (publicUser i e n !! k) → k ∈ ["id"; "email"; "fullName"].
Proof.
  unfold publicUser, with_prop. intros [v Hv].
  destruct (decide (k = "id")) as [->|H1]; [set_solver|].
  destruct (decide (k = "email")) as [->|H2]; [set_solver|].
  destruct (decide (k = "fullName")) as [->|H3]; [set_solver|].
  exfalso. revert Hv.
  destruct i, e, n;
    rewrite ?lookup_insert_ne, ?lookup_delete_ne by done;
    rewrite ?lookup_insert_ne, ?lookup_delete_ne by done;
    rewrite ?lookup_insert_ne, ?lookup_delete_ne by done;
    by rewrite lookup_empty.
Qed.

(** X21. A successful [loginUser] of the second module stores as session the
    id, email and full name of the first user whose email matches and
    whose stored hash the password verifies against: the session never
    holds the password hash, and nothing but the session is written. *)
Theorem guide_loginUser_session (email password : string) (st : store) (s : obj) :
  eval (loginUser email password) st = Ok (SuccessUser s) →
  ∃ u : obj,
    eval (findUserByEmail email) st = Ok (Some (VObj u))
    ∧ verifyPassword password (u !! "password") = true
    ∧ s = publicUser (u !! "id") (u !! "email") (u !! "fullName")
    ∧ s !! "password" = None
    ∧ (∀ k : string, is_Some (s !! k) → k ∈ ["id"; "email"; "fullName"])
    ∧ exec (loginUser email password) st = <[KEY_CURRENT_USER := VObj s]> st.
Proof.
  unfold loginUser, findUserByEmail, getUsers, setCurrentUser. run_M.
  destruct (parsed_or (VArr []) (st !! KEY_USERS)) as [| | | |l|]; cbn [as_array];
    try discriminate.
  destruct (arr_find (email_is email) l) as [[x|]|] eqn:Hx; try discriminate.
  destruct (arr_find_findIndex _ _ _ Hx) as (_ & _ & _ & Hc).
  destruct x as [| | | | |u]; try discriminate Hc.
  cbn [truthy negb prop].
  destruct (verifyPassword password (u !! "password")) eqn:Hv; cbn [negb];
    [|discriminate].
  intros [= <-]. exists u. repeat split; try done.
  - unfold publicUser. by rewrite !with_prop_lookup_ne by discriminate.
  - apply publicUser_fields.
Qed.

End Hashing.

(** * The email check and src/js/auth.js *)

Section EmailCheck.
Import JS RegExp.

Lemma dead_not_nullable (r : regex) : dead r = true → nullable r = false.
Proof.
  induction r as [| | |r1 IH1 r2 IH2|r1 IH1 r2 IH2|r1 IH1]; simpl; try done.
  - intros [H|H]%orb_true_iff.
    + by rewrite IH1.
    + rewrite IH2 by done. apply andb_false_r.
  - intros [H1 H2]%andb_true_iff. by rewrite IH1, IH2.
Qed.

Lemma dead_deriv (c : ascii) (r : regex) : dead r = true → dead (deriv c r) = true.
Proof.
  induction r as [| | |r1 IH1 r2 IH2|r1 IH1 r2 IH2|r1 IH1]; simpl; try done.
  - intros [H|H]%orb_true_iff.
    + rewrite (dead_not_nullable _ H). simpl. by rewrite IH1.
    + destruct (nullable r1); simpl; rewrite H, ?IH2 by done;
        by rewrite ?orb_true_r.
  - intros [H1 H2]%andb_true_iff. by rewrite IH1, IH2.
Qed.

Lemma dead_test (r : regex) (s : string) : dead r = true → test r s = false.
Proof.
  revert r. induction s as [|c s IH]; simpl; intros r H.
  - by apply dead_not_nullable.
  - apply IH. by apply dead_deriv.
Qed.

Lemma within_deriv (q : ascii → bool) (c : ascii) (r : regex) :
  within q r → within q (deriv c r).
Proof.
  induction r as [| | p|r1 IH1 r2 IH2|r1 IH1 r2 IH2|r1 IH1]; simpl; try done.
  - by destruct (p c).
  - intros [H1 H2]. destruct (nullable r1); simpl; auto.
  - intros [H1 H2]. auto.
  - intros H. auto.
Qed.

Lemma outside_deriv (q : ascii → bool) (c : ascii) (r : regex) :
  within q r → q c = false → dead (deriv c r) = true.
Proof.
  intros Hw Hq.
  induction r as [| | p|r1 IH1 r2 IH2|r1 IH1 r2 IH2|r1 IH1]; simpl in *; try done.
  - destruct (p c) eqn:E; [|done]. rewrite (Hw c E) in Hq. discriminate.
  - destruct Hw as [H1 H2]. destruct (nullable r1); simpl.
    + by rewrite IH1, IH2.
    + by rewrite IH1.
  - destruct Hw as [H1 H2]. by rewrite IH1, IH2.
  - by rewrite IH1.
Qed.

Lemma test_within (q : ascii → bool) (r : regex) (s : string) :
  within q r → test r s = true →
  ∀ c, c ∈ list_ascii_of_string s → q c = true.
Proof.
  revert r. induction s as [|c s IH]; simpl; intros r Hw Ht x Hx.
  - by apply not_elem_of_nil in Hx.
  - destruct (q c) eqn:Hq.
    + apply elem_of_cons in Hx as [->|Hx]; [done|].
      apply (IH (deriv c r)); [by apply within_deriv|done|done].
    + rewrite (dead_test (deriv c r)) in Ht; [discriminate|].
      by apply (outside_deriv q).
Qed.

Lemma emailRegex_within : within (fun c => negb (is_space c)) emailRegex.
Proof.
  assert (H1 : ∀ c, notSpaceNorAt c = true → negb (is_space c) = true).
  { intros c. unfold notSpaceNorAt. by intros [? _]%andb_true_iff. }
  assert (H2 : ∀ c, Ascii.eqb "@" c = true → negb (is_space c) = true).
  { intros c H. apply Ascii.eqb_eq in H. by subst c. }
  assert (H3 : ∀ c, Ascii.eqb "." c = true → negb (is_space c) = true).
  { intros c H. apply Ascii.eqb_eq in H. by subst c. }
  simpl. repeat split; assumption.
Qed.

Lemma trimStart_no_space (s : string) :
  (∀ c, c ∈ list_ascii_of_string s → is_space c = false) → trimStart s = s.
Proof.
  destruct s as [|c s]; [done|]. intros H. simpl.
  rewrite (H c); [done|]. simpl. by left.
Qed.

Lemma trimEnd_no_space (s : string) :
  (∀ c, c ∈ list_ascii_of_string s → is_space c = false) → trimEnd s = s.
Proof.
  induction s as [|c s IH]; [done|]. intros H. simpl.
  rewrite (H c) by (simpl; by left). simpl. rewrite IH; [done|].
  intros x Hx. apply H. simpl. by right.
Qed.

Lemma is_space_lower_char (c : ascii) : is_space (lower_char c) = is_space c.
Proof. destruct c as [[] [] [] [] [] [] [] []]; reflexivity. Qed.

Lemma toLowerCase_no_space (s : string) :
  (∀ c, c ∈ list_ascii_of_string s → is_space c = false) →
  ∀ c, c ∈ list_ascii_of_string (toLowerCase s) → is_space c = false.
Proof.
  induction s as [|a s IH]; simpl; intros H c Hc.
  - by apply not_elem_of_nil in Hc.
  - apply elem_of_cons in Hc as [->|Hc].
    + rewrite is_space_lower_char. apply H. by left.
    + apply IH; [|done]. intros x Hx. apply H. by right.
Qed.

(** X22. An email the check accepts is not empty and holds no white space,
    so trimming it, before or after lower-casing, changes nothing. *)
Theorem emailRegex_accepts_no_space (email : string) :
  test emailRegex email = true →
  email ≠ ""
  ∧ (∀ c, c ∈ list_ascii_of_string email → is_space c = false)
  ∧ trim email = email
  ∧ trim (toLowerCase email) = toLowerCase email.
Proof.
  intros H.
  assert (Hs : ∀ c, c ∈ list_ascii_of_string email → is_space c = false).
  { intros c Hc. apply negb_true_iff.
    by apply (test_within _ emailRegex email emailRegex_within H). }
  split; [by intros ->|]. split; [done|]. split.
  - unfold trim. rewrite trimStart_no_space by done. by apply trimEnd_no_space.
  - pose proof (toLowerCase_no_space _ Hs) as Hl.
    unfold trim. rewrite trimStart_no_space by done. by apply trimEnd_no_space.
Qed.

End EmailCheck.

Section Accounts.
Import JS RegExp GuideStorage.

Lemma guide_findUserByEmail_none (email : string) (st : store) :
  eval (findUserByEmail email) st = Ok None →
  ∃ l : list value,
    eval getUsers st = Ok (VArr l) ∧ arr_find (email_is email) l = Ok None.
Proof.
  unfold findUserByEmail, getUsers. run_M.
  destruct (parsed_or (VArr []) (st !! KEY_USERS)) as [| | | |l|]; cbn [as_array];
    try discriminate.
  destruct (arr_find (email_is email) l) as [[x|]|] eqn:Hx; try discriminate.
  intros _. by exists l.
Qed.

Lemma guide_registerUser_run
    (entropy now now1 now2 email password fullName : string)
    (st : store) (l : list value) :
  eval getUsers st = Ok (VArr l) →
  arr_find (email_is email) l = Ok None →
  ∃ record : obj,
    eval (registerUser entropy now now1 now2 email password fullName) st
      = Ok (SuccessUser (publicUser (Some (VStr entropy))
                           (Some (VStr (trim (toLowerCase email))))
                           (Some (VStr (trim fullName)))))
    ∧ exec (registerUser entropy now now1 now2 email password fullName) st
        !! KEY_USERS = Some (VArr (l ++ [VObj record]))
    ∧ record !! "id" = Some (VStr entropy)
    ∧ record !! "email" = Some (VStr (trim (toLowerCase email)))
    ∧ record !! "password" = Some (VStr (hashPassword password))
    ∧ record !! "fullName" = Some (VStr (trim fullName)).
Proof.
  unfold registerUser, findUserByEmail, getUsers, saveUsers, initializeUserData.
  run_M. intros [= Hu] Hf. rewrite Hu. cbn [as_array]. rewrite Hf.
  cbn [truthy_opt]. rewrite Hu. cbn [as_array].
  eexists. split; [reflexivity|]. split.
  { rewrite !lookup_insert_ne by (cbn; discriminate).
    rewrite lookup_insert_eq. reflexivity. }
  repeat split.
Qed.

Lemma guide_loginUser_run (email password : string) (st : store)
    (l : list value) (u : obj) :
  st !! KEY_USERS = Some (VArr l) →
  arr_find (email_is email) l = Ok (Some (VObj u)) →
  verifyPassword password (u !! "password") = true →
  loginUser email password st
  = (Ok (SuccessUser (publicUser (u !! "id") (u !! "email") (u !! "fullName"))),
     <[KEY_CURRENT_USER :=
         VObj (publicUser (u !! "id") (u !! "email") (u !! "fullName"))]> st).
Proof.
  intros Hu Hf Hv.
  unfold loginUser, findUserByEmail, getUsers, setCurrentUser. run_M.
  rewrite Hu. cbn [parsed_or as_array]. rewrite Hf. cbn [truthy negb prop].
  by rewrite Hv.
Qed.

Lemma guide_email_is_self (email : string) (record : obj) :
  record !! "email" = Some (VStr (toLowerCase email)) →
  email_is email (VObj record) = Ok true.
Proof.
  intros H. unfold email_is. cbn [prop]. rewrite H. cbn.
  by rewrite toLowerCase_idem, String.eqb_refl.
Qed.

(** X23. [Auth.register] with a well-formed email that no stored user has, a
    password of six characters or more, repeated correctly, and a name:
    the account is stored with the hashed password and the caller is
    logged in, the session holding the id, the lower-cased email and the
    trimmed name and no password. *)
Theorem register_logs_in
    (entropy now now1 now2 email password fullName : string) (st : store) :
  test emailRegex email = true →
  (6 ≤ String.length password)%nat →
  fullName ≠ "" →
  eval (findUserByEmail email) st = Ok None →
  ∃ (l : list value) (record session : obj),
    eval getUsers st = Ok (VArr l)
    ∧ eval (Auth.register entropy now now1 now2 email password password fullName) st
        = Ok (SuccessUser session)
    ∧ exec (Auth.register entropy now now1 now2 email password password fullName) st
        !! KEY_USERS = Some (VArr (l ++ [VObj record]))
    ∧ exec (Auth.register entropy now now1 now2 email password password fullName) st
        !! KEY_CURRENT_USER = Some (VObj session)
    ∧ record !! "email" = Some (VStr (toLowerCase email))
    ∧ record !! "password" = Some (VStr (hashPassword password))
    ∧ session = publicUser (Some (VStr entropy)) (Some (VStr (toLowerCase email)))
                  (Some (VStr (trim fullName)))
    ∧ session !! "password" = None.
Proof.
  intros Hre Hlen Hfn Hfresh.
  destruct (guide_findUserByEmail_none _ _ Hfresh) as (l & Hl & Hnone).
  destruct (guide_registerUser_run entropy now now1 now2 email password fullName
              st l Hl Hnone) as (record & Hev & Hus & Hi & He & Hp & Hn).
  assert (Hlow : trim (toLowerCase email) = toLowerCase email).
  { assert (Hs : ∀ c, c ∈ list_ascii_of_string email → is_space c = false).
    { intros c Hc. apply negb_true_iff.
      by apply (test_within _ emailRegex email emailRegex_within Hre). }
    pose proof (toLowerCase_no_space _ Hs) as Hs'.
    unfold trim. rewrite trimStart_no_space by done.
    by apply trimEnd_no_space. }
  rewrite Hlow in *.
  assert (He0 : String.eqb email "" = false).
  { apply String.eqb_neq. intros ->. discriminate Hre. }
  assert (Hp0 : String.eqb password "" = false).
  { apply String.eqb_neq. intros ->. simpl in Hlen. lia. }
  assert (Hf0 : String.eqb fullName "" = false) by by apply String.eqb_neq.
  assert (Hl6 : Nat.ltb (String.length password) 6 = false)
    by (apply Nat.ltb_ge; lia).
  apply run_eq in Hev.
  set (st1 := exec (registerUser entropy now now1 now2 email password fullName) st)
    in *.
  clearbody st1.
  assert (Hin : loginUser email password st1
    = (Ok (SuccessUser (publicUser (record !! "id") (record !! "email")
                          (record !! "fullName"))),
       <[KEY_CURRENT_USER :=
           VObj (publicUser (record !! "id") (record !! "email")
                   (record !! "fullName"))]> st1)).
  { apply (guide_loginUser_run _ _ _ (l ++ [VObj record])); [done| |].
    - rewrite (arr_find_app_none _ _ _ Hnone). cbn [arr_find].
      rewrite guide_email_is_self by done. reflexivity.
    - unfold verifyPassword. rewrite Hp. cbn [is_str]. apply String.eqb_refl. }
  rewrite Hi, He, Hn in Hin.
  assert (Hrun : Auth.register entropy now now1 now2 email password password
                   fullName st
    = (Ok (SuccessUser (publicUser (Some (VStr entropy))
                          (Some (VStr (toLowerCase email)))
                          (Some (VStr (trim fullName))))),
       <[KEY_CURRENT_USER :=
           VObj (publicUser (Some (VStr entropy))
                   (Some (VStr (toLowerCase email)))
                   (Some (VStr (trim fullName))))]> st1)).
  { unfold Auth.register, Auth.login.
    rewrite He0, Hp0, Hf0, Hre, Hl6, String.eqb_refl. cbn [orb negb].
    run_M. rewrite Hev. cbn [Auth.success]. exact Hin. }
  exists l, record. eexists. unfold eval, exec. rewrite Hrun. cbn [fst snd].
  split; [done|]. split; [reflexivity|]. split.
  { rewrite lookup_insert_ne by discriminate. exact Hus. }
  split; [by rewrite lookup_insert_eq|].
  repeat split; try done.
Qed.

(** X24. A successful [Auth.deleteAccount] removes the session and filters
    the user list by id and writes nothing else: the user's data,
    documents, forms, chat history and civics progress all stay in
    storage. *)
Theorem deleteAccount_keeps_user_data (password message : string) (st : store) :
  eval (Auth.deleteAccount password) st = Ok (SuccessMessage message) →
  ∃ (user : value) (id : option value) (l l' : list value),
    st !! KEY_CURRENT_USER = Some user
    ∧ prop user "id" = Ok id
    ∧ eval getUsers st = Ok (VArr l)
    ∧ arr_filter (Auth.other_id id) l = Ok l'
    ∧ exec (Auth.deleteAccount password) st !! KEY_USERS = Some (VArr l')
    ∧ exec (Auth.deleteAccount password) st !! KEY_CURRENT_USER = None
    ∧ ∀ k : string, k ≠ KEY_USERS → k ≠ KEY_CURRENT_USER →
        exec (Auth.deleteAccount password) st !! k = st !! k.
Proof.
  unfold Auth.deleteAccount, Auth.getCurrentUser, getCurrentUser,
    findUserByEmailOf, getUsers, saveUsers, clearAllData, getCurrentUser.
  run_M.
  destruct (st !! KEY_CURRENT_USER) as [user|] eqn:Hs; cbn [parsed_or truthy negb];
    [|discriminate].
  destruct (truthy user) eqn:Ht; cbn [negb]; [|discriminate].
  destruct (prop user "email") as [email|]; [|discriminate].
  destruct (parsed_or (VArr []) (st !! KEY_USERS)) as [| | | |l|] eqn:Hu;
    cbn [as_array]; try discriminate.
  destruct (arr_find _ l) as [[u|]|]; try discriminate.
  destruct (prop u "password") as [stored|]; [|discriminate].
  destruct (verifyPassword password stored); cbn [negb]; [|discriminate].
  rewrite Hu. cbn [as_array].
  destruct (prop user "id") as [id|] eqn:Hid; [|discriminate].
  destruct (arr_filter (Auth.other_id id) l) as [l'|] eqn:Hf; [|discriminate].
  rewrite lookup_insert_ne by done. rewrite Hs. cbn [parsed_or].
  rewrite Ht. cbn [fst snd]. intros _.
  exists user, id, l, l'. repeat split; try done.
  - rewrite lookup_delete_ne by done. by rewrite lookup_insert_eq.
  - by rewrite lookup_delete_eq.
  - intros k H1 H2. rewrite lookup_delete_ne by done.
    by rewrite lookup_insert_ne.
Qed.

Lemma alter_as_insert {A : Type} (f : A → A) (l : list A) (i : nat) (x : A) :
  l !! i = Some x → alter f i l = <[i := f x]> l.
Proof.
  revert i. induction l as [|y l IH]; intros [|i]; simpl; try done.
  - by intros [= ->].
  - intros H. by rewrite <- (IH i H).
Qed.

Lemma guide_email_is_obj (email : string) (u : value) :
  email_is email u = Ok true → ∃ o : obj, u = VObj o.
Proof.
  destruct u as [| | | | |o]; try discriminate. intros _. by exists o.
Qed.

(** X25. What a successful [Auth.changePassword] did: the two new passwords
    agree and are six characters or longer, the current password hashes
    to what the first record with the session's email stores, and the
    one write sets the password of the first record with the session's
    id to the hash of the new password; the session and every other
    record and key stay. *)
Theorem changePassword_sets_hash
    (currentPassword newPassword confirmPassword message : string) (st : store) :
  eval (Auth.changePassword currentPassword newPassword confirmPassword) st
    = Ok (SuccessMessage message) →
  ∃ (user : value) (email id : option value) (l : list value) (i : nat)
    (checked changed : value),
    newPassword = confirmPassword
    ∧ (6 ≤ String.length newPassword)%nat
    ∧ st !! KEY_CURRENT_USER = Some user
    ∧ prop user "email" = Ok email
    ∧ prop user "id" = Ok id
    ∧ eval getUsers st = Ok (VArr l)
    ∧ eval (findUserByEmailOf email) st = Ok (Some checked)
    ∧ (∃ stored, prop checked "password" = Ok stored
                 ∧ verifyPassword currentPassword stored = true)
    ∧ arr_findIndex (Auth.same_id id) l = Ok (Some i)
    ∧ l !! i = Some changed
    ∧ exec (Auth.changePassword currentPassword newPassword confirmPassword) st
      = <[KEY_USERS :=
            VArr (<[i := assign "password" (VStr (hashPassword newPassword))
                           changed]> l)]> st.
Proof.
  unfold Auth.changePassword, Auth.getCurrentUser, getCurrentUser,
    findUserByEmailOf, getUsers, saveUsers.
  run_M.
  destruct (st !! KEY_CURRENT_USER) as [user|] eqn:Hs; cbn [parsed_or truthy negb];
    [|discriminate].
  destruct (truthy user) eqn:Ht; cbn [negb]; [|discriminate].
  destruct (String.eqb newPassword confirmPassword) eqn:Hc; cbn [negb];
    [|discriminate].
  destruct (Nat.ltb (String.length newPassword) 6) eqn:Hl6; [discriminate|].
  destruct (prop user "email") as [email|] eqn:Hem; [|discriminate].
  destruct (parsed_or (VArr []) (st !! KEY_USERS)) as [| | | |l|] eqn:Hu;
    cbn [as_array]; try discriminate.
  destruct (arr_find _ l) as [[u|]|] eqn:Hfind; try discriminate.
  destruct (prop u "password") as [stored|] eqn:Hst; [|discriminate].
  destruct (verifyPassword currentPassword stored) eqn:Hv; cbn [negb];
    [|discriminate].
  rewrite Hu. cbn [as_array].
  destruct (prop user "id") as [id|] eqn:Hid; [|discriminate].
  destruct (arr_findIndex (Auth.same_id id) l) as [[i|]|] eqn:Hi;
    try discriminate.
  cbn [fst snd]. intros _.
  destruct (arr_findIndex_find _ _ _ Hi) as (changed & Hli & _ & _).
  exists user, email, id, l, i, u, changed.
  apply String.eqb_eq in Hc. apply Nat.ltb_ge in Hl6.
  repeat split; try done.
  - by exists stored.
  - by rewrite (alter_as_insert _ _ _ _ Hli).
Qed.

(** X26. When the first record with the session's id is also the first with
    the email [email], a successful [Auth.changePassword] lets that
    email log in with the new password. *)
Theorem changePassword_then_login
    (currentPassword newPassword confirmPassword message email : string)
    (st : store) (user : value) (id : option value) (l : list value) (i : nat) :
  eval (Auth.changePassword currentPassword newPassword confirmPassword) st
    = Ok (SuccessMessage message) →
  st !! KEY_CURRENT_USER = Some user →
  prop user "id" = Ok id →
  eval getUsers st = Ok (VArr l) →
  arr_findIndex (Auth.same_id id) l = Ok (Some i) →
  arr_findIndex (email_is email) l = Ok (Some i) →
  ∃ session : obj,
    eval (loginUser email newPassword)
      (exec (Auth.changePassword currentPassword newPassword confirmPassword) st)
    = Ok (SuccessUser session)
    ∧ session !! "id" = id
    ∧ session !! "password" = None.
Proof.
  intros Hev Hs Hid Hl Hi He.
  destruct (arr_findIndex_find _ _ _ He) as (x & Hli & Hcb & _).
  destruct (guide_email_is_obj _ _ Hcb) as (o & ->).
  assert (Hex : exec (Auth.changePassword currentPassword newPassword
                        confirmPassword) st
    = <[KEY_USERS :=
          VArr (<[i := VObj (<["password" := VStr (hashPassword newPassword)]> o)]>
                  l)]> st).
  { revert Hev Hl.
    unfold Auth.changePassword, Auth.getCurrentUser, getCurrentUser,
      findUserByEmailOf, getUsers, saveUsers.
    run_M. rewrite Hs. cbn [parsed_or].
    destruct (truthy user); cbn [negb]; [|discriminate].
    destruct (String.eqb newPassword confirmPassword); cbn [negb];
      [|discriminate].
    destruct (Nat.ltb (String.length newPassword) 6); [discriminate|].
    destruct (prop user "email") as [e|]; [|discriminate].
    intros Hev [= Hu]. revert Hev. rewrite Hu. cbn [as_array].
    destruct (arr_find _ l) as [[u|]|]; try discriminate.
    destruct (prop u "password") as [stored|]; [|discriminate].
    destruct (verifyPassword currentPassword stored); cbn [negb];
      [|discriminate].
    rewrite Hu. cbn [as_array]. rewrite Hid, Hi. cbn [fst snd]. intros _.
    by rewrite (alter_as_insert _ _ _ _ Hli). }
  rewrite Hex.
  set (o' := <["password" := VStr (hashPassword newPassword)]> o).
  assert (Hrun : loginUser email newPassword
                   (<[KEY_USERS := VArr (<[i := VObj o']> l)]> st)
    = (Ok (SuccessUser (publicUser (o' !! "id") (o' !! "email") (o' !! "fullName"))),
       <[KEY_CURRENT_USER :=
           VObj (publicUser (o' !! "id") (o' !! "email") (o' !! "fullName"))]>
         (<[KEY_USERS := VArr (<[i := VObj o']> l)]> st))).
  { apply (guide_loginUser_run _ _ _ (<[i := VObj o']> l)).
    - by rewrite lookup_insert_eq.
    - apply arr_find_insert; [done|].
      revert Hcb. unfold email_is, o'. cbn [prop].
      by rewrite lookup_insert_ne by done.
    - unfold verifyPassword, o'. rewrite lookup_insert_eq. cbn [is_str].
      apply String.eqb_refl. }
  eexists. unfold eval. rewrite Hrun. cbn [fst]. split; [reflexivity|].
  unfold publicUser. split.
  - rewrite with_prop_lookup. unfold o'. rewrite lookup_insert_ne by done.
    destruct (arr_findIndex_find _ _ _ Hi) as (y & Hli' & Hsame & _).
    rewrite Hli in Hli'. injection Hli' as <-.
    revert Hsame. unfold Auth.same_id. cbn [prop]. run_M.
    intros [= Hsame]. cbn [default].
    destruct (o !! "id") as [[]|], id as [[]|]; try discriminate Hsame; try done.
    + cbn in Hsame. apply Bool.eqb_prop in Hsame. by subst.
    + cbn in Hsame. apply Z.eqb_eq in Hsame. by subst.
    + cbn in Hsame. apply String.eqb_eq in Hsame. by subst.
  - by rewrite !with_prop_lookup_ne by done.
Qed.

End Accounts.

Section DistinctEmails.
Import JS RegExp GuideStorage.

Lemma guide_email_is_false (email : string) (u : obj) (a : string) :
  u !! "email" = Some (VStr a) →
  email_is email (VObj u) = Ok false →
  toLowerCase a ≠ toLowerCase email.
Proof.
  intros Ha. unfold email_is. cbn [prop]. rewrite Ha. cbn.
  intros [= H]. by apply String.eqb_neq.
Qed.

Lemma emails_distinct_push (email : string) (l : list value) (record : obj) :
  Auth.emails_distinct l →
  arr_find (email_is email) l = Ok None →
  record !! "email" = Some (VStr (toLowerCase email)) →
  Auth.emails_distinct (l ++ [VObj record]).
Proof.
  intros Hd Hnone He i j u v a b Hij Hi Hj Ha Hb.
  pose proof (lookup_lt_Some _ _ _ Hj) as Hjl.
  rewrite length_app in Hjl. simpl in Hjl.
  destruct (decide (j < List.length l)%nat) as [Hlt|Hge].
  - rewrite lookup_app_l in Hi by lia. rewrite lookup_app_l in Hj by lia.
    by apply (Hd i j u v a b).
  - rewrite lookup_app_l in Hi by lia.
    rewrite lookup_app_r in Hj by lia.
    destruct (j - List.length l)%nat as [|n] eqn:E; [|done].
    injection Hj as <-. rewrite He in Hb. injection Hb as <-.
    rewrite toLowerCase_idem.
    apply (guide_email_is_false _ u); [done|].
    apply (arr_find_none_all _ l); [done|].
    by apply (list_elem_of_lookup_2 _ i).
Qed.

(** X27. Behind [Auth.register] the user list keeps its emails distinct,
    letter case aside: a registration that succeeds appends one record
    whose email no earlier record has. *)
Theorem register_keeps_emails_distinct
    (entropy now now1 now2 email password confirmPassword fullName : string)
    (st : store) (l : list value) (session : obj) :
  eval getUsers st = Ok (VArr l) →
  Auth.emails_distinct l →
  eval (Auth.register entropy now now1 now2 email password confirmPassword
          fullName) st = Ok (SuccessUser session) →
  ∃ record : obj,
    exec (Auth.register entropy now now1 now2 email password confirmPassword
            fullName) st !! KEY_USERS = Some (VArr (l ++ [VObj record]))
    ∧ Auth.emails_distinct (l ++ [VObj record]).
Proof.
  intros Hl Hd. unfold Auth.register.
  destruct (_ || _ || _ || _); [discriminate|].
  destruct (test emailRegex email) eqn:Hre; cbn [negb]; [|discriminate].
  destruct (Nat.ltb _ 6); [discriminate|].
  destruct (negb _); [discriminate|].
  assert (Hlow : trim (toLowerCase email) = toLowerCase email).
  { assert (Hs : ∀ c, c ∈ list_ascii_of_string email → is_space c = false).
    { intros c Hc. apply negb_true_iff.
      by apply (test_within _ emailRegex email emailRegex_within Hre). }
    pose proof (toLowerCase_no_space _ Hs) as Hs'.
    unfold trim. rewrite trimStart_no_space by done.
    by apply trimEnd_no_space. }
  revert Hl.
  unfold Auth.login, registerUser, loginUser, findUserByEmail, getUsers,
    saveUsers, initializeUserData, setCurrentUser.
  run_M. intros [= Hu]. rewrite Hu. cbn [as_array].
  destruct (arr_find (email_is email) l) as [[x|]|] eqn:Hfind; try discriminate.
  { destruct (arr_find_findIndex _ _ _ Hfind) as (_ & _ & _ & Hcb).
    destruct (guide_email_is_obj _ _ Hcb) as (o & ->). discriminate. }
  cbn [truthy_opt]. rewrite Hu. cbn [as_array Auth.success].
  destruct (_ || _); [discriminate|].
  rewrite Hre. cbn [negb].
  rewrite !lookup_insert_ne by done. rewrite lookup_insert_eq.
  cbn [parsed_or as_array]. rewrite Hlow.
  set (record := ({[ "id" := VStr entropy;
                     "email" := VStr (toLowerCase email);
                     "password" := VStr (hashPassword password);
                     "fullName" := VStr (trim fullName);
                     "createdAt" := VStr now ]} : obj)).
  assert (Hrec : record !! "email" = Some (VStr (toLowerCase email))).
  { unfold record. rewrite lookup_insert_ne by done. by rewrite lookup_insert_eq. }
  intros Hev. exists record. split; [|by apply (emails_distinct_push email)].
  revert Hev.
  destruct (arr_find (email_is email) (l ++ [VObj record])) as [[y|]|];
    try discriminate.
  destruct (truthy y); cbn [negb]; [|discriminate].
  destruct (prop y "password") as [pw|]; [|discriminate].
  destruct (verifyPassword password pw); cbn [negb]; [|discriminate].
  destruct (prop y "id"); [|discriminate].
  destruct (prop y "email"); [|discriminate].
  destruct (prop y "fullName"); [|discriminate].
  cbn [fst snd]. intros _.
  rewrite !lookup_insert_ne by done. by rewrite lookup_insert_eq.
Qed.

End DistinctEmails.

(** * The further properties on concrete runs *)

Section StorageRuns.
Import JS Storage.

Lemma failure_changes_nothing_witness :
  exec (run (CallLogin "a@x.com" "wrong")) Scenario.one_user = Scenario.one_user.
Proof.
  apply (failure_changes_nothing (CallLogin "a@x.com" "wrong") Scenario.one_user
           "Incorrect password. Please try again.").
  vm_compute; reflexivity.
Defined.

Lemma loginUser_succeeds_iff_witness :
  exec (loginUser "a@x.com" "secret1") Scenario.one_user
  = <[CURRENT_USER_KEY := VObj (sessionUser Scenario.ann_record)]> Scenario.one_user.
Proof.
  destruct (loginUser_succeeds_iff "a@x.com" "secret1" Scenario.one_user
              (sessionUser Scenario.ann_record)) as [_ H].
  - discriminate.
  - discriminate.
  - apply H. vm_compute; reflexivity.
Defined.


Lemma registerUser_then_login_witness :
  eval (loginUser "A@X.com" "secret1") (exec (registerUser "1" "t0" Scenario.ann) ∅)
  = Ok (SuccessUser (sessionUser Scenario.ann_record)).
Proof.
  apply (registerUser_then_login "1" "t0" Scenario.ann ∅ Scenario.ann_record
           "a@x.com" "secret1" "A@X.com").
  - vm_compute; reflexivity.
  - vm_compute; reflexivity.
  - vm_compute; reflexivity.
  - vm_compute; reflexivity.
  - vm_compute; reflexivity.
Defined.

Lemma updateApplication_touches_own_only_witness :
  exec (updateApplication "t9" "usr_1" "app_7" Runs.spain) Scenario.one_application
    !! USERS_KEY = Scenario.one_application !! USERS_KEY.
Proof.
  destruct (updateApplication_touches_own_only "t9" "usr_1" "app_7" Runs.spain
              Scenario.one_application Runs.updated_application)
    as (la & i & a & _ & _ & _ & _ & _ & _ & _ & _ & H & _).
  - vm_compute; reflexivity.
  - exact H.
Defined.

Lemma deleteApplication_keeps_others_witness :
  ∃ la la' : list value,
    eval getApplications Scenario.one_application = Ok (VArr la)
    ∧ eval getApplications
        (exec (deleteApplication "usr_1" "app_7") Scenario.one_application)
      = Ok (VArr la')
    ∧ sublist la' la.
Proof.
  destruct (deleteApplication_keeps_others "usr_1" "app_7" Scenario.one_application
              "Application deleted successfully")
    as (la & la' & H1 & H2 & _ & H3 & _).
  - vm_compute; reflexivity.
  - exists la, la'. split; [exact H1|]. split; [exact H2|exact H3].
Defined.

Lemma getUserApplicationStats_bounds_witness :
  ∃ applications : list value,
    eval (getUserApplications "usr_1") Scenario.one_application = Ok applications
    ∧ total (Stats 1 1 0 0 0) = List.length applications.
Proof.
  destruct (getUserApplicationStats_bounds "usr_1" Scenario.one_application
              (Stats 1 1 0 0 0)) as (l & H1 & H2 & _).
  - vm_compute; reflexivity.
  - exists l. split; [exact H1|exact H2].
Defined.

Lemma addApplication_counts_as_pending_witness :
  eval (getUserApplicationStats "usr_1")
    (exec (addApplication "7" "t2" "t3" "usr_1" {[ "destination" := VStr "France" ]})
       Scenario.one_user)
  = Ok (Stats 1 1 0 0 0).
Proof.
  apply (addApplication_counts_as_pending "7" "t2" "t3" "usr_1"
           {[ "destination" := VStr "France" ]} Scenario.one_user
           Scenario.anns_application (Stats 0 0 0 0 0)).
  - vm_compute; reflexivity.
  - vm_compute; reflexivity.
  - vm_compute; reflexivity.
  - vm_compute; reflexivity.
Defined.


Lemma addApplication_session_mirrors_user_witness :
  ∃ u' : obj,
    eval (findUserById "usr_1")
      (exec (addApplication "7" "t2" "t3" "usr_1"
               {[ "destination" := VStr "France" ]}) Scenario.one_user)
    = Ok (Some (VObj u'))
    ∧ exec (addApplication "7" "t2" "t3" "usr_1"
              {[ "destination" := VStr "France" ]}) Scenario.one_user
        !! CURRENT_USER_KEY = Some (VObj (sessionUser u')).
Proof.
  apply (addApplication_session_mirrors_user "7" "t2" "t3" "usr_1"
           {[ "destination" := VStr "France" ]} Scenario.one_user
           Scenario.anns_application).
  vm_compute; reflexivity.
Defined.

Lemma deleteApplication_session_mirrors_user_witness :
  ∃ u' : obj,
    eval (findUserById "usr_1")
      (exec (deleteApplication "usr_1" "app_7") Scenario.one_application)
    = Ok (Some (VObj u'))
    ∧ exec (deleteApplication "usr_1" "app_7") Scenario.one_application
        !! CURRENT_USER_KEY = Some (VObj (sessionUser u')).
Proof.
  apply (deleteApplication_session_mirrors_user "usr_1" "app_7"
           Scenario.one_application "Application deleted successfully"
           (VObj Runs.ann_with_application)).
  - vm_compute; reflexivity.
  - vm_compute; reflexivity.
Defined.

Lemma importUserData_only_once_witness :
  eval (importUserData Runs.cy_export) (exec (importUserData Runs.cy_export) Scenario.one_user)
  = Ok (Failure "User already exists. Please login to import data.").
Proof.
  destruct (importUserData_only_once Runs.cy_export Scenario.one_user
              "Data imported successfully" Runs.cy "c@x.com") as [H _].
  - vm_compute; reflexivity.
  - vm_compute; reflexivity.
  - vm_compute; reflexivity.
  - unfold eval. by rewrite H.
Defined.

Lemma export_then_import_witness :
  ∃ (u record : obj) (applications l : list value),
    eval (findUserById "usr_1") Scenario.one_application = Ok (Some (VObj u))
    ∧ eval (getUserApplications "usr_1") Scenario.one_application = Ok applications
    ∧ eval (getUserApplications "usr_1") (exec (importUserData Runs.ann_export) ∅)
      = Ok ([] ++ applications)
    ∧ eval getUsers ∅ = Ok (VArr l)
    ∧ eval getUsers (exec (importUserData Runs.ann_export) ∅)
      = Ok (VArr (l ++ [VObj record]))
    ∧ record !! "email" = u !! "email"
    ∧ record !! "id" = u !! "id"
    ∧ record !! "password" = None
    ∧ record !! "applications" = None.
Proof.
  apply (export_then_import "t8" "usr_1" Scenario.one_application ∅ Runs.ann_export
           "Data imported successfully" []).
  - vm_compute; reflexivity.
  - vm_compute; reflexivity.
  - vm_compute; reflexivity.
Defined.

Lemma imported_user_cannot_log_in_witness :
  eval (loginUser "A@x.com" "secret1") (exec (importUserData Runs.ann_export) ∅)
  = Ok (Failure "Incorrect password. Please try again.").
Proof.
  apply (imported_user_cannot_log_in "t8" "usr_1" Scenario.one_application ∅
           Runs.ann_export "Data imported successfully" Runs.ann_with_application
           "a@x.com" "A@x.com" "secret1").
  - vm_compute; reflexivity.
  - vm_compute; reflexivity.
  - vm_compute; reflexivity.
  - vm_compute; reflexivity.
  - vm_compute; reflexivity.
  - discriminate.
  - discriminate.
Defined.

End StorageRuns.

Section GuideRuns.
Import JS RegExp GuideStorage.

Lemma per_user_stores_are_isolated_witness :
  exec (perform (WriteClearChat "k1")) Scenario.two_messages
    !! (KEY_CHAT_HISTORY +:+ "k2")
  = Scenario.two_messages !! (KEY_CHAT_HISTORY +:+ "k2").
Proof.
  destruct (per_user_stores_are_isolated (WriteClearChat "k1") Scenario.two_messages
              "k2" KEY_CHAT_HISTORY) as [H _].
  - discriminate.
  - unfold perUserPrefixes. set_solver.
  - exact H.
Defined.

Lemma deleteDocument_removes_exactly_witness :
  ∃ l' : list value,
    eval (getDocuments "k1") (exec (deleteDocument "k1" "d1") Runs.one_document)
    = Ok (VArr l')
    ∧ sublist l' [VObj (newDocument "d1" "t1" Runs.passport)].
Proof.
  destruct (deleteDocument_removes_exactly "k1" "d1" Runs.one_document
              [VObj (newDocument "d1" "t1" Runs.passport)])
    as (l' & H1 & H2 & _).
  - vm_compute; reflexivity.
  - vm_compute; reflexivity.
  - exists l'. split; [exact H1|exact H2].
Defined.

Lemma addDocument_then_delete_witness :
  eval (getDocuments "k1")
    (exec (deleteDocument "k1" "d1")
       (exec (addDocument "d1" "t1" "k1" Runs.passport) Scenario.guide_user))
  = Ok (VArr []).
Proof.
  destruct (addDocument_then_delete "d1" "t1" "k1" Runs.passport Scenario.guide_user [])
    as [H _].
  - vm_compute; reflexivity.
  - intros d Hd. by apply not_elem_of_nil in Hd.
  - exact H.
Defined.


Lemma guide_loginUser_session_witness :
  exec (loginUser "a@x.com" "secret1") Scenario.guide_user
  = <[KEY_CURRENT_USER := VObj Scenario.guide_public]> Scenario.guide_user.
Proof.
  destruct (guide_loginUser_session "a@x.com" "secret1" Scenario.guide_user
              Scenario.guide_public) as (u & _ & _ & _ & _ & _ & H).
  - vm_compute; reflexivity.
  - exact H.
Defined.

Lemma emailRegex_accepts_no_space_witness :
  trim (toLowerCase "Ann@X.com") = toLowerCase "Ann@X.com".
Proof.
  destruct (emailRegex_accepts_no_space "Ann@X.com") as (_ & _ & _ & H).
  - vm_compute; reflexivity.
  - exact H.
Defined.

Lemma register_logs_in_witness :
  ∃ (l : list value) (record session : obj),
    eval getUsers Scenario.guide_user = Ok (VArr l)
    ∧ eval (Auth.register "k2" "t1" "t1" "t1" "B@x.com" "hunter22" "hunter22" "Bob")
        Scenario.guide_user = Ok (SuccessUser session)
    ∧ exec (Auth.register "k2" "t1" "t1" "t1" "B@x.com" "hunter22" "hunter22" "Bob")
        Scenario.guide_user !! KEY_USERS = Some (VArr (l ++ [VObj record]))
    ∧ exec (Auth.register "k2" "t1" "t1" "t1" "B@x.com" "hunter22" "hunter22" "Bob")
        Scenario.guide_user !! KEY_CURRENT_USER = Some (VObj session)
    ∧ record !! "email" = Some (VStr (toLowerCase "B@x.com"))
    ∧ record !! "password" = Some (VStr (hashPassword "hunter22"))
    ∧ session = publicUser (Some (VStr "k2")) (Some (VStr (toLowerCase "B@x.com")))
                  (Some (VStr (trim "Bob")))
    ∧ session !! "password" = None.
Proof.
  apply (register_logs_in "k2" "t1" "t1" "t1" "B@x.com" "hunter22" "Bob"
           Scenario.guide_user).
  - vm_compute; reflexivity.
  - simpl. lia.
  - discriminate.
  - vm_compute; reflexivity.
Defined.

Lemma deleteAccount_keeps_user_data_witness :
  exec (Auth.deleteAccount "secret1") Runs.guide_session !! (KEY_DOCUMENTS +:+ "k1")
  = Runs.guide_session !! (KEY_DOCUMENTS +:+ "k1").
Proof.
  destruct (deleteAccount_keeps_user_data "secret1" "Account deleted successfully"
              Runs.guide_session) as (user & id & l & l' & _ & _ & _ & _ & _ & _ & H).
  - vm_compute; reflexivity.
  - apply H; discriminate.
Defined.

Lemma changePassword_sets_hash_witness :
  ∃ (l : list value) (i : nat) (changed : value),
    eval getUsers Runs.guide_session = Ok (VArr l)
    ∧ l !! i = Some changed
    ∧ exec (Auth.changePassword "secret1" "secret2" "secret2") Runs.guide_session
      = <[KEY_USERS :=
            VArr (<[i := assign "password" (VStr (hashPassword "secret2"))
                           changed]> l)]> Runs.guide_session.
Proof.
  destruct (changePassword_sets_hash "secret1" "secret2" "secret2"
              "Password updated successfully" Runs.guide_session)
    as (user & email & id & l & i & checked & changed
        & _ & _ & _ & _ & _ & H1 & _ & _ & _ & H2 & H3).
  - vm_compute; reflexivity.
  - exists l, i, changed. split; [exact H1|]. split; [exact H2|exact H3].
Defined.

Lemma changePassword_then_login_witness :
  ∃ session : obj,
    eval (loginUser "a@x.com" "secret2")
      (exec (Auth.changePassword "secret1" "secret2" "secret2") Runs.guide_session)
    = Ok (SuccessUser session)
    ∧ session !! "id" = Some (VStr "k1")
    ∧ session !! "password" = None.
Proof.
  apply (changePassword_then_login "secret1" "secret2" "secret2"
           "Password updated successfully" "a@x.com" Runs.guide_session
           (VObj Scenario.guide_public) (Some (VStr "k1"))
           [VObj Scenario.guide_record] 0%nat).
  - vm_compute; reflexivity.
  - vm_compute; reflexivity.
  - vm_compute; reflexivity.
  - vm_compute; reflexivity.
  - vm_compute; reflexivity.
  - vm_compute; reflexivity.
Defined.

Lemma register_keeps_emails_distinct_witness :
  ∃ record : obj,
    exec (Auth.register "k2" "t1" "t1" "t1" "b@x.com" "hunter22" "hunter22" "Bob")
      Scenario.guide_user !! KEY_USERS
    = Some (VArr ([VObj Scenario.guide_record] ++ [VObj record]))
    ∧ Auth.emails_distinct ([VObj Scenario.guide_record] ++ [VObj record]).
Proof.
  apply (register_keeps_emails_distinct "k2" "t1" "t1" "t1" "b@x.com" "hunter22"
           "hunter22" "Bob" Scenario.guide_user [VObj Scenario.guide_record]
           Runs.bob_public).
  - vm_compute; reflexivity.
  - intros i j u v a b Hij Hi Hj _ _.
    destruct j as [|j]; [lia|]. simpl in Hj. by rewrite lookup_nil in Hj.
  - vm_compute; reflexivity.
Defined.

End GuideRuns.
